(** * NutriScan client: request gateway, subscription gate, offline cache

    A shallow embedding of the data-access logic of
    [nutriscan-ui/src/App.jsx] (the [api] object, [ScannerScreen],
    [PaywallScreen], [DashboardScreen]) and of the service worker
    [nutriscan-ui/public/sw.js], with the properties the specification
    states about them.

    Conventions.  JavaScript values that the code inspects are modelled by
    [value]; promises are modelled by splitting every asynchronous function
    at its [await]: the part that runs when the function is called, and the
    continuation that runs when the awaited request settles.  The network is
    the environment: a settled request is a [fetch_outcome] chosen by it. *)

From Stdlib Require Import ZArith Lia Bool List String Ascii DecimalString.
From stdpp Require Import base option list strings gmap.

Set Warnings "-register-all".
Local Open Scope string_scope.
Local Open Scope list_scope.

(** ** JavaScript values *)

Module Js.

(** The numbers of the model: the integers that a double holds exactly and
    that print in plain decimal, those of magnitude up to
    [Number.MAX_SAFE_INTEGER].  Fractions and larger numbers, which print
    rounded or with an exponent, are outside the model. *)
Definition MAX_SAFE_INTEGER : Z := 9007199254740991.

Definition is_safe_integer (n : Z) : bool := (Z.abs n <=? MAX_SAFE_INTEGER)%Z.

Record number : Type := Number {
  number_value : Z;
  number_safe : is_safe_integer number_value = true;
}.

(** The member names of the model: every name but [toString].  Printing an
    object that has a member of its own called [toString] throws (the
    member hides [Object.prototype.toString] and a JSON value cannot be
    called); such objects are outside the model, so that every value of
    the model has a printed form. *)
Definition is_member_name (k : string) : bool := negb (String.eqb k "toString").

Record name : Type := Name {
  name_text : string;
  name_member : is_member_name name_text = true;
}.

(** A name literal. *)
Notation "'key' k" := (Name k eq_refl) (at level 1, k at level 0).

(** Values as they come out of [JSON.parse], plus [undefined]; the members
    of an object are kept in textual order. *)
Inductive value : Type :=
  | VUndef
  | VNull
  | VBool (b : bool)
  | VNum (n : number)
  | VStr (s : string)
  | VArr (xs : list value)
  | VObj (fields : list (name * value)).

(** A number literal. *)
Notation "'num' n" := (VNum (Number n%Z eq_refl)) (at level 1, n at level 0).

(** What the engine throws.  [Error] is the only exception the application
    constructs itself ([new Error(..)] in [api.req]); the others are raised
    by the engine and by the browser. *)
Inductive exn : Type :=
  | Error (message : string)
  | FetchFailed               (* fetch() rejected: no response was obtained *)
  | JsonSyntaxError           (* Response.json() rejected *)
  | NullProperty (k : string) (* property [k] read on null or undefined *)
  | NotAConstructor.          (* [new] applied to undefined *)

(** Completion of an evaluation: a value or a throw. *)
Inductive completion (A : Type) : Type :=
  | Return (a : A)
  | Throw (e : exn).
Arguments Return {A} a.
Arguments Throw {A} e.

Definition bind {A B} (c : completion A) (k : A -> completion B) : completion B :=
  match c with
  | Return a => k a
  | Throw e => Throw e
  end.

Definition is_throw {A} (c : completion A) : bool :=
  match c with Throw _ => true | Return _ => false end.

(** [ToBoolean]. *)
Definition truthy (v : value) : bool :=
  match v with
  | VUndef | VNull => false
  | VBool b => b
  | VNum n => negb (number_value n =? 0)%Z
  | VStr s => negb (String.eqb s "")
  | VArr _ | VObj _ => true
  end.

(** [a || b]. *)
Definition or_else (a b : value) : value := if truthy a then a else b.

(** [Number::toString] on the numbers of the model: the decimal digits,
    with a minus sign for a negative number. *)
Definition number_to_string (n : number) : string :=
  NilZero.string_of_int (Z.to_int (number_value n)).

(** [ToString]; an array prints its elements separated by commas, with
    [null] and [undefined] elements printed as the empty string, and an
    object (none has a [toString] of its own) prints as
    [Object.prototype.toString] has it. *)
Fixpoint to_string (v : value) : string :=
  match v with
  | VUndef => "undefined"
  | VNull => "null"
  | VBool true => "true"
  | VBool false => "false"
  | VNum n => number_to_string n
  | VStr s => s
  | VArr xs =>
      (fix join (l : list value) : string :=
         match l with
         | [] => ""
         | x :: rest =>
             let sx := match x with
                       | VUndef | VNull => ""
                       | _ => to_string x
                       end in
             match rest with
             | [] => sx
             | _ :: _ => sx +:+ "," +:+ join rest
             end
         end) xs
  | VObj _ => "[object Object]"
  end.

(** The member of an object literal with a given name; when a name is
    repeated the last occurrence wins, as in [JSON.parse]. *)
Fixpoint field (k : string) (fs : list (name * value)) : option value :=
  match fs with
  | [] => None
  | (k', v) :: rest =>
      match field k rest with
      | Some v' => Some v'
      | None => if String.eqb k (name_text k') then Some v else None
      end
  end.

(** [v.k] for the property names the application reads ([detail],
    [active], [token], ...): none of them is defined on a built-in
    prototype, so only objects can have them. *)
Definition get (v : value) (k : string) : completion value :=
  match v with
  | VUndef | VNull => Throw (NullProperty k)
  | VObj fs => Return (default VUndef (field k fs))
  | VBool _ | VNum _ | VStr _ | VArr _ => Return VUndef
  end.

(** [s.includes(needle)]. *)
Fixpoint includes (needle s : string) : bool :=
  String.prefix needle s ||
  match s with
  | EmptyString => false
  | String _ s' => includes needle s'
  end.

(** [s.startsWith(p)]. *)
Definition starts_with (p s : string) : bool := String.prefix p s.

End Js.
Export Js.

(** ** RequestGateway: the [api] object of App.jsx *)

Module Api.

(** A [Response] as far as [api.req] reads it: the status and what
    [r.json()] settles to ([None]: the body is not JSON, the promise
    rejects). *)
Record response : Type := Response {
  status : Z;
  json_body : option value;
}.

(** [r.ok]. *)
Definition ok (r : response) : bool :=
  ((200 <=? status r) && (status r <=? 299))%Z.

(** [r.json()]. *)
Definition json (r : response) : completion value :=
  match json_body r with
  | Some v => Return v
  | None => Throw JsonSyntaxError
  end.

(** How [fetch] settles: it rejects when no response could be obtained,
    and fulfils with the response otherwise, whatever its status. *)
Inductive fetch_outcome : Type :=
  | NetFail
  | Resp (r : response).

(** The [body] option of a request. *)
Inductive body : Type :=
  | NoBody
  | JsonText (v : value)                       (* JSON.stringify(v) *)
  | FormData (entries : list (string * string)).

Definition is_form_data (b : body) : bool :=
  match b with FormData _ => true | _ => false end.

(** The second argument of [api.req]. *)
Record options : Type := Options {
  opt_method : string;
  opt_headers : option (gmap string string);
  opt_body : body;
}.

(** What is handed to [fetch]. *)
Record request : Type := Request {
  url : string;
  method : string;
  headers : gmap string string;
  req_body : body;
}.

(** The argument [b] of [api.post] and [api.put]. *)
Inductive payload : Type :=
  | PForm (entries : list (string * string))
  | PValue (v : value).

(** [JSON.stringify(v)] as a request body; [JSON.stringify(undefined)] is
    [undefined], that is no body. *)
Definition stringify (v : value) : body :=
  match v with
  | VUndef => NoBody
  | _ => JsonText v
  end.

(** The state [api] works on: its own [token] field, [localStorage], and
    two history variables, the number of [window.location.reload()] calls
    and the requests handed to [fetch] so far (oldest first). *)
Record state : Type := State {
  token : value;
  localStorage : gmap string string;
  reloads : nat;
  sent : list request;
}.

Definition with_token (t : value) (st : state) : state :=
  State t (localStorage st) (reloads st) (sent st).
Definition with_storage (ls : gmap string string) (st : state) : state :=
  State (token st) ls (reloads st) (sent st).

(** [localStorage.getItem(k)]. *)
Definition getItem (k : string) (ls : gmap string string) : value :=
  match ls !! k with
  | Some s => VStr s
  | None => VNull
  end.

(** Module initialisation on a page load: [token:
    localStorage.getItem("ns_token")]. *)
Definition page_load (ls : gmap string string) : state :=
  State (getItem "ns_token" ls) ls 0 [].

(** [useState(!!api.token)] in [App]: whether the freshly loaded page
    shows the application rather than [AuthScreen]. *)
Definition authed_on_load (st : state) : bool := truthy (token st).

(** [setToken(t) { this.token = t; localStorage.setItem("ns_token", t); }] *)
Definition setToken (t : value) (st : state) : state :=
  with_storage (<["ns_token" := to_string t]> (localStorage st)) (with_token t st).

(** [clear() { this.token = null; localStorage.removeItem("ns_token"); }] *)
Definition clear (st : state) : state :=
  with_storage (delete "ns_token" (localStorage st)) (with_token VNull st).

(** [window.location.reload()]: the navigation is requested and the call
    returns; the script goes on. *)
Definition reload (st : state) : state :=
  State (token st) (localStorage st) (S (reloads st)) (sent st).

Section Gateway.

(** [import.meta.env.VITE_API_URL], fixed at build time. *)
Variable VITE_API_URL : option string.

(** [const API = (import.meta.env.VITE_API_URL || "http://localhost:8000") + "/api"] *)
Definition API : string :=
  to_string (or_else (from_option VStr VUndef VITE_API_URL)
                     (VStr "http://localhost:8000")) +:+ "/api".

(** Lines 75-78 of [req]: build the headers and call [fetch]. *)
Definition req_headers (opts : options) (st : state) : gmap string string :=
  let h := default ∅ (opt_headers opts) in
  let h := if truthy (token st)
           then <["Authorization" := "Bearer " +:+ to_string (token st)]> h
           else h in
  if negb (is_form_data (opt_body opts))
  then <["Content-Type" := "application/json"]> h
  else h.

Definition req_request (path : string) (opts : options) (st : state) : request :=
  Request (API +:+ path) (opt_method opts) (req_headers opts st) (opt_body opts).

Definition req_call (path : string) (opts : options) (st : state) : state :=
  State (token st) (localStorage st) (reloads st)
        (sent st ++ [req_request path opts st]).

(** Line 79: [if (r.status === 401) { this.clear(); window.location.reload(); }] *)
Definition req_line79 (r : response) (st : state) : state :=
  if (status r =? 401)%Z then reload (clear st) else st.

(** The operand of [throw] on line 80:
    [new Error((await r.json().catch(() => ({}))).detail || "Failed")];
    reading [detail] throws when the body is the JSON value [null]. *)
Definition req_error (r : response) : exn :=
  let decoded := match json r with
                 | Return v => v
                 | Throw _ => VObj []
                 end in
  match get decoded "detail" with
  | Return d => Error (to_string (or_else d (VStr "Failed")))
  | Throw e => e
  end.

(** Lines 80-81: [if (!r.ok) throw ..; return r.json();] *)
Definition req_line80 (r : response) : completion value :=
  if negb (ok r) then Throw (req_error r) else json r.

(** The continuation of [req] after [await fetch(..)]: how the call
    completes, and what it does to the state on the way. *)
Definition req_result (out : fetch_outcome) : completion value :=
  match out with
  | NetFail => Throw FetchFailed
  | Resp r => req_line80 r
  end.

Definition req_resume (out : fetch_outcome) (st : state) : completion value * state :=
  (req_result out,
   match out with
   | NetFail => st
   | Resp r => req_line79 r st
   end).

(** The four wrappers. *)
Inductive call : Type :=
  | Get (p : string)
  | Post (p : string) (b : payload)
  | Put (p : string) (b : value)
  | Del (p : string).

Definition call_path (c : call) : string :=
  match c with Get p | Post p _ | Put p _ | Del p => p end.

Definition call_options (c : call) : options :=
  match c with
  | Get _ => Options "GET" None NoBody
  | Post _ (PForm fd) => Options "POST" None (FormData fd)
  | Post _ (PValue v) => Options "POST" None (stringify v)
  | Put _ v => Options "PUT" None (stringify v)
  | Del _ => Options "DELETE" None NoBody
  end.

Definition issue (c : call) (st : state) : state :=
  req_call (call_path c) (call_options c) st.

Definition issued (c : call) (st : state) : request :=
  req_request (call_path c) (call_options c) st.

(** *** Sequences of gateway operations

    Everything that touches [api]: a wrapper is called, a pending [fetch]
    settles and [req] resumes, a login stores a token ([AuthScreen]), a
    logout clears it ([ProfileScreen]), or the requested reload takes
    place and the module is initialised again from [localStorage]. *)
Inductive op : Type :=
  | OCall (c : call)
  | OSettle (out : fetch_outcome)
  | OSetToken (t : value)
  | OLogout
  | OPageLoad.

Definition step (o : op) (st : state) : state :=
  match o with
  | OCall c => issue c st
  | OSettle out => snd (req_resume out st)
  | OSetToken t => setToken t st
  | OLogout => clear st
  | OPageLoad =>
      State (getItem "ns_token" (localStorage st)) (localStorage st)
            (reloads st) (sent st)
  end.

Definition run (ops : list op) (st : state) : state :=
  fold_left (fun s o => step o s) ops st.

Definition is_set_token (o : op) : bool :=
  match o with OSetToken _ => true | _ => false end.

End Gateway.

(** The credential is absent: [api.token] is falsy and nothing is stored
    under [ns_token]. *)
Definition signed_out (st : state) : Prop :=
  truthy (token st) = false /\ localStorage st !! "ns_token" = None.

(** [e.message]; the texts of the engine's own exceptions are the
    engine's. *)
Definition message (engine_message : exn -> string) (e : exn) : string :=
  match e with
  | Error m => m
  | _ => engine_message e
  end.

End Api.

(** ** SubscriptionGate: [ScannerScreen] and [PaywallScreen] of App.jsx *)

Module Gate.
Import Api.

(** A [File] picked by the user, as far as the code reads it. *)
Record picked_file : Type := PickedFile {
  file_type : string;
  file_name : string;
}.

(** The [useState] cells of [ScannerScreen]. *)
Record scanner_state : Type := Scanner {
  image : option string;
  file : option picked_file;
  mealType : nat;
  result : value;
  loading : bool;
  error : value;
  showPaywall : bool;
  subChecked : bool;
}.

Definition scanner_mounted : scanner_state :=
  Scanner None None 1 VNull false VNull false false.

Definition setImage (x : option string) (s : scanner_state) : scanner_state :=
  Scanner x (file s) (mealType s) (result s) (loading s) (error s)
          (showPaywall s) (subChecked s).
Definition setFile (x : option picked_file) (s : scanner_state) : scanner_state :=
  Scanner (image s) x (mealType s) (result s) (loading s) (error s)
          (showPaywall s) (subChecked s).
Definition setMealType (x : nat) (s : scanner_state) : scanner_state :=
  Scanner (image s) (file s) x (result s) (loading s) (error s)
          (showPaywall s) (subChecked s).
Definition setResult (x : value) (s : scanner_state) : scanner_state :=
  Scanner (image s) (file s) (mealType s) x (loading s) (error s)
          (showPaywall s) (subChecked s).
Definition setLoading (x : bool) (s : scanner_state) : scanner_state :=
  Scanner (image s) (file s) (mealType s) (result s) x (error s)
          (showPaywall s) (subChecked s).
Definition setError (x : value) (s : scanner_state) : scanner_state :=
  Scanner (image s) (file s) (mealType s) (result s) (loading s) x
          (showPaywall s) (subChecked s).
Definition setShowPaywall (x : bool) (s : scanner_state) : scanner_state :=
  Scanner (image s) (file s) (mealType s) (result s) (loading s) (error s)
          x (subChecked s).
Definition setSubChecked (x : bool) (s : scanner_state) : scanner_state :=
  Scanner (image s) (file s) (mealType s) (result s) (loading s) (error s)
          (showPaywall s) x.

(** What [ScannerScreen] returns: the two early returns of lines 475 and
    477, or the scanner proper. *)
Inductive view : Type :=
  | LoadingView
  | PaywallView
  | ScannerView.

Definition render (s : scanner_state) : view :=
  if negb (subChecked s) then LoadingView
  else if showPaywall s then PaywallView
  else ScannerView.

(** The [useState] cells of [PaywallScreen] ([pay_error] is its [error]). *)
Record paywall_state : Type := Paywall {
  subInfo : value;
  paying : bool;
  pay_error : value;
}.

Definition paywall_mounted : paywall_state := Paywall VNull false VNull.

Definition setSubInfo (x : value) (p : paywall_state) : paywall_state :=
  Paywall x (paying p) (pay_error p).
Definition setPaying (x : bool) (p : paywall_state) : paywall_state :=
  Paywall (subInfo p) x (pay_error p).
Definition setPayError (x : value) (p : paywall_state) : paywall_state :=
  Paywall (subInfo p) (paying p) x.

(** Line 417: [{error && <InlineNotification .. subtitle={error} />}], the
    notification that [PaywallScreen] renders, if any. *)
Definition notification (p : paywall_state) : option value :=
  if truthy (pay_error p) then Some (pay_error p) else None.

(** The code that waits for a request to settle.  The continuations of
    [PaywallScreen] close over the state setters of one mounted instance,
    identified by its number. *)
Inductive cont : Type :=
  | KAdvisory                  (* lines 441-444 *)
  | KScan                      (* line 462 *)
  | KPaywallStatus (g : nat)   (* line 307 *)
  | KCreateOrder (g : nat)     (* line 313 *)
  | KVerify (g : nat).         (* line 326 *)

(** History: a wrapper was called, or the continuation waiting for
    request number [id] was resumed with the outcome of that request. *)
Inductive action : Type :=
  | Issued (c : call)
  | Resumed (id : nat) (k : cont) (out : fetch_outcome).

(** The page while [ScannerScreen] is mounted.  A pending request is
    identified by its position in [sent]; [paywall] is the mounted
    [PaywallScreen] instance with its number, [mounts] counts the instances
    created so far, [widgets] lists the checkout widgets that were opened,
    each with the instance whose setters its callbacks close over, and
    [razorpay] tells whether the checkout script has defined
    [window.Razorpay].  Effects run once per mount, as in a production
    build. *)
Record sys : Type := Sys {
  api : Api.state;
  pending : gmap nat cont;
  scanner : scanner_state;
  paywall : option (nat * paywall_state);
  mounts : nat;
  widgets : list nat;
  razorpay : bool;
  log : list action;
}.

Definition on_scanner (f : scanner_state -> scanner_state) (s : sys) : sys :=
  Sys (api s) (pending s) (f (scanner s)) (paywall s) (mounts s) (widgets s)
      (razorpay s) (log s).

(** A state setter of the [PaywallScreen] instance [g]: no effect once
    that instance is unmounted. *)
Definition on_paywall (g : nat) (f : paywall_state -> paywall_state) (s : sys) : sys :=
  match paywall s with
  | Some (g', p) =>
      if Nat.eqb g g'
      then Sys (api s) (pending s) (scanner s) (Some (g', f p)) (mounts s)
               (widgets s) (razorpay s) (log s)
      else s
  | None => s
  end.

Definition open_widget (g : nat) (s : sys) : sys :=
  Sys (api s) (pending s) (scanner s) (paywall s) (mounts s) (widgets s ++ [g])
      (razorpay s) (log s).

Definition script_loaded (s : sys) : sys :=
  Sys (api s) (pending s) (scanner s) (paywall s) (mounts s) (widgets s)
      true (log s).

Section Screens.

Variable VITE_API_URL : option string.
Variable engine_message : exn -> string.

(** Calling one of the wrappers and awaiting it with continuation [k]. *)
Definition await (c : call) (k : cont) (s : sys) : sys :=
  Sys (issue VITE_API_URL c (api s))
      (<[length (sent (api s)) := k]> (pending s))
      (scanner s) (paywall s) (mounts s) (widgets s) (razorpay s)
      (log s ++ [Issued c]).

(** The awaited request settles: [api.req] resumes. *)
Definition settle (id : nat) (k : cont) (out : fetch_outcome) (s : sys)
  : completion value * sys :=
  (fst (req_resume out (api s)),
   Sys (snd (req_resume out (api s))) (delete id (pending s))
       (scanner s) (paywall s) (mounts s) (widgets s) (razorpay s)
       (log s ++ [Resumed id k out])).

(** React commits the render: [PaywallScreen] is mounted when
    [ScannerScreen] returns it (its effect of line 306 issues a status
    query) and unmounted when it no longer does. *)
Definition commit (s : sys) : sys :=
  match render (scanner s), paywall s with
  | PaywallView, None =>
      await (Get "/subscription/status") (KPaywallStatus (mounts s))
        (Sys (api s) (pending s) (scanner s)
             (Some (mounts s, paywall_mounted)) (S (mounts s))
             (widgets s) (razorpay s) (log s))
  | PaywallView, Some _ => s
  | _, Some _ =>
      Sys (api s) (pending s) (scanner s) None (mounts s) (widgets s)
          (razorpay s) (log s)
  | _, None => s
  end.

(** [ScannerScreen] is mounted: initial state, and the effect of line 440
    issues the advisory status query. *)
Definition mount (st : Api.state) (rzp : bool) : sys :=
  await (Get "/subscription/status") KAdvisory
    (Sys st ∅ scanner_mounted None 0 [] rzp []).

(** Lines 441-444. *)
Definition advisory_settled (c : completion value) (s : scanner_state) : scanner_state :=
  match bind c (fun v => get v "active") with
  | Return a =>
      setSubChecked true (if negb (truthy a) then setShowPaywall true s else s)
  | Throw _ => setSubChecked true s
  end.

(** Lines 462-470. *)
Definition scan_settled (c : completion value) (s : scanner_state) : scanner_state :=
  setLoading false
    match c with
    | Return v => setResult v s
    | Throw e =>
        if String.eqb (message engine_message e) "subscription_required"
        then setShowPaywall true s
        else setError (VStr (message engine_message e)) s
    end.

(** Line 437. *)
Definition mealTypes : list string := ["breakfast"; "lunch"; "dinner"; "snack"].

(** Lines 455-462, up to the [await]. *)
Definition scan (s : sys) : sys :=
  match file (scanner s) with
  | None => s
  | Some f =>
      let fd := [("photo", file_name f);
                 ("meal_type",
                  to_string (from_option VStr VUndef
                               (mealTypes !! mealType (scanner s))))] in
      await (Post "/meals/analyze" (PForm fd)) KScan
        (on_scanner (fun sc => setError VNull (setLoading true sc)) s)
  end.

(** Lines 447-453; the [FileReader] callback is the event [ReaderLoad]. *)
Definition pick (f : option picked_file) (s : scanner_state) : scanner_state :=
  match f with
  | Some f' =>
      if starts_with "image/" (file_type f')
      then setFile (Some f') (setResult VNull (setError VNull s))
      else s
  | None => s
  end.

(** Line 473. *)
Definition reset (s : scanner_state) : scanner_state :=
  setError VNull (setResult VNull (setFile None (setImage None s))).

(** Lines 310-313, up to the [await]. *)
Definition handlePayment (g : nat) (s : sys) : sys :=
  await (Post "/subscription/create-order" (PValue VUndef)) (KCreateOrder g)
    (on_paywall g (fun p => setPayError VNull (setPaying true p)) s).

(** Reading several properties of one value in turn. *)
Fixpoint get_all (v : value) (ks : list name) : completion (list (name * value)) :=
  match ks with
  | [] => Return []
  | k :: ks' =>
      bind (get v (name_text k)) (fun x =>
      bind (get_all v ks') (fun rest => Return ((k, x) :: rest)))
  end.

(** Lines 313-350 after the [await]: the options are read off the order,
    the widget is constructed and opened; any throw ends in the [catch] of
    line 347. *)
Definition order_settled (g : nat) (c : completion value) (s : sys) : sys :=
  let opened :=
    bind c (fun order =>
    bind (get_all order [key "key_id"; key "amount"; key "currency"; key "name";
                         key "description"; key "order_id"; key "prefill"]) (fun _ =>
    if razorpay s then Return tt else Throw NotAConstructor)) in
  match opened with
  | Return _ => open_widget g s
  | Throw e =>
      on_paywall g (fun p => setPaying false
                      (setPayError (VStr (message engine_message e)) p)) s
  end.

Definition verification_failed : string :=
  "Payment verification failed. Contact support.".

(** Lines 324-330: the widget's success callback, up to the [await]. *)
Definition handler (g : nat) (response : value) (s : sys) : sys :=
  match get_all response [key "razorpay_order_id"; key "razorpay_payment_id";
                          key "razorpay_signature"] with
  | Return fields =>
      await (Post "/subscription/verify" (PValue (VObj fields))) (KVerify g) s
  | Throw _ => on_paywall g (setPayError (VStr verification_failed)) s
  end.

(** Lines 331-334: [onPaid()] is [() => setShowPaywall(false)] (line 477). *)
Definition verify_settled (g : nat) (c : completion value) (s : sys) : sys :=
  match c with
  | Return _ => on_scanner (setShowPaywall false) s
  | Throw _ => on_paywall g (setPayError (VStr verification_failed)) s
  end.

(** Lines 342-345: [resp.error?.description || "Payment failed"]. *)
Definition payment_failed (g : nat) (resp : value) (s : sys) : sys :=
  let description :=
    bind (get resp "error") (fun e =>
      match e with
      | VUndef | VNull => Return VUndef
      | _ => get e "description"
      end) in
  match description with
  | Return d =>
      on_paywall g (fun p => setPaying false
                      (setPayError (or_else d (VStr "Payment failed")) p)) s
  | Throw _ => s
  end.

(** Line 307: [.then(setSubInfo).catch(() => {})]. *)
Definition status_settled (g : nat) (c : completion value) (s : sys) : sys :=
  match c with
  | Return v => on_paywall g (setSubInfo v) s
  | Throw _ => s
  end.

Definition resume (k : cont) (c : completion value) (s : sys) : sys :=
  match k with
  | KAdvisory => on_scanner (advisory_settled c) s
  | KScan => on_scanner (scan_settled c) s
  | KPaywallStatus g => status_settled g c s
  | KCreateOrder g => order_settled g c s
  | KVerify g => verify_settled g c s
  end.

(** What can happen to the page: a pending request settles, the user acts
    on an element that is rendered, or the environment calls back. *)
Inductive event : Type :=
  | Settle (id : nat) (out : fetch_outcome)
  | Pick (f : option picked_file)
  | ReaderLoad (dataurl : string)
  | SwitchMealType (index : nat)
  | ClickScan
  | ClickReset
  | ClickPay
  | ScriptLoaded
  | WidgetSuccess (w : nat) (response : value)
  | WidgetFailed (w : nat) (resp : value)
  | WidgetDismiss (w : nat).

Definition scanner_shown (s : sys) : bool :=
  match render (scanner s) with ScannerView => true | _ => false end.

(** The event handler proper; [None] when the event cannot occur (the
    element is not rendered, the request is not pending, the widget was
    never opened). *)
Definition handle (ev : event) (s : sys) : option sys :=
  let sc := scanner s in
  match ev with
  | Settle id out =>
      k ← pending s !! id;
      let '(c, s') := settle id k out s in
      Some (resume k c s')
  | Pick f =>
      if scanner_shown s && negb (bool_decide (is_Some (image sc)))
      then Some (on_scanner (pick f) s) else None
  | ReaderLoad u => Some (on_scanner (setImage (Some u)) s)
  | SwitchMealType i =>
      if scanner_shown s
         && (negb (bool_decide (is_Some (image sc))) || negb (truthy (result sc)))
      then Some (on_scanner (setMealType i) s) else None
  | ClickScan =>
      if scanner_shown s && bool_decide (is_Some (image sc))
         && negb (truthy (result sc)) && negb (loading sc)
      then Some (scan s) else None
  | ClickReset =>
      if scanner_shown s
         && (bool_decide (is_Some (image sc)) || truthy (result sc))
      then Some (on_scanner reset s) else None
  | ClickPay =>
      match render sc, paywall s with
      | PaywallView, Some (g, p) =>
          if negb (paying p) then Some (handlePayment g s) else None
      | _, _ => None
      end
  | ScriptLoaded => Some (script_loaded s)
  | WidgetSuccess w response => g ← widgets s !! w; Some (handler g response s)
  | WidgetFailed w resp => g ← widgets s !! w; Some (payment_failed g resp s)
  | WidgetDismiss w => g ← widgets s !! w; Some (on_paywall g (setPaying false) s)
  end.

Definition step (ev : event) (s : sys) : option sys :=
  commit <$> handle ev s.

Fixpoint run (evs : list event) (s : sys) : option sys :=
  match evs with
  | [] => Some s
  | ev :: evs' => s' ← step ev s; run evs' s'
  end.

(** The response of a privileged call that signals "subscription
    required": a non-success status whose body carries that [detail]. *)
Definition subscription_required (r : response) : bool :=
  negb (ok r) &&
  match json_body r with
  | Some (VObj fs) =>
      match field "detail" fs with
      | Some (VStr d) => String.eqb d "subscription_required"
      | _ => false
      end
  | _ => false
  end.

(** Server-side verification succeeded: the awaited [api.post] returned. *)
Definition verified (out : fetch_outcome) : bool := negb (is_throw (req_result out)).

(** *** Derived notions used to state the properties *)

(** A verified payment in the log. *)
Definition paid (a : action) : bool :=
  match a with
  | Resumed _ (KVerify _) out => verified out
  | _ => false
  end.

(** After a commit the paywall screen is mounted exactly when
    [ScannerScreen] returns it. *)
Definition committed (s : sys) : Prop :=
  render (scanner s) = PaywallView <-> is_Some (paywall s).

(** The calls made by a commit and by an event handler. *)
Definition commit_calls (s : sys) : list call :=
  match render (scanner s), paywall s with
  | PaywallView, None => [Get "/subscription/status"]
  | _, _ => []
  end.

Definition handle_calls (ev : event) (s : sys) : list call :=
  match ev with
  | ClickScan =>
      match file (scanner s) with
      | Some f =>
          [Post "/meals/analyze"
             (PForm [("photo", file_name f);
                     ("meal_type",
                      to_string (from_option VStr VUndef
                                   (mealTypes !! mealType (scanner s))))])]
      | None => []
      end
  | ClickPay => [Post "/subscription/create-order" (PValue VUndef)]
  | WidgetSuccess _ response =>
      match get_all response [key "razorpay_order_id"; key "razorpay_payment_id";
                              key "razorpay_signature"] with
      | Return fields => [Post "/subscription/verify" (PValue (VObj fields))]
      | Throw _ => []
      end
  | _ => []
  end.

Definition resumed (ev : event) (s : sys) : list action :=
  match ev with
  | Settle id out =>
      match pending s !! id with
      | Some k => [Resumed id k out]
      | None => []
      end
  | _ => []
  end.

(** The endpoint a continuation waits on. *)
Definition endpoint (k : cont) : string * string :=
  match k with
  | KAdvisory | KPaywallStatus _ => ("GET", "/subscription/status")
  | KScan => ("POST", "/meals/analyze")
  | KCreateOrder _ => ("POST", "/subscription/create-order")
  | KVerify _ => ("POST", "/subscription/verify")
  end.

Definition calls_endpoint (c : call) (k : cont) : Prop :=
  opt_method (call_options c) = fst (endpoint k)
  /\ call_path c = snd (endpoint k).

(** Three shapes: nothing happens to the network state, one call is
    awaited, or one pending request settles. *)
Inductive net_change (s s' : sys) : Prop :=
  | net_same :
      api s' = api s -> pending s' = pending s -> net_change s s'
  | net_await (c : call) (k : cont) :
      calls_endpoint c k ->
      api s' = issue VITE_API_URL c (api s) ->
      pending s' = <[length (sent (api s)) := k]> (pending s) ->
      net_change s s'
  | net_settle (id : nat) (out : fetch_outcome) :
      api s' = snd (req_resume out (api s)) ->
      pending s' = delete id (pending s) ->
      net_change s s'.

(** Every pending request is in [sent], under its number, and goes to the
    endpoint its continuation waits on. *)
Definition linked (s : sys) : Prop :=
  forall id k, pending s !! id = Some k ->
    exists rq, sent (api s) !! id = Some rq
               /\ method rq = fst (endpoint k)
               /\ url rq = API VITE_API_URL +:+ snd (endpoint k).

(** The log [h] records a verified payment: a continuation of line 326
    was resumed with a success, and the request it waited on is the POST to
    [/subscription/verify] found under its number in [sent]. *)
Definition verified_payment (s' : sys) (h : list action) : Prop :=
  exists id g out rq,
    In (Resumed id (KVerify g) out) h /\ verified out = true
    /\ sent (api s') !! id = Some rq
    /\ method rq = "POST" /\ url rq = API VITE_API_URL +:+ "/subscription/verify".

End Screens.

(** The log [h] records that the advisory status check of line 441 has
    settled. *)
Definition advisory_settled_in (h : list action) : Prop :=
  exists id out, In (Resumed id KAdvisory out) h.

(** At most one analyze call is pending, and [loading] is set while it
    is. *)
Definition one_scan (s : sys) : Prop :=
  (forall id1 id2,
      pending s !! id1 = Some KScan -> pending s !! id2 = Some KScan ->
      id1 = id2)
  /\ (forall id, pending s !! id = Some KScan -> loading (scanner s) = true).

End Gate.

(** ** The dashboard reads: [DashboardScreen.load] of App.jsx *)

Module Dashboard.
Import Api.

(** The [useState] cells that [load] writes ([view], [deleting] and
    [deleteLoading] are not touched by it). *)
Record dashboard_state : Type := DashboardState {
  today : value;
  history : value;
  stats : value;
  loading : bool;
}.

Definition dashboard_mounted : dashboard_state :=
  DashboardState VNull VNull VNull true.

(** One [Promise.all([..])]: the values collected so far, and how the
    joint promise has settled, if it has. *)
Record join : Type := Join {
  slots : list (option value);
  joined : option (completion (list value));
}.

(** An element promise settles.  A fulfilment fills its slot and fulfils
    the joint promise once every slot is filled; a rejection rejects the
    joint promise; a promise that has settled stays as it is. *)
Definition element_settled (k : nat) (c : completion value) (j : join) : join :=
  match c with
  | Return v =>
      let sl := <[k := Some v]> (slots j) in
      Join sl match joined j with
              | Some o => Some o
              | None => Return <$> mapM id sl
              end
  | Throw e =>
      Join (slots j) match joined j with
                     | Some o => Some o
                     | None => Some (Throw e)
                     end
  end.

(** Lines 729-730, run when the joint promise settles:
    [.then(([t, h, s]) => { setToday(t); setHistory(h); setStats(s); })
     .finally(() => setLoading(false))]. *)
Definition load_settled (o : completion (list value)) (d : dashboard_state)
  : dashboard_state :=
  match o with
  | Return vs =>
      DashboardState (default VUndef (vs !! 0%nat)) (default VUndef (vs !! 1%nat))
                     (default VUndef (vs !! 2%nat)) false
  | Throw _ => DashboardState (today d) (history d) (stats d) false
  end.

(** The page while [DashboardScreen] is mounted; a pending request
    belongs to a slot of one of the joins. *)
Record sys : Type := Sys {
  api : Api.state;
  pending : gmap nat (nat * nat);
  joins : list join;
  dash : dashboard_state;
}.

Section Screen.

Variable VITE_API_URL : option string.

Definition dashboard_reads : list call :=
  [Get "/dashboard/today"; Get "/dashboard/history?days=7"; Get "/dashboard/stats"].

(** Lines 724-728: the three wrappers are called one after the other,
    each running up to its [fetch]; the promises go to [Promise.all]. *)
Definition load (s : sys) : sys :=
  let n := length (sent (api s)) in
  let j := length (joins s) in
  Sys (fold_left (fun st c => issue VITE_API_URL c st) dashboard_reads (api s))
      (<[(n + 2)%nat := (j, 2%nat)]>
         (<[(n + 1)%nat := (j, 1%nat)]> (<[n := (j, 0%nat)]> (pending s))))
      (joins s ++ [Join [None; None; None] None])
      (dash s).

(** [useEffect(() => { load(); }, [])]. *)
Definition mount (st : Api.state) : sys :=
  load (Sys st ∅ [] dashboard_mounted).

(** A pending read settles: [api.req] resumes, its promise settles, and
    if that settles the joint promise the callbacks of [load] run. *)
Definition settle (id : nat) (out : fetch_outcome) (s : sys) : option sys :=
  '(j, k) ← pending s !! id;
  jn ← joins s !! j;
  let jn' := element_settled k (req_result out) jn in
  let d' := match joined jn, joined jn' with
            | None, Some o => load_settled o (dash s)
            | _, _ => dash s
            end in
  Some (Sys (snd (req_resume out (api s))) (delete id (pending s))
            (<[j := jn']> (joins s)) d').

Fixpoint run (evs : list (nat * fetch_outcome)) (s : sys) : option sys :=
  match evs with
  | [] => Some s
  | (id, out) :: evs' => s' ← settle id out s; run evs' s'
  end.

End Screen.

(** What [DashboardScreen] shows of the three reads. *)
Definition shown (d : dashboard_state) : value * value * value :=
  (today d, history d, stats d).

(** *** Derived notions used to state the properties *)

(** The state of one [load] between its call and the end of its three
    reads: [j] is its join and [d] the cells as they were at the call. *)
Definition load_invariant (j : nat) (d : dashboard_state) (s : sys) : Prop :=
  exists jn,
    joins s !! j = Some jn
    /\ (forall id jk, pending s !! id = Some jk -> jk.1 = j)
    /\ match joined jn with
       | None =>
           dash s = d
           /\ (forall id k, pending s !! id = Some (j, k) ->
                 slots jn !! k = Some None)
           /\ (forall id1 id2 k,
                 pending s !! id1 = Some (j, k) ->
                 pending s !! id2 = Some (j, k) -> id1 = id2)
       | Some (Throw _) =>
           shown (dash s) = shown d /\ loading (dash s) = false
       | Some (Return _) => pending s = ∅
       end.

Definition join_rejected (j : nat) (s : sys) : Prop :=
  exists jn e, joins s !! j = Some jn /\ joined jn = Some (Throw e).

(** The reads of earlier loads that are still pending when a load starts:
    each was handed to [fetch] before and belongs to a joint promise that
    has settled. *)
Definition stragglers (s : sys) : Prop :=
  forall id j k, pending s !! id = Some (j, k) ->
    (id < length (sent (api s)))%nat
    /\ exists jn, joins s !! j = Some jn /\ is_Some (joined jn).

Definition stragglersb (s : sys) : bool :=
  forallb (fun e : nat * (nat * nat) =>
             (e.1 <? length (sent (api s)))%nat
             && match joins s !! e.2.1 with
                | Some jn => bool_decide (is_Some (joined jn))
                | None => false
                end)
          (map_to_list (pending s)).

(** [load_invariant] in the presence of such reads; the reads of the load
    itself are those numbered from [n]. *)
Definition join_invariant (n j : nat) (d : dashboard_state) (s : sys) : Prop :=
  exists jn,
    joins s !! j = Some jn
    /\ (forall id j' k, pending s !! id = Some (j', k) ->
          if decide (j' = j) then (n <= id)%nat
          else (id < n)%nat
               /\ exists jn', joins s !! j' = Some jn' /\ is_Some (joined jn'))
    /\ match joined jn with
       | None =>
           dash s = d
           /\ (forall id k, pending s !! id = Some (j, k) ->
                 slots jn !! k = Some None)
           /\ (forall id1 id2 k,
                 pending s !! id1 = Some (j, k) ->
                 pending s !! id2 = Some (j, k) -> id1 = id2)
       | Some (Throw _) =>
           shown (dash s) = shown d /\ loading (dash s) = false
       | Some (Return _) => forall id k, pending s !! id <> Some (j, k)
       end.

End Dashboard.

(** ** OfflineCache: the service worker sw.js *)

Module Sw.

(** The install listener (lines 8-13) puts the responses for ["/"] and
    ["/index.html"] into the cache [CACHE_NAME]; what follows holds for
    every content of the caches, so the activate and fetch listeners
    come first; the install listener is [Install.install] below. *)
Definition CACHE_NAME : string := "nutriscan-v1".

(** The request of a fetch event, as far as the worker and the Cache API
    read it: the serialized URL (fragment included), the method, and the
    header list, by header name in lower case. *)
Record request : Type := Request {
  url : string;
  method : string;
  headers : gmap string string;
}.

(** A response: its status, its body, and the field names that its [Vary]
    header lists, in lower case (["*"] is one of them when the header
    holds a star). *)
Record response : Type := Response {
  status : Z;
  body : string;
  vary : list string;
}.

(** [resp.ok]. *)
Definition ok (r : response) : bool :=
  ((200 <=? status r) && (status r <=? 299))%Z.

(** How [fetch] settles in the worker. *)
Inductive fetch_outcome : Type :=
  | NetFail
  | Resp (r : response).

Definition is_get (rq : request) : bool := String.eqb (method rq) "GET".

(** Whether the scheme of a serialized URL is [http] or [https]. *)
Definition is_http (u : string) : bool :=
  starts_with "http://" u || starts_with "https://" u.

(** A URL without its fragment; the Cache API compares URLs with the
    fragment excluded. *)
Fixpoint strip_fragment (u : string) : string :=
  match u with
  | EmptyString => EmptyString
  | String c u' =>
      if Ascii.eqb c "#" then EmptyString else String c (strip_fragment u')
  end.

(** An entry of a cache: the request it was stored under and the
    response. *)
Record entry : Type := Entry {
  entry_request : request;
  entry_response : response;
}.

(** [CacheStorage]: the named caches in creation order, each a list of
    entries in insertion order. *)
Abbreviation cache_storage := (list (string * list entry)).

(** "Request matches cached item" of the Cache API, with the default
    options: a GET request, the same URL up to the fragment, and, for
    every field that the stored response's [Vary] names, the same header
    in both requests. *)
Definition matches (rq : request) (e : entry) : bool :=
  is_get rq
  && String.eqb (strip_fragment (url rq))
                (strip_fragment (url (entry_request e)))
  && forallb (fun f =>
                negb (String.eqb f "*")
                && bool_decide (headers rq !! f
                                = headers (entry_request e) !! f))
             (vary (entry_response e)).

(** [cache.match(rq)]: the response of the first entry that matches. *)
Definition query (rq : request) (c : list entry) : option response :=
  entry_response <$> List.find (matches rq) c.

(** Whether [cache.put(rq, r)] accepts the pair: it rejects a request
    whose scheme is not [http] or [https] or whose method is not GET, a
    response with status 206, and a response whose [Vary] holds a star. *)
Definition storable (rq : request) (r : response) : bool :=
  is_http (url rq) && is_get rq
  && negb (status r =? 206)%Z
  && negb (existsb (String.eqb "*") (vary r)).

(** [cache.put(rq, r)] on one cache: the entries that match the request
    are removed and the pair is appended. *)
Definition put (rq : request) (r : response) (c : list entry) : list entry :=
  if storable rq r
  then List.filter (fun e => negb (matches rq e)) c ++ [Entry rq r]
  else c.

Definition has_cache (name : string) (cs : cache_storage) : bool :=
  existsb (fun c => String.eqb (fst c) name) cs.

(** [caches.open(name)]: the cache is created when it does not exist. *)
Definition caches_open (name : string) (cs : cache_storage) : cache_storage :=
  if has_cache name cs then cs else cs ++ [(name, [])].

(** [cache.put(rq, r)] on the cache called [name]. *)
Fixpoint cache_put (name : string) (rq : request) (r : response)
  (cs : cache_storage) : cache_storage :=
  match cs with
  | [] => []
  | (n, c) :: rest =>
      if String.eqb n name
      then (n, put rq r c) :: rest
      else (n, c) :: cache_put name rq r rest
  end.

(** [cache.match(rq)] on the cache called [name]. *)
Fixpoint cache_match (name : string) (rq : request) (cs : cache_storage)
  : option response :=
  match cs with
  | [] => None
  | (n, c) :: rest =>
      if String.eqb n name then query rq c else cache_match name rq rest
  end.

(** [caches.match(rq)]: the first cache, in creation order, that has a
    matching entry. *)
Fixpoint caches_match (rq : request) (cs : cache_storage) : option response :=
  match cs with
  | [] => None
  | (_, c) :: rest =>
      match query rq c with
      | Some r => Some r
      | None => caches_match rq rest
      end
  end.

(** [caches.keys()] and [caches.delete(k)]. *)
Definition caches_keys (cs : cache_storage) : list string := map fst cs.
Definition caches_delete (k : string) (cs : cache_storage) : cache_storage :=
  List.filter (fun c => negb (String.eqb (fst c) k)) cs.

(** The activate listener, lines 16-23: every cache whose name is not
    [CACHE_NAME] is deleted. *)
Definition activate (cs : cache_storage) : cache_storage :=
  fold_left (fun acc k => caches_delete k acc)
            (List.filter (fun k => negb (String.eqb k CACHE_NAME)) (caches_keys cs))
            cs.

(** A cache write that has been started but is not awaited (line 36). *)
Record write : Type := Write {
  write_request : request;
  write_response : response;
}.

(** [caches.open(CACHE_NAME).then((cache) => cache.put(e.request, clone))]
    taking effect; when [put] rejects, nobody handles the rejection and
    the cache is as it was. *)
Definition complete (w : write) (cs : cache_storage) : cache_storage :=
  cache_put CACHE_NAME (write_request w) (write_response w)
            (caches_open CACHE_NAME cs).

(** What [respondWith] hands to the requester. *)
Inductive reply : Type :=
  | Respond (r : response)
  | NetworkError.

(** The fetch listener, lines 26-42.  [None]: the listener returns
    without [respondWith] and the browser performs the request itself.
    Otherwise the reply, and the cache write it started. *)
Definition on_fetch (rq : request) (net : fetch_outcome) (cs : cache_storage)
  : option (reply * list write) :=
  if includes "/api/" (url rq) then None
  else Some
    match net with
    | Resp r => (Respond r, if ok r then [Write rq r] else [])
    | NetFail =>
        (match caches_match rq cs with
         | Some r => Respond r
         | None => NetworkError
         end, [])
    end.

(** What the requesting page gets, and the cache storage once the writes
    that were started have taken effect. *)
Definition served (rq : request) (net : fetch_outcome) (cs : cache_storage)
  : reply * cache_storage :=
  match on_fetch rq net cs with
  | None =>
      (match net with Resp r => Respond r | NetFail => NetworkError end, cs)
  | Some (rp, ws) => (rp, fold_left (fun acc w => complete w acc) ws cs)
  end.

(** A cache that the activate listener keeps. *)
Definition is_current (c : string * list entry) : bool :=
  String.eqb (fst c) CACHE_NAME.

End Sw.

(** ** Sign-in: [AuthScreen.submit] and the shell [App] of App.jsx *)

Module Auth.
Import Api.

(** The [useState] cells of [AuthScreen] that [submit] reads and writes,
    with the form kept as the object it is, and [authed] of [App], which
    [onAuth] sets. *)
Record screen : Type := Screen {
  api : Api.state;
  authed : bool;
  mode : nat;
  loading : bool;
  error : string;
  form : list (name * value);
}.

Section Submit.

Variable VITE_API_URL : option string.
Variable engine_message : exn -> string.

(** The object [p] of lines 127-133: the form with four members parsed by
    [parseInt] and [parseFloat].  Their results are floating-point
    numbers; the object is taken as given. *)
Variable register_payload : list (name * value) -> value.

(** [form.k]. *)
Definition form_get (k : string) (f : list (name * value)) : value :=
  default VUndef (field k f).

(** Lines 123-134: the call that [submit] awaits. *)
Definition submit_request (s : screen) : call :=
  if Nat.eqb (mode s) 0
  then Post "/login"
            (PValue (VObj [(key "email", form_get "email" (form s));
                           (key "password", form_get "password" (form s))]))
  else Post "/register" (PValue (register_payload (form s))).

(** Lines 121-134, up to the [await]. *)
Definition submit_call (s : screen) : screen :=
  Screen (issue VITE_API_URL (submit_request s) (api s))
         (authed s) (mode s) true "" (form s).

(** Lines 125 and 135-138: [api.setToken(r.token); onAuth();], the
    [catch], and [setLoading(false)]. *)
Definition submit_resume (out : fetch_outcome) (s : screen) : screen :=
  let st := snd (req_resume out (api s)) in
  match bind (req_result out) (fun r => get r "token") with
  | Return t => Screen (setToken t st) true (mode s) false (error s) (form s)
  | Throw e =>
      Screen st (authed s) (mode s) false (message engine_message e) (form s)
  end.

End Submit.

End Auth.

Module Shell.
Import Api.

(** The cells of [App] for the install banner, over the state of [api]
    (whose [localStorage] is the page's), and the number of [handleInstall]
    calls that wait on [installPrompt.userChoice].  [installPrompt] tells
    whether the cell holds an event. *)
Record shell : Type := Shell_ {
  api : Api.state;
  installPrompt : bool;
  showInstall : bool;
  choosing : nat;
}.

(** Lines 1166-1173, the [beforeinstallprompt] listener. *)
Definition handler (s : shell) : shell :=
  Shell_ (api s) true
         (if negb (truthy (getItem "ns_install_dismissed" (localStorage (api s))))
          then true else showInstall s)
         (choosing s).

(** Lines 1188-1191. *)
Definition dismissInstall (s : shell) : shell :=
  Shell_ (with_storage (<["ns_install_dismissed" := "1"]> (localStorage (api s)))
                       (api s))
         (installPrompt s) false (choosing s).

(** Lines 1178-1181, up to the [await]: nothing without a stored event;
    otherwise the browser's prompt is shown. *)
Definition handleInstall_call (s : shell) : shell :=
  if negb (installPrompt s) then s
  else Shell_ (api s) (installPrompt s) (showInstall s) (S (choosing s)).

(** Lines 1181-1185, once the user has chosen. *)
Definition handleInstall_resume (outcome : string) (s : shell) : shell :=
  Shell_ (api s) false
         (if String.eqb outcome "accepted" then false else showInstall s)
         (Nat.pred (choosing s)).

(** What can happen to the shell: the browser offers the installation,
    the two buttons of the banner (there while [showInstall] holds), the
    user's answer to a prompt, and the operations of the gateway, of which
    a page load mounts [App] anew over the storage that was left. *)
Inductive event : Type :=
  | BeforeInstallPrompt
  | ClickInstall
  | UserChoice (outcome : string)
  | ClickDismiss
  | Gateway (o : op).

Section Page.

Variable VITE_API_URL : option string.

Definition step (ev : event) (s : shell) : option shell :=
  match ev with
  | BeforeInstallPrompt => Some (handler s)
  | ClickInstall =>
      if showInstall s then Some (handleInstall_call s) else None
  | UserChoice outcome =>
      if (0 <? choosing s)%nat then Some (handleInstall_resume outcome s)
      else None
  | ClickDismiss => if showInstall s then Some (dismissInstall s) else None
  | Gateway OPageLoad =>
      Some (Shell_ (Api.step VITE_API_URL OPageLoad (api s)) false false 0)
  | Gateway o =>
      Some (Shell_ (Api.step VITE_API_URL o (api s))
                   (installPrompt s) (showInstall s) (choosing s))
  end.

Fixpoint run (evs : list event) (s : shell) : option shell :=
  match evs with
  | [] => Some s
  | ev :: evs' => s' ← step ev s; run evs' s'
  end.

End Page.

End Shell.

(** ** [ProfileScreen] of App.jsx *)

Module Profile.
Import Api.

Record screen : Type := Screen {
  api : Api.state;
  profile : value;
  editing : bool;
  form : value;
  sub : value;
  alerts : list string;
}.

Inductive view : Type :=
  | LoadingView
  | ProfileView.

(** Line 1025. *)
Definition render (s : screen) : view :=
  if negb (truthy (profile s)) then LoadingView else ProfileView.

Section Screen.

Variable VITE_API_URL : option string.
Variable engine_message : exn -> string.

(** Lines 1015-1018: the two reads of the mount effect. *)
Definition mount (st : Api.state) : screen :=
  Screen (issue VITE_API_URL (Get "/subscription/status")
            (issue VITE_API_URL (Get "/profile") st))
         VNull false (VObj []) VNull [].

(** Line 1016: [.then(p => { setProfile(p); setForm(p); })], with no
    [catch]. *)
Definition profile_settled (out : fetch_outcome) (s : screen) : screen :=
  let st := snd (req_resume out (api s)) in
  match req_result out with
  | Return p => Screen st p (editing s) p (sub s) (alerts s)
  | Throw _ => Screen st (profile s) (editing s) (form s) (sub s) (alerts s)
  end.

(** Line 1017: [.then(setSub).catch(() => {})]. *)
Definition sub_settled (out : fetch_outcome) (s : screen) : screen :=
  let st := snd (req_resume out (api s)) in
  match req_result out with
  | Return v => Screen st (profile s) (editing s) (form s) v (alerts s)
  | Throw _ => Screen st (profile s) (editing s) (form s) (sub s) (alerts s)
  end.

(** Line 1021, up to the [await]. *)
Definition save_call (s : screen) : screen :=
  Screen (issue VITE_API_URL (Put "/profile" (form s)) (api s))
         (profile s) (editing s) (form s) (sub s) (alerts s).

(** Lines 1021-1022 after the [await]; [sent] is the [form] of the render
    in which [save] was called. *)
Definition save_resume (sent : value) (out : fetch_outcome) (s : screen) : screen :=
  let st := snd (req_resume out (api s)) in
  match req_result out with
  | Return _ => Screen st sent false (form s) (sub s) (alerts s)
  | Throw e =>
      Screen st (profile s) (editing s) (form s) (sub s)
             (alerts s ++ [message engine_message e])
  end.

End Screen.

End Profile.

(** ** [DashboardScreen.handleDelete] of App.jsx *)

Module Deletion.
Import Api Dashboard.

(** The dashboard with the cells of the delete dialogue. *)
Record screen : Type := Screen {
  board : Dashboard.sys;
  deleting : value;
  deleteLoading : bool;
  alerts : list string;
}.

Section Screen.

Variable VITE_API_URL : option string.
Variable engine_message : exn -> string.

(** [`/meals/${deleting}`]. *)
Definition delete_path (meal : value) : string := "/meals/" +:+ to_string meal.

Definition on_api (f : Api.state -> Api.state) (b : Dashboard.sys) : Dashboard.sys :=
  Dashboard.Sys (f (Dashboard.api b)) (Dashboard.pending b)
                (Dashboard.joins b) (Dashboard.dash b).

(** Lines 736-739, up to the [await]. *)
Definition handleDelete_call (s : screen) : screen :=
  if negb (truthy (deleting s)) then s
  else Screen (on_api (issue VITE_API_URL (Del (delete_path (deleting s))))
                      (board s))
              (deleting s) true (alerts s).

(** [setLoading(true)]. *)
Definition show_loading (b : Dashboard.sys) : Dashboard.sys :=
  Dashboard.Sys (Dashboard.api b) (Dashboard.pending b) (Dashboard.joins b)
    (DashboardState (today (dash b)) (history (dash b)) (stats (dash b)) true).

(** Lines 740-744 after the [await]. *)
Definition handleDelete_resume (out : fetch_outcome) (s : screen) : screen :=
  let b := on_api (fun st => snd (req_resume out st)) (board s) in
  match req_result out with
  | Return _ =>
      Screen (load VITE_API_URL (show_loading b)) VNull false (alerts s)
  | Throw e =>
      Screen b (deleting s) false (alerts s ++ [message engine_message e])
  end.

End Screen.

End Deletion.

(** ** The install listener of sw.js *)

Module Install.
Import Sw.

Definition STATIC_ASSETS : list string := ["/"; "/index.html"].

Section Worker.

(** The origin the worker is served from (scheme, host and port), against
    which the entries of [STATIC_ASSETS] are resolved, and the network as
    the worker finds it during the installation. *)
Variable origin : string.
Variable net : string -> fetch_outcome.

(** What [cache.addAll] fetches for one entry.  It rejects unless the URL
    has the scheme [http] or [https] and the response has a success
    status other than 206 and no star in its [Vary]. *)
Definition fetched (asset : string) : option write :=
  let rq := Request (origin +:+ asset) "GET" ∅ in
  match net (origin +:+ asset) with
  | Resp r => if ok r && storable rq r then Some (Write rq r) else None
  | NetFail => None
  end.

(** The [put]s of one [addAll] are run as a batch, which fails when a
    request matches a pair that the same batch has added before. *)
Fixpoint conflict (ws : list write) (added : list entry) : bool :=
  match ws with
  | [] => false
  | w :: ws' =>
      existsb (matches (write_request w)) added
      || conflict ws' (added ++ [Entry (write_request w) (write_response w)])
  end.

(** Lines 8-13: [caches.open(CACHE_NAME).then((cache) =>
    cache.addAll(STATIC_ASSETS))].  [addAll] stores all the responses or,
    when it rejects, none; the flag tells whether the installation
    succeeded. *)
Definition install (cs : cache_storage) : bool * cache_storage :=
  let opened := caches_open CACHE_NAME cs in
  match mapM fetched STATIC_ASSETS with
  | Some ws =>
      if conflict ws [] then (false, opened)
      else
        (true,
         fold_left (fun acc w =>
                      cache_put CACHE_NAME (write_request w) (write_response w) acc)
                   ws opened)
  | None => (false, opened)
  end.

End Worker.

End Install.

(** ** Sample data: responses, states and runs used further down *)

Module GatewayExamples.
Import Api.

Definition stored : state := page_load {["ns_token" := "tok-1"]}.
Definition expired : response :=
  Response 401 (Some (VObj [(key "detail", VStr "Invalid token")])).
Definition forbidden : response :=
  Response 403 (Some (VObj [(key "detail", VStr "Invalid token")])).
Definition missing : response := Response 404 (Some (VObj [])).
Definition broken : response := Response 500 (Some (VObj [])).

End GatewayExamples.

Module GateExamples.
Import Api Gate GatewayExamples.

(** Chrome's wording, for instance. *)
Definition engine_message (e : exn) : string :=
  match e with
  | FetchFailed => "Failed to fetch"
  | JsonSyntaxError => "Unexpected end of JSON input"
  | NullProperty _ => "Cannot read properties of null"
  | NotAConstructor => "window.Razorpay is not a constructor"
  | Error m => m
  end.

Definition active : fetch_outcome :=
  Resp (Response 200 (Some (VObj [(key "active", VBool true)]))).
Definition denied : response :=
  Response 402 (Some (VObj [(key "detail", VStr "subscription_required")])).
Definition order : fetch_outcome :=
  Resp (Response 200 (Some (VObj [(key "order_id", VStr "order_1")]))).
Definition confirmation : value :=
  VObj [(key "razorpay_order_id", VStr "order_1");
        (key "razorpay_payment_id", VStr "pay_1");
        (key "razorpay_signature", VStr "sig")].
Definition refused : fetch_outcome :=
  Resp (Response 400 (Some (VObj [(key "detail", VStr "Invalid signature")]))).
Definition entitled : fetch_outcome :=
  Resp (Response 200 (Some (VObj [(key "active", VBool true)]))).
Definition no_status : fetch_outcome := Resp (Response 200 (Some (VObj []))).
Definition photo : picked_file := PickedFile "image/jpeg" "lunch.jpg".

Definition mounted : sys := mount None stored true.

(** The user is let in by the advisory check, scans, and is denied. *)
Definition to_denial : list event :=
  [Settle 0 active; Pick (Some photo); ReaderLoad "data:image/jpeg;base64,";
   ClickScan; Settle 1 (Resp denied)].

(** Then pays at the provider; the confirmation is sent for verification. *)
Definition to_verification : list event :=
  [ClickPay; Settle 3 order; WidgetSuccess 0 confirmation].

Definition after (evs : list event) (s : sys) : sys :=
  default s (run None engine_message evs s).

(** The analyze call and the advisory check both in flight. *)
Definition racing : sys :=
  Sys stored {[0%nat := KAdvisory; 1%nat := KScan]} scanner_mounted None 0 []
      true [].

Definition blocked : sys := after to_denial mounted.
Definition verifying : sys := after to_verification blocked.
Definition retried : sys := after [Settle 4 entitled; ClickScan] verifying.

(** The analyze call in flight; the order requested; the widget open. *)
Definition to_scan : list event :=
  [Settle 0 active; Pick (Some photo); ReaderLoad "data:image/jpeg;base64,";
   ClickScan].
Definition scanning : sys := after to_scan mounted.
Definition ordering : sys := after [ClickPay] blocked.
Definition checkout : sys := after [Settle 3 order] ordering.

End GateExamples.

Module DashboardExamples.
Import Api Dashboard GatewayExamples.

Definition opened : sys := Sys stored ∅ [] dashboard_mounted.
Definition summary : fetch_outcome :=
  Resp (Response 200 (Some (VObj [(key "calorie_target", num 2000)]))).
Definition settlements : list (nat * fetch_outcome) :=
  [(1%nat, summary); (0%nat, NetFail); (2%nat, summary)].
Definition settled : sys := default opened (run settlements (load None opened)).

(** A load whose join was rejected by its first read while the other two
    are still on their way, the next load started from there, and a run in
    which one of the late reads arrives first. *)
Definition lagging : sys :=
  default opened (run [(0%nat, NetFail)] (load None opened)).
Definition late_settlements : list (nat * fetch_outcome) :=
  [(1%nat, summary); (4%nat, NetFail); (3%nat, summary); (2%nat, summary);
   (5%nat, summary)].
Definition relapsed : sys :=
  default lagging (run late_settlements (load None lagging)).

End DashboardExamples.

Module CacheExamples.
Import Sw.

Definition page : request :=
  Request "https://nutriscan.example/index.html" "GET" ∅.
Definition fresh : response := Response 200 "<html>v2</html>" [].
Definition stale : list entry := [Entry page (Response 200 "<html>v1</html>" [])].
Definition storage : list (string * list entry) := [("nutriscan-v0", stale)].

(** The same page with a fragment, a partial answer, and an answer that
    varies on everything. *)
Definition anchor : request :=
  Request "https://nutriscan.example/index.html#top" "GET" ∅.
Definition ranged : response := Response 206 "<html>" [].
Definition varying : response := Response 200 "<html>v3</html>" ["*"].

Definition logo : request :=
  Request "https://nutriscan.example/logo.png" "GET" ∅.
Definition origin : string := "https://nutriscan.example".
Definition online (u : string) : fetch_outcome := Resp fresh.

End CacheExamples.

Module ScreenExamples.
Import Api GatewayExamples DashboardExamples.

Definition history : fetch_outcome :=
  Resp (Response 200 (Some (VArr []))).
Definition stats : fetch_outcome :=
  Resp (Response 200 (Some (VObj [(key "total_meals", num 3)]))).
Definition out_of_order : list (nat * fetch_outcome) :=
  [(2%nat, stats); (0%nat, summary); (1%nat, history)].

(** The delete dialogue open on meal 7, over a dashboard at rest. *)
Definition confirming : Deletion.screen :=
  Deletion.Screen opened (num 7) false [].
Definition deleted : fetch_outcome :=
  Resp (Response 200 (Some (VObj [(key "status", VStr "deleted")]))).
Definition refetching : Dashboard.sys :=
  Deletion.board
    (Deletion.handleDelete_resume None GateExamples.engine_message deleted
       (Deletion.handleDelete_call None confirming)).
Definition refetch_settlements : list (nat * fetch_outcome) :=
  [(2%nat, summary); (1%nat, NetFail); (3%nat, summary)].
Definition stale_board : Dashboard.sys :=
  default refetching (Dashboard.run refetch_settlements refetching).
Definition gone : fetch_outcome :=
  Resp (Response 404 (Some (VObj [(key "detail", VStr "Meal not found")]))).

(** The banner shown, with the browser's event stored. *)
Definition banner : Shell.shell := Shell.Shell_ stored true true 0.

(** The login form filled in, and the server's answer. *)
Definition signing_in : Auth.screen :=
  Auth.Screen (page_load ∅) false 0 false ""
              [(key "email", VStr "a@example.org"); (key "password", VStr "secret")].
Definition welcome : fetch_outcome :=
  Resp (Response 200 (Some (VObj [(key "token", VStr "tok-2")]))).
Definition wrong_password : fetch_outcome :=
  Resp (Response 401 (Some (VObj [(key "detail", VStr "Invalid credentials")]))).

End ScreenExamples.

(** * Properties of the gateway *)

Section GatewayFacts.
Import Api.

Variable VITE_API_URL : option string.

Lemma ok_401 (r : response) : status r = 401%Z -> ok r = false.
Proof. intros H. unfold ok. rewrite H. reflexivity. Qed.

Lemma req_line79_401 (r : response) (st : state) :
  status r = 401%Z -> req_line79 r st = reload (clear st).
Proof. intros H. unfold req_line79. rewrite H. reflexivity. Qed.

Lemma clear_storage (st : state) : localStorage (clear st) !! "ns_token" = None.
Proof. cbn. apply lookup_delete_eq. Qed.

(** C1 (as amended).  When the response has status 401, [req] first clears
    the credential ([api.token] and the [ns_token] entry of localStorage)
    and requests a page reload, and a page loaded from that storage starts
    unauthenticated; the call is then not cut short but goes on to the
    generic non-success path of line 80 and fails with its error. *)
Theorem req_unauthorized (r : response) (st : state) :
  status r = 401%Z ->
  let st' := snd (req_resume (Resp r) st) in
  st' = reload (clear st)
  /\ token st' = VNull
  /\ localStorage st' !! "ns_token" = None
  /\ reloads st' = S (reloads st)
  /\ authed_on_load (page_load (localStorage st')) = false
  /\ fst (req_resume (Resp r) st) = Throw (req_error r).
Proof.
  intros H401. cbn zeta. cbn [req_resume fst snd].
  rewrite (req_line79_401 r st H401).
  repeat split.
  - apply clear_storage.
  - unfold authed_on_load, page_load, getItem. cbn [token localStorage reload].
    rewrite clear_storage. reflexivity.
  - unfold req_result, req_line80. rewrite (ok_401 r H401). reflexivity.
Qed.

(** The non-success path of line 80 always throws. *)
Lemma req_not_ok (r : response) :
  ok r = false -> req_result (Resp r) = Throw (req_error r).
Proof. intros H. unfold req_result, req_line80. rewrite H. reflexivity. Qed.

(** C3 (as amended).  For a non-success response [req] throws; what it
    throws is an [Error] whose message is the printed [detail] member of
    the decoded body when there is one and it is truthy, and ["Failed"]
    when the body is not JSON, is not an object, or has no truthy [detail];
    a body that is the JSON value [null] makes the read of [detail] itself
    throw.  The error records nothing of the status.  A value is returned
    only for a success status, and it is the decoded body. *)
Theorem req_failure (r : response) :
  ok r = false ->
  req_result (Resp r) = Throw (req_error r)
  /\ (forall fs, json_body r = Some (VObj fs) ->
        req_error r =
        Error match field "detail" fs with
              | Some d => if truthy d then to_string d else "Failed"
              | None => "Failed"
              end)
  /\ (json_body r = None -> req_error r = Error "Failed")
  /\ (forall v, json_body r = Some v ->
        match v with
        | VObj _ => True
        | VNull | VUndef => req_error r = NullProperty "detail"
        | _ => req_error r = Error "Failed"
        end)
  /\ (forall r', json_body r' = json_body r -> req_error r' = req_error r)
  /\ (forall out v, req_result out = Return v ->
        exists r', out = Resp r' /\ ok r' = true /\ json_body r' = Some v).
Proof.
  intros Hok. split; [exact (req_not_ok r Hok)|].
  split.
  { intros fs Hb. unfold req_error, json. rewrite Hb. cbn.
    destruct (field "detail" fs) as [d|]; cbn; [|reflexivity].
    unfold or_else. destruct (truthy d); reflexivity. }
  split.
  { intros Hb. unfold req_error, json. rewrite Hb. reflexivity. }
  split.
  { intros v Hb. unfold req_error, json. rewrite Hb.
    destruct v; cbn; auto. }
  split.
  { intros r' Hb. unfold req_error, json. rewrite Hb. reflexivity. }
  intros out v Hres. destruct out as [|r']; [discriminate|].
  exists r'. split; [reflexivity|].
  unfold req_result, req_line80 in Hres.
  destruct (ok r'); cbn in Hres; [|discriminate].
  split; [reflexivity|].
  unfold json in Hres. destruct (json_body r'); congruence.
Qed.

Lemma signed_out_clear (st : state) : signed_out (clear st).
Proof. split; [reflexivity | apply clear_storage]. Qed.

Lemma signed_out_line79 (r : response) (st : state) :
  signed_out st -> signed_out (req_line79 r st).
Proof.
  intros H. unfold req_line79. destruct (status r =? 401)%Z; [|exact H].
  apply (signed_out_clear st).
Qed.

Lemma signed_out_step (o : op) (st : state) :
  is_set_token o = false -> signed_out st -> signed_out (step VITE_API_URL o st).
Proof.
  intros Ho [Ht Hs]. destruct o as [c|out| |  | ]; cbn in *.
  - split; assumption.
  - destruct out; [split; assumption|]. apply signed_out_line79. split; assumption.
  - discriminate.
  - apply (signed_out_clear st).
  - split; [|exact Hs]. unfold getItem. cbn. rewrite Hs. reflexivity.
Qed.

Lemma issued_signed_out (c : call) (st : state) :
  signed_out st -> headers (issued VITE_API_URL c st) !! "Authorization" = None.
Proof.
  intros [Ht _]. unfold issued, req_request, req_headers. cbn [headers].
  rewrite Ht.
  assert (Hh : opt_headers (call_options c) = None)
    by (destruct c as [|? []| |]; reflexivity).
  rewrite Hh. cbn [default].
  destruct (negb _); [|apply lookup_empty].
  rewrite lookup_insert_ne by discriminate. apply lookup_empty.
Qed.

(** What one operation hands to [fetch]. *)
Lemma sent_step (o : op) (st : state) :
  sent (step VITE_API_URL o st) =
  sent st ++ match o with OCall c => [issued VITE_API_URL c st] | _ => [] end.
Proof.
  destruct o as [c|out| | |]; cbn; rewrite ?app_nil_r; try reflexivity.
  destruct out; cbn; [reflexivity|].
  unfold req_line79. destruct (status r =? 401)%Z; reflexivity.
Qed.

Lemma sent_run_prefix (ops : list op) (st : state) :
  exists new, sent (run VITE_API_URL ops st) = sent st ++ new.
Proof.
  revert st. induction ops as [|o ops IH]; intros st; cbn.
  - exists []. symmetry. apply app_nil_r.
  - destruct (IH (step VITE_API_URL o st)) as [new Hnew].
    unfold run in Hnew. rewrite Hnew, sent_step, <- app_assoc. eauto.
Qed.

Lemma signed_out_run (ops : list op) (st : state) :
  forallb (fun o => negb (is_set_token o)) ops = true ->
  signed_out st ->
  Forall (fun rq => headers rq !! "Authorization" = None)
         (drop (length (sent st)) (sent (run VITE_API_URL ops st))).
Proof.
  revert st. induction ops as [|o ops IH]; intros st Hops Hout; cbn.
  - rewrite drop_all. constructor.
  - cbn in Hops. apply andb_prop in Hops as [Ho Hops].
    apply negb_true_iff in Ho.
    pose proof (IH _ Hops (signed_out_step o st Ho Hout)) as IH'.
    destruct (sent_run_prefix ops (step VITE_API_URL o st)) as [new Hnew].
    unfold run in IH', Hnew. rewrite Hnew in IH' |- *.
    rewrite drop_app_length in IH'.
    rewrite sent_step, <- app_assoc, drop_app_length.
    apply Forall_app. split; [|exact IH'].
    destruct o; try constructor; [|constructor].
    apply issued_signed_out, Hout.
Qed.

(** C2.  In any sequence of gateway operations, once a response with
    status 401 has been handled, no request handed to [fetch] afterwards
    carries an [Authorization] header, the old credential's or any other,
    for as long as no new login stores a token. *)
Theorem no_credential_after_401
  (before after : list op) (r : response) (st : state) :
  status r = 401%Z ->
  forallb (fun o => negb (is_set_token o)) after = true ->
  let st1 := run VITE_API_URL (before ++ [OSettle (Resp r)]) st in
  let st2 := run VITE_API_URL after st1 in
  Forall (fun rq => headers rq !! "Authorization" = None)
         (drop (length (sent st1)) (sent st2)).
Proof.
  intros H401 Hafter st1 st2. apply signed_out_run; [exact Hafter|].
  subst st1. unfold run. rewrite fold_left_app. cbn.
  rewrite (req_line79_401 r _ H401).
  apply (signed_out_clear _).
Qed.

End GatewayFacts.

Import GatewayExamples.

(** C1, the claim as stated fails: on a 401 the call is not aborted ahead
    of the other error handling; line 80 runs and the call completes with
    the generic non-success error, exactly as for a 403 with that body. *)
Lemma req_unauthorized_takes_generic_path :
  Api.req_resume (Api.Resp expired) stored
  = (Api.req_line80 expired, Api.reload (Api.clear stored))
  /\ Api.req_line80 expired = Throw (Error "Invalid token")
  /\ Api.req_result (Api.Resp forbidden) = Api.req_result (Api.Resp expired).
Proof. repeat split. Qed.

Lemma req_unauthorized_witness :
  Api.status expired = 401%Z
  /\ Api.token (snd (Api.req_resume (Api.Resp expired) stored)) = VNull.
Proof.
  split; [reflexivity|].
  apply (req_unauthorized expired stored). reflexivity.
Defined.

(** C3, the claim as stated fails: the error thrown for a non-success
    response does not carry the status; a 404 and a 500 with the same body
    fail with the same value. *)
Lemma req_error_forgets_status :
  Api.ok missing = false /\ Api.ok broken = false
  /\ Api.status missing <> Api.status broken
  /\ Api.req_result (Api.Resp missing) = Throw (Error "Failed")
  /\ Api.req_result (Api.Resp broken) = Throw (Error "Failed").
Proof. repeat split. discriminate. Qed.

Lemma req_failure_witness :
  Api.ok forbidden = false
  /\ Api.req_result (Api.Resp forbidden) = Throw (Api.req_error forbidden).
Proof.
  split; [reflexivity|].
  apply (req_failure forbidden). reflexivity.
Defined.

Lemma no_credential_after_401_witness :
  Api.status expired = 401%Z
  /\ Forall (fun rq => Api.headers rq !! "Authorization" = None)
       (drop (length (Api.sent (Api.run None
                 [Api.OCall (Api.Get "/profile"); Api.OSettle (Api.Resp expired)]
                 stored)))
             (Api.sent (Api.run None
                 [Api.OCall (Api.Get "/dashboard/today"); Api.OPageLoad;
                  Api.OCall (Api.Del "/meals/7")]
                 (Api.run None
                    [Api.OCall (Api.Get "/profile"); Api.OSettle (Api.Resp expired)]
                    stored)))).
Proof.
  split; [reflexivity|].
  apply (no_credential_after_401 None [Api.OCall (Api.Get "/profile")]
           [Api.OCall (Api.Get "/dashboard/today"); Api.OPageLoad;
            Api.OCall (Api.Del "/meals/7")] expired stored);
    reflexivity.
Defined.

(** * Properties of the subscription gate *)

Section GateFacts.
Import Api Gate.

Variable VITE_API_URL : option string.
Variable engine_message : exn -> string.

Local Abbreviation step := (Gate.step VITE_API_URL engine_message).
Local Abbreviation handle := (Gate.handle VITE_API_URL engine_message).
Local Abbreviation run := (Gate.run VITE_API_URL engine_message).
Local Abbreviation await := (Gate.await VITE_API_URL).
Local Abbreviation commit := (Gate.commit VITE_API_URL).
Local Abbreviation API := (Api.API VITE_API_URL).
Local Abbreviation net_change := (Gate.net_change VITE_API_URL).
Local Abbreviation net_same := (Gate.net_same VITE_API_URL).
Local Abbreviation net_await := (Gate.net_await VITE_API_URL).
Local Abbreviation net_settle := (Gate.net_settle VITE_API_URL).
Local Abbreviation linked := (Gate.linked VITE_API_URL).
Local Abbreviation verified_payment := (Gate.verified_payment VITE_API_URL).

(** *** What the helpers leave alone *)

Lemma on_paywall_frame (g : nat) (f : paywall_state -> paywall_state) (s : sys) :
  exists pw,
    on_paywall g f s
    = Sys (api s) (pending s) (scanner s) pw (mounts s) (widgets s)
          (razorpay s) (log s)
    /\ (is_Some pw <-> is_Some (paywall s)).
Proof.
  unfold on_paywall. destruct s as [a p sc [[g' pw]|] m w r l]; cbn.
  - destruct (Nat.eqb g g'); eexists; split; try reflexivity; split; eauto.
  - eexists; split; [reflexivity | tauto].
Qed.

Lemma sent_req_resume (out : fetch_outcome) (st : state) :
  sent (snd (req_resume out st)) = sent st.
Proof.
  destruct out as [|r]; cbn; [reflexivity|].
  unfold req_line79. destruct (status r =? 401)%Z; reflexivity.
Qed.

Lemma scanner_commit (s : sys) : scanner (commit s) = scanner s.
Proof.
  unfold Gate.commit.
  destruct (render (scanner s)), (paywall s); reflexivity.
Qed.

Lemma log_commit (s : sys) :
  log (commit s) = log s ++ map Issued (commit_calls s).
Proof.
  unfold Gate.commit, commit_calls.
  destruct (render (scanner s)), (paywall s); cbn; rewrite ?app_nil_r; reflexivity.
Qed.

Lemma log_resume (k : cont) (c : completion value) (s : sys) :
  log (resume engine_message k c s) = log s.
Proof.
  destruct k; cbn; try reflexivity.
  - unfold status_settled. destruct c; [|reflexivity].
    destruct (on_paywall_frame g (setSubInfo a) s) as (pw & -> & _). reflexivity.
  - unfold order_settled.
    match goal with |- context [match ?x with Return _ => _ | Throw _ => _ end] =>
      destruct x end; [reflexivity|].
    match goal with |- log (on_paywall ?g ?f ?s) = _ =>
      destruct (on_paywall_frame g f s) as (pw & -> & _) end. reflexivity.
  - unfold verify_settled. destruct c; [reflexivity|].
    destruct (on_paywall_frame g (setPayError (VStr verification_failed)) s)
      as (pw & -> & _). reflexivity.
Qed.

Lemma scanner_resume (k : cont) (c : completion value) (s : sys) :
  scanner (resume engine_message k c s) =
  match k with
  | KAdvisory => advisory_settled c (scanner s)
  | KScan => scan_settled engine_message c (scanner s)
  | KVerify _ =>
      match c with
      | Return _ => setShowPaywall false (scanner s)
      | Throw _ => scanner s
      end
  | _ => scanner s
  end.
Proof.
  destruct k; cbn; try reflexivity.
  - unfold status_settled. destruct c; [|reflexivity].
    destruct (on_paywall_frame g (setSubInfo a) s) as (pw & -> & _). reflexivity.
  - unfold order_settled.
    match goal with |- context [match ?x with Return _ => _ | Throw _ => _ end] =>
      destruct x end; [reflexivity|].
    match goal with |- scanner (on_paywall ?g ?f ?s) = _ =>
      destruct (on_paywall_frame g f s) as (pw & -> & _) end. reflexivity.
  - unfold verify_settled. destruct c; [reflexivity|].
    destruct (on_paywall_frame g (setPayError (VStr verification_failed)) s)
      as (pw & -> & _). reflexivity.
Qed.

(** An event handler, seen from the scanner's cells and from the log. *)
Lemma handle_scanner (ev : event) (s s' : sys) :
  handle ev s = Some s' ->
  scanner s' =
  match ev with
  | Settle id out =>
      match pending s !! id with
      | Some KAdvisory => advisory_settled (req_result out) (scanner s)
      | Some KScan => scan_settled engine_message (req_result out) (scanner s)
      | Some (KVerify _) =>
          if verified out then setShowPaywall false (scanner s) else scanner s
      | _ => scanner s
      end
  | Pick f => pick f (scanner s)
  | ReaderLoad u => setImage (Some u) (scanner s)
  | SwitchMealType i => setMealType i (scanner s)
  | ClickScan =>
      match file (scanner s) with
      | Some _ => setError VNull (setLoading true (scanner s))
      | None => scanner s
      end
  | ClickReset => reset (scanner s)
  | _ => scanner s
  end.
Proof.
  intros H. destruct ev as [id out|f|u|i| | | | |w rsp|w rsp|w]; cbn in H.
  - destruct (pending s !! id) as [k|]; cbn in H; [|discriminate].
    injection H as <-. rewrite scanner_resume. cbn.
    unfold verified. destruct k; try reflexivity.
    destruct (req_result out); reflexivity.
  - destruct (_ && _); [|discriminate]. injection H as <-. reflexivity.
  - injection H as <-. reflexivity.
  - destruct (_ && _); [|discriminate]. injection H as <-. reflexivity.
  - destruct (_ && _); [|discriminate]. injection H as <-.
    unfold scan. destruct (file (scanner s)); reflexivity.
  - destruct (_ && _); [|discriminate]. injection H as <-. reflexivity.
  - destruct (render (scanner s)); try discriminate.
    destruct (paywall s) as [[g p]|] eqn:Hpw; [|discriminate].
    destruct (negb (paying p)); [|discriminate]. injection H as <-.
    unfold handlePayment. cbn.
    match goal with |- scanner (on_paywall ?g ?f ?s) = _ =>
      destruct (on_paywall_frame g f s) as (pw & -> & _) end. reflexivity.
  - injection H as <-. reflexivity.
  - destruct (widgets s !! w) as [g|]; cbn in H; [|discriminate].
    injection H as <-. unfold handler.
    destruct (get_all rsp _); [reflexivity|].
    match goal with |- scanner (on_paywall ?g ?f ?s) = _ =>
      destruct (on_paywall_frame g f s) as (pw & -> & _) end. reflexivity.
  - destruct (widgets s !! w) as [g|]; cbn in H; [|discriminate].
    injection H as <-. unfold payment_failed.
    match goal with |- context [match ?x with Return _ => _ | Throw _ => _ end] =>
      destruct x end; [|reflexivity].
    match goal with |- scanner (on_paywall ?g ?f ?s) = _ =>
      destruct (on_paywall_frame g f s) as (pw & -> & _) end. reflexivity.
  - destruct (widgets s !! w) as [g|]; cbn in H; [|discriminate].
    injection H as <-.
    match goal with |- scanner (on_paywall ?g ?f ?s) = _ =>
      destruct (on_paywall_frame g f s) as (pw & -> & _) end. reflexivity.
Qed.

Lemma handle_log (ev : event) (s s' : sys) :
  handle ev s = Some s' ->
  log s' = log s ++ resumed ev s ++ map Issued (handle_calls ev s).
Proof.
  intros H. destruct ev as [id out|f|u|i| | | | |w rsp|w rsp|w]; cbn in H;
    cbn [resumed handle_calls].
  - destruct (pending s !! id) as [k|]; cbn in H; [|discriminate].
    injection H as <-. rewrite log_resume. reflexivity.
  - destruct (_ && _); [|discriminate]. injection H as <-. cbn.
    symmetry; apply app_nil_r.
  - injection H as <-. cbn. symmetry; apply app_nil_r.
  - destruct (_ && _); [|discriminate]. injection H as <-. cbn.
    symmetry; apply app_nil_r.
  - destruct (_ && _); [|discriminate]. injection H as <-.
    unfold scan. destruct (file (scanner s)); cbn; [reflexivity|].
    symmetry; apply app_nil_r.
  - destruct (_ && _); [|discriminate]. injection H as <-. cbn.
    symmetry; apply app_nil_r.
  - destruct (render (scanner s)); try discriminate.
    destruct (paywall s) as [[g p]|] eqn:Hpw; [|discriminate].
    destruct (negb (paying p)); [|discriminate]. injection H as <-.
    unfold handlePayment. cbn.
    match goal with |- log (on_paywall ?g ?f ?s) ++ _ = _ =>
      destruct (on_paywall_frame g f s) as (pw & -> & _) end. reflexivity.
  - injection H as <-. cbn. symmetry; apply app_nil_r.
  - destruct (widgets s !! w) as [g|]; cbn in H; [|discriminate].
    injection H as <-. unfold handler.
    destruct (get_all rsp _); [reflexivity|].
    match goal with |- log (on_paywall ?g ?f ?s) = _ =>
      destruct (on_paywall_frame g f s) as (pw & -> & _) end.
    cbn. symmetry; apply app_nil_r.
  - destruct (widgets s !! w) as [g|]; cbn in H; [|discriminate].
    injection H as <-. unfold payment_failed. cbn.
    match goal with |- context [match ?x with Return _ => _ | Throw _ => _ end] =>
      destruct x end; [|symmetry; apply app_nil_r].
    match goal with |- log (on_paywall ?g ?f ?s) = _ =>
      destruct (on_paywall_frame g f s) as (pw & -> & _) end.
    cbn. symmetry; apply app_nil_r.
  - destruct (widgets s !! w) as [g|]; cbn in H; [|discriminate].
    injection H as <-.
    match goal with |- log (on_paywall ?g ?f ?s) = _ =>
      destruct (on_paywall_frame g f s) as (pw & -> & _) end.
    cbn. symmetry; apply app_nil_r.
Qed.

(** *** What an event does to the gateway and to the pending requests *)

Lemma net_resume (k : cont) (c : completion value) (s : sys) :
  api (resume engine_message k c s) = api s
  /\ pending (resume engine_message k c s) = pending s.
Proof.
  destruct k; cbn; try (split; reflexivity).
  - unfold status_settled. destruct c; [|split; reflexivity].
    destruct (on_paywall_frame g (setSubInfo a) s) as (pw & -> & _).
    split; reflexivity.
  - unfold order_settled.
    match goal with |- context [match ?x with Return _ => _ | Throw _ => _ end] =>
      destruct x end; [split; reflexivity|].
    match goal with |- context [on_paywall ?g ?f ?s] =>
      destruct (on_paywall_frame g f s) as (pw & -> & _) end.
    split; reflexivity.
  - unfold verify_settled. destruct c; [split; reflexivity|].
    destruct (on_paywall_frame g (setPayError (VStr verification_failed)) s)
      as (pw & -> & _). split; reflexivity.
Qed.

Lemma net_handle (ev : event) (s s' : sys) :
  handle ev s = Some s' -> net_change s s'.
Proof.
  intros H. destruct ev as [id out|f|u|i| | | | |w rsp|w rsp|w]; cbn in H.
  - destruct (pending s !! id) as [k|]; cbn in H; [|discriminate].
    injection H as <-.
    match goal with |- net_change _ (resume _ ?k ?c ?s1) =>
      destruct (net_resume k c s1) as [Ha Hp] end.
    apply (net_settle _ _ id out); [rewrite Ha | rewrite Hp]; reflexivity.
  - destruct (_ && _); [|discriminate]. injection H as <-.
    apply net_same; reflexivity.
  - injection H as <-. apply net_same; reflexivity.
  - destruct (_ && _); [|discriminate]. injection H as <-.
    apply net_same; reflexivity.
  - destruct (_ && _); [|discriminate]. injection H as <-.
    unfold scan. destruct (file (scanner s)); [|apply net_same; reflexivity].
    eapply (net_await _ _ _ KScan); [|reflexivity|reflexivity]; split; reflexivity.
  - destruct (_ && _); [|discriminate]. injection H as <-.
    apply net_same; reflexivity.
  - destruct (render (scanner s)); try discriminate.
    destruct (paywall s) as [[g p]|] eqn:Hpw; [|discriminate].
    destruct (negb (paying p)); [|discriminate]. injection H as <-.
    unfold handlePayment.
    match goal with |- context [on_paywall ?g ?f ?s] =>
      destruct (on_paywall_frame g f s) as (pw & -> & _) end.
    eapply (net_await _ _ _ (KCreateOrder g)); [|reflexivity|reflexivity]; split; reflexivity.
  - injection H as <-. apply net_same; reflexivity.
  - destruct (widgets s !! w) as [g|]; cbn in H; [|discriminate].
    injection H as <-. unfold handler.
    destruct (get_all rsp _).
    + eapply (net_await _ _ _ (KVerify g)); [|reflexivity|reflexivity]; split; reflexivity.
    + match goal with |- context [on_paywall ?g ?f ?s] =>
        destruct (on_paywall_frame g f s) as (pw & -> & _) end.
      apply net_same; reflexivity.
  - destruct (widgets s !! w) as [g|]; cbn in H; [|discriminate].
    injection H as <-. unfold payment_failed.
    match goal with |- context [match ?x with Return _ => _ | Throw _ => _ end] =>
      destruct x end; [|apply net_same; reflexivity].
    match goal with |- context [on_paywall ?g ?f ?s] =>
      destruct (on_paywall_frame g f s) as (pw & -> & _) end.
    apply net_same; reflexivity.
  - destruct (widgets s !! w) as [g|]; cbn in H; [|discriminate].
    injection H as <-.
    match goal with |- context [on_paywall ?g ?f ?s] =>
      destruct (on_paywall_frame g f s) as (pw & -> & _) end.
    apply net_same; reflexivity.
Qed.

Lemma net_commit (s : sys) : net_change s (commit s).
Proof.
  unfold Gate.commit.
  destruct (render (scanner s)), (paywall s);
    try (apply net_same; reflexivity).
  eapply (net_await _ _ _ (KPaywallStatus (mounts s)));
    [|reflexivity|reflexivity]; split; reflexivity.
Qed.

Lemma net_change_sent (s s' : sys) :
  net_change s s' -> exists new, sent (api s') = sent (api s) ++ new.
Proof.
  intros [Ha _ | c k _ Ha _ | id out Ha _]; rewrite Ha.
  - exists []. symmetry; apply app_nil_r.
  - eexists. reflexivity.
  - exists []. rewrite sent_req_resume. symmetry; apply app_nil_r.
Qed.

Lemma net_change_linked (s s' : sys) :
  net_change s s' -> linked s -> linked s'.
Proof.
  intros [Ha Hp | c k [Hm Hu] Ha Hp | id out Ha Hp] Hl id' k' Hk;
    rewrite Hp in Hk; rewrite Ha.
  - apply Hl, Hk.
  - cbn [issue req_call sent].
    destruct (decide (length (sent (api s)) = id')) as [<-|Hne].
    + rewrite lookup_insert_eq in Hk. injection Hk as <-.
      eexists. split; [apply list_lookup_middle; reflexivity|].
      cbn. rewrite Hm, Hu. split; reflexivity.
    + rewrite lookup_insert_ne in Hk by exact Hne.
      destruct (Hl _ _ Hk) as (rq & Hrq & Hrest).
      exists rq. split; [|exact Hrest].
      apply lookup_app_l_Some, Hrq.
  - rewrite sent_req_resume.
    destruct (decide (id = id')) as [<-|Hne].
    + rewrite lookup_delete_eq in Hk. discriminate.
    + rewrite lookup_delete_ne in Hk by exact Hne. apply Hl, Hk.
Qed.

Lemma step_inv (ev : event) (s s' : sys) :
  step ev s = Some s' -> exists s1, handle ev s = Some s1 /\ s' = commit s1.
Proof.
  unfold Gate.step. destruct (handle ev s) as [s1|]; cbn; [|discriminate].
  intros [= <-]. eauto.
Qed.

Lemma step_linked (ev : event) (s s' : sys) :
  step ev s = Some s' -> linked s -> linked s'.
Proof.
  intros (s1 & H1 & ->)%step_inv Hl.
  apply (net_change_linked s1); [apply net_commit|].
  apply (net_change_linked s); [|exact Hl]. apply (net_handle ev), H1.
Qed.

Lemma step_sent (ev : event) (s s' : sys) :
  step ev s = Some s' -> exists new, sent (api s') = sent (api s) ++ new.
Proof.
  intros (s1 & H1 & ->)%step_inv.
  destruct (net_change_sent _ _ (net_handle _ _ _ H1)) as [n1 E1].
  destruct (net_change_sent _ _ (net_commit s1)) as [n2 E2].
  exists (n1 ++ n2). rewrite E2, E1. symmetry; apply app_assoc.
Qed.

Lemma run_sent (evs : list event) (s s' : sys) :
  run evs s = Some s' -> exists new, sent (api s') = sent (api s) ++ new.
Proof.
  revert s. induction evs as [|ev evs IH]; intros s H; cbn in H.
  - injection H as <-. exists []. symmetry; apply app_nil_r.
  - destruct (step ev s) as [s1|] eqn:E; cbn in H; [|discriminate].
    destruct (step_sent _ _ _ E) as [n1 E1].
    destruct (IH _ H) as [n2 E2].
    exists (n1 ++ n2). rewrite E2, E1. symmetry; apply app_assoc.
Qed.

Lemma run_linked (evs : list event) (s s' : sys) :
  run evs s = Some s' -> linked s -> linked s'.
Proof.
  revert s. induction evs as [|ev evs IH]; intros s H Hl; cbn in H.
  - injection H as <-. exact Hl.
  - destruct (step ev s) as [s1|] eqn:E; cbn in H; [|discriminate].
    apply (IH _ H), (step_linked _ _ _ E), Hl.
Qed.

Lemma mount_linked (st : state) (rzp : bool) :
  linked (mount VITE_API_URL st rzp).
Proof.
  unfold mount.
  match goal with |- linked (await ?c ?k ?s0) =>
    apply (net_change_linked s0) end.
  - eapply (net_await _ _ _ KAdvisory); [|reflexivity|reflexivity]; split; reflexivity.
  - intros id k Hk. cbn in Hk. rewrite lookup_empty in Hk. discriminate.
Qed.

(** *** What a step does to the scanner's cells and to the log *)

Lemma step_scanner (ev : event) (s s' : sys) :
  step ev s = Some s' -> exists s1, handle ev s = Some s1 /\ scanner s' = scanner s1.
Proof.
  intros (s1 & H1 & ->)%step_inv. exists s1. split; [exact H1|].
  apply scanner_commit.
Qed.

Lemma step_log (ev : event) (s s' : sys) :
  step ev s = Some s' ->
  exists s1, handle ev s = Some s1 /\
    log s' = log s ++ resumed ev s
                   ++ map Issued (handle_calls ev s ++ commit_calls s1).
Proof.
  intros (s1 & H1 & ->)%step_inv. exists s1. split; [exact H1|].
  rewrite log_commit, (handle_log _ _ _ H1), map_app, <- !app_assoc.
  reflexivity.
Qed.

Lemma run_log (evs : list event) (s s' : sys) :
  run evs s = Some s' -> exists h, log s' = log s ++ h.
Proof.
  revert s. induction evs as [|ev evs IH]; intros s H; cbn in H.
  - injection H as <-. exists []. symmetry; apply app_nil_r.
  - destruct (step ev s) as [s1|] eqn:E; cbn in H; [|discriminate].
    destruct (step_log _ _ _ E) as (s0 & _ & E1).
    destruct (IH _ H) as [h2 E2].
    eexists. rewrite E2, E1, <- !app_assoc. reflexivity.
Qed.

(** *** The paywall flag *)

Lemma showPaywall_advisory (c : completion value) (sc : scanner_state) :
  showPaywall sc = true -> showPaywall (advisory_settled c sc) = true.
Proof.
  intros H. unfold advisory_settled.
  destruct (bind c _) as [a|]; cbn; [|exact H].
  destruct (negb (truthy a)); cbn; [reflexivity | exact H].
Qed.

Lemma subChecked_advisory (c : completion value) (sc : scanner_state) :
  subChecked (advisory_settled c sc) = true.
Proof. unfold advisory_settled. destruct (bind c _); reflexivity. Qed.

Lemma showPaywall_scan (c : completion value) (sc : scanner_state) :
  showPaywall sc = true -> showPaywall (scan_settled engine_message c sc) = true.
Proof.
  intros H. unfold scan_settled. destruct c as [v|e]; cbn; [exact H|].
  destruct (String.eqb _ _); cbn; [reflexivity | exact H].
Qed.

Lemma subChecked_scan (c : completion value) (sc : scanner_state) :
  subChecked (scan_settled engine_message c sc) = subChecked sc.
Proof.
  unfold scan_settled. destruct c as [v|e]; cbn; [reflexivity|].
  destruct (String.eqb _ _); reflexivity.
Qed.

Lemma gate_pick (f : option picked_file) (sc : scanner_state) :
  showPaywall (pick f sc) = showPaywall sc
  /\ subChecked (pick f sc) = subChecked sc.
Proof.
  unfold pick. destruct f as [f|]; [|split; reflexivity].
  destruct (starts_with _ _); split; reflexivity.
Qed.

(** A response that signals "subscription required" makes [req] throw the
    error [scan] tests for. *)
Lemma subscription_required_error (r : response) :
  subscription_required r = true ->
  req_result (Resp r) = Throw (Error "subscription_required").
Proof.
  unfold subscription_required. intros [Hok Hb]%andb_prop.
  apply negb_true_iff in Hok. rewrite (req_not_ok r Hok). f_equal.
  unfold req_error, json.
  destruct (json_body r) as [[| | | | | |fs]|]; try discriminate. cbn.
  destruct (field "detail" fs) as [[| | | |d| |]|]; try discriminate.
  apply String.eqb_eq in Hb. subst d. reflexivity.
Qed.

Lemma showPaywall_denied (sc : scanner_state) :
  showPaywall
    (scan_settled engine_message (Throw (Error "subscription_required")) sc)
  = true.
Proof. reflexivity. Qed.

Lemma scanner_shown_blocked (s : sys) :
  showPaywall (scanner s) = true -> scanner_shown s = false.
Proof.
  intros H. unfold scanner_shown, render. rewrite H.
  destruct (negb (subChecked (scanner s))); reflexivity.
Qed.

Lemma scanner_shown_checked (s : sys) :
  scanner_shown s = true ->
  subChecked (scanner s) = true /\ showPaywall (scanner s) = false.
Proof.
  unfold scanner_shown, render.
  destruct (subChecked (scanner s)), (showPaywall (scanner s)); cbn;
    intros; try discriminate; split; reflexivity.
Qed.

(** The flag is lowered by a verified payment and by nothing else. *)
Lemma step_unblocks (ev : event) (s s' : sys) :
  step ev s = Some s' ->
  showPaywall (scanner s) = true ->
  showPaywall (scanner s') = false ->
  exists id out g,
    ev = Settle id out /\ pending s !! id = Some (KVerify g)
    /\ verified out = true.
Proof.
  intros (s1 & H1 & Hsc)%step_scanner Hb Hu.
  rewrite Hsc, (handle_scanner _ _ _ H1) in Hu.
  pose proof (scanner_shown_blocked s Hb) as Hns.
  destruct ev as [id out|f|u|i| | | | |w rsp|w rsp|w];
    try (rewrite Hb in Hu; discriminate);
    try (cbn in H1; rewrite Hns in H1; cbn in H1; discriminate).
  - destruct (pending s !! id) as [[| | | |g]|] eqn:Hk;
      try (rewrite Hb in Hu; discriminate).
    + rewrite (showPaywall_advisory _ _ Hb) in Hu. discriminate.
    + rewrite (showPaywall_scan _ _ Hb) in Hu. discriminate.
    + destruct (verified out) eqn:Hv; [|rewrite Hb in Hu; discriminate].
      exists id, out, g. split; [reflexivity|]. split; [exact Hk | exact Hv].
  - cbn in Hu. rewrite Hb in Hu. discriminate.
Qed.

Lemma step_keeps_blocked (ev : event) (s s' : sys) :
  step ev s = Some s' ->
  showPaywall (scanner s) = true ->
  Forall (fun a => paid a = false) (resumed ev s) ->
  showPaywall (scanner s') = true.
Proof.
  intros Hstep Hb Hnp.
  destruct (showPaywall (scanner s')) eqn:Hu; [reflexivity|].
  destruct (step_unblocks _ _ _ Hstep Hb Hu) as (id & out & g & -> & Hk & Hv).
  cbn in Hnp. rewrite Hk in Hnp. apply Forall_inv in Hnp. cbn in Hnp.
  congruence.
Qed.

Lemma step_denied (id : nat) (r : response) (s s' : sys) :
  step (Settle id (Resp r)) s = Some s' ->
  pending s !! id = Some KScan ->
  subscription_required r = true ->
  showPaywall (scanner s') = true.
Proof.
  intros (s1 & H1 & Hsc)%step_scanner Hk Hr.
  rewrite Hsc, (handle_scanner _ _ _ H1), Hk.
  rewrite (subscription_required_error r Hr). apply showPaywall_denied.
Qed.

Lemma step_subChecked (ev : event) (s s' : sys) :
  step ev s = Some s' ->
  subChecked (scanner s) = true
  \/ (exists id out, In (Resumed id KAdvisory out) (resumed ev s)) ->
  subChecked (scanner s') = true.
Proof.
  intros (s1 & H1 & Hsc)%step_scanner Hc.
  rewrite Hsc, (handle_scanner _ _ _ H1).
  destruct ev as [id out|f|u|i| | | | |w rsp|w rsp|w]; cbn [resumed] in Hc.
  1: destruct (pending s !! id) as [[| | | |g]|] eqn:Hk;
       [apply subChecked_advisory|..].
  all: assert (Hc' : subChecked (scanner s) = true)
         by (destruct Hc as [Hc|(? & ? & Hin)];
             [exact Hc | exfalso; cbn in Hin; intuition discriminate]).
  all: try exact Hc'.
  - rewrite subChecked_scan. exact Hc'.
  - destruct (verified out); exact Hc'.
  - rewrite (proj2 (gate_pick f (scanner s))). exact Hc'.
  - destruct (file (scanner s)); exact Hc'.
Qed.

(** *** Lists split at an element *)

Lemma app_split_at {A} (x : A) (l1 l2 h1 h2 : list A) :
  l1 ++ l2 = h1 ++ x :: h2 ->
  (exists h1', h1 = l1 ++ h1' /\ l2 = h1' ++ x :: h2)
  \/ (exists m, l1 = h1 ++ x :: m /\ h2 = m ++ l2).
Proof.
  revert h1. induction l1 as [|a l1 IH]; intros h1 E; cbn in E.
  - left. exists h1. split; [reflexivity | exact E].
  - destruct h1 as [|b h1]; cbn in E.
    + injection E as -> E. right. exists l1. split; [reflexivity | auto].
    + injection E as -> E. destruct (IH _ E) as [(h & -> & ->)|(m & -> & ->)].
      * left. exists h. split; reflexivity.
      * right. exists m. split; reflexivity.
Qed.

Lemma run_keeps_blocked (evs : list event) (s s' : sys) (h : list action) :
  run evs s = Some s' ->
  showPaywall (scanner s) = true ->
  log s' = log s ++ h ->
  Forall (fun a => paid a = false) h ->
  showPaywall (scanner s') = true.
Proof.
  revert s h. induction evs as [|ev evs IH]; intros s h Hrun Hb Hlog Hnp;
    cbn in Hrun.
  - injection Hrun as <-. exact Hb.
  - destruct (step ev s) as [s1|] eqn:E; cbn in Hrun; [|discriminate].
    destruct (step_log _ _ _ E) as (s0 & _ & E1).
    destruct (run_log _ _ _ Hrun) as [h' E2].
    assert (Hh : h = (resumed ev s ++ map Issued (handle_calls ev s ++ commit_calls s0)) ++ h').
    { apply (app_inv_head (log s)). rewrite <- Hlog, E2, E1, <- !app_assoc.
      reflexivity. }
    subst h. apply Forall_app in Hnp as [Hn1 Hn2].
    apply Forall_app in Hn1 as [Hn1 _].
    apply (IH s1 h' Hrun); [|exact E2|exact Hn2].
    apply (step_keeps_blocked _ _ _ E Hb Hn1).
Qed.

Lemma run_subChecked (evs : list event) (s s' : sys) (h : list action) :
  run evs s = Some s' ->
  log s' = log s ++ h ->
  subChecked (scanner s) = true
  \/ (exists id out, In (Resumed id KAdvisory out) h) ->
  subChecked (scanner s') = true.
Proof.
  revert s h. induction evs as [|ev evs IH]; intros s h Hrun Hlog Hc;
    cbn in Hrun.
  - injection Hrun as <-. destruct Hc as [Hc|(id & out & Hin)]; [exact Hc|].
    assert (h = []) as ->.
    { apply (app_inv_head (log s)). rewrite <- Hlog. symmetry; apply app_nil_r. }
    destruct Hin.
  - destruct (step ev s) as [s1|] eqn:E; cbn in Hrun; [|discriminate].
    destruct (step_log _ _ _ E) as (s0 & _ & E1).
    destruct (run_log _ _ _ Hrun) as [h' E2].
    assert (Hh : h = (resumed ev s ++ map Issued (handle_calls ev s ++ commit_calls s0)) ++ h').
    { apply (app_inv_head (log s)). rewrite <- Hlog, E2, E1, <- !app_assoc.
      reflexivity. }
    subst h. apply (IH s1 h' Hrun E2).
    destruct Hc as [Hc|(id & out & Hin)].
    + left. apply (step_subChecked _ _ _ E). left. exact Hc.
    + apply in_app_or in Hin as [Hin|Hin]; [|right; eauto].
      left. apply (step_subChecked _ _ _ E).
      apply in_app_or in Hin as [Hin|Hin]; [right; eauto|].
      apply in_map_iff in Hin as (c & [=] & _).
Qed.

Lemma commit_committed (s : sys) : committed (commit s).
Proof.
  unfold committed. rewrite scanner_commit. unfold Gate.commit.
  destruct (render (scanner s)) eqn:Hr, (paywall s) eqn:Hp; cbn;
    rewrite ?Hp; split; intros H; try discriminate; eauto;
    destruct H as [? [=]].
Qed.

Lemma run_committed (evs : list event) (s s' : sys) :
  run evs s = Some s' -> committed s \/ evs <> [] -> committed s'.
Proof.
  revert s. induction evs as [|ev evs IH]; intros s Hrun Hc; cbn in Hrun.
  - injection Hrun as <-. destruct Hc as [Hc|Hc]; [exact Hc | congruence].
  - destruct (step ev s) as [s1|] eqn:E; cbn in Hrun; [|discriminate].
    apply (IH s1 Hrun). left.
    apply step_inv in E as (s0 & _ & ->). apply commit_committed.
Qed.

Lemma resumed_in (ev : event) (s : sys) (id : nat) (k : cont) (out : fetch_outcome) :
  In (Resumed id k out) (resumed ev s) ->
  ev = Settle id out /\ pending s !! id = Some k.
Proof.
  destruct ev as [id0 out0|f|u|i| | | | |w rsp|w rsp|w]; cbn; try tauto.
  destruct (pending s !! id0) as [k0|] eqn:Hk; cbn; [|tauto].
  intros [[= -> -> ->]|[]]. split; [reflexivity | exact Hk].
Qed.

Lemma log_grows (s : sys) (h : list action) : log s = log s ++ h -> h = [].
Proof.
  intros E. apply (app_inv_head (log s)). rewrite <- E.
  symmetry; apply app_nil_r.
Qed.

Lemma run_denied (evs : list event) (s s' : sys)
    (h1 h2 : list action) (id : nat) (r : response) :
  run evs s = Some s' ->
  log s' = log s ++ h1 ++ Resumed id KScan (Resp r) :: h2 ->
  subscription_required r = true ->
  Forall (fun a => paid a = false) h2 ->
  showPaywall (scanner s') = true.
Proof.
  revert s h1. induction evs as [|ev evs IH]; intros s h1 Hrun Hlog Hr Hnp;
    cbn in Hrun.
  - injection Hrun as <-. apply log_grows in Hlog.
    destruct h1; discriminate.
  - destruct (step ev s) as [s1|] eqn:E; cbn in Hrun; [|discriminate].
    destruct (step_log _ _ _ E) as (s0 & _ & E1).
    destruct (run_log _ _ _ Hrun) as [h' E2].
    assert (Hh : (resumed ev s
                  ++ map Issued (handle_calls ev s ++ commit_calls s0)) ++ h'
                 = h1 ++ Resumed id KScan (Resp r) :: h2).
    { apply (app_inv_head (log s)). rewrite <- Hlog, E2, E1, <- !app_assoc.
      reflexivity. }
    apply app_split_at in Hh as [(h1' & -> & ->)|(m & Hnew & ->)].
    + apply (IH s1 h1' Hrun); [exact E2 | exact Hr | exact Hnp].
    + assert (Hin : In (Resumed id KScan (Resp r)) (resumed ev s)).
      { assert (Hin : In (Resumed id KScan (Resp r))
                         (resumed ev s
                          ++ map Issued (handle_calls ev s ++ commit_calls s0)))
          by (rewrite Hnew; apply in_elt).
        apply in_app_or in Hin as [Hin|Hin]; [exact Hin|].
        apply in_map_iff in Hin as (c & [=] & _). }
      apply resumed_in in Hin as [-> Hk].
      apply Forall_app in Hnp as [_ Hnp].
      apply (run_keeps_blocked evs s1 s' h' Hrun); [|exact E2|exact Hnp].
      apply (step_denied id r s s1 E Hk Hr).
Qed.

(** *** Payment before retry *)

Lemma verified_payment_mono (s' : sys) (h h' : list action) :
  (forall a, In a h -> In a h') ->
  verified_payment s' h -> verified_payment s' h'.
Proof.
  intros Hsub (id & g & out & rq & Hin & Hrest).
  exists id, g, out, rq. split; [apply Hsub, Hin | exact Hrest].
Qed.

Lemma no_analyze_while_blocked (ev : event) (s s0 : sys) (b : payload) :
  handle ev s = Some s0 ->
  showPaywall (scanner s) = true ->
  ~ In (Post "/meals/analyze" b) (handle_calls ev s ++ commit_calls s0).
Proof.
  intros H Hb Hin. apply in_app_or in Hin as [Hin|Hin].
  - destruct ev as [id out|f|u|i| | | | |w rsp|w rsp|w];
      cbn [handle_calls] in Hin; try (destruct Hin; fail).
    + cbn in H. rewrite (scanner_shown_blocked s Hb) in H. discriminate.
    + destruct Hin as [[=]|[]].
    + destruct (get_all rsp _); [|destruct Hin].
      destruct Hin as [[=]|[]].
  - unfold commit_calls in Hin.
    destruct (render (scanner s0)), (paywall s0); cbn in Hin;
      try contradiction.
    destruct Hin as [[=]|[]].
Qed.

Lemma run_payment_precedes (evs : list event) (s s' : sys) (h : list action) :
  linked s ->
  showPaywall (scanner s) = true ->
  run evs s = Some s' ->
  log s' = log s ++ h ->
  (showPaywall (scanner s') = false -> verified_payment s' h)
  /\ (forall h1 b h2,
        h = h1 ++ Issued (Post "/meals/analyze" b) :: h2 ->
        verified_payment s' h1).
Proof.
  revert s h. induction evs as [|ev evs IH]; intros s h Hl Hb Hrun Hlog;
    cbn in Hrun.
  - injection Hrun as <-. apply log_grows in Hlog. subst h. split.
    + intros Hu. congruence.
    + intros [|a h1] b h2 [=].
  - destruct (step ev s) as [s1|] eqn:E; cbn in Hrun; [|discriminate].
    destruct (step_log _ _ _ E) as (s0 & H0 & E1).
    destruct (run_log _ _ _ Hrun) as [h' E2].
    assert (Hh : h = (resumed ev s
                      ++ map Issued (handle_calls ev s ++ commit_calls s0)) ++ h').
    { apply (app_inv_head (log s)). rewrite <- Hlog, E2, E1, <- !app_assoc.
      reflexivity. }
    pose proof (step_linked _ _ _ E Hl) as Hl1.
    destruct (showPaywall (scanner s1)) eqn:Hb1.
    + destruct (IH s1 h' Hl1 Hb1 Hrun E2) as [IH1 IH2]. split.
      * intros Hu. apply (verified_payment_mono s' h'); [|exact (IH1 Hu)].
        intros a Ha. rewrite Hh. apply in_or_app. right. exact Ha.
      * intros h1 b h2 Hsplit. rewrite Hh in Hsplit.
        apply app_split_at in Hsplit as [(h1' & -> & Hh')|(m & Hnew & _)].
        -- apply (verified_payment_mono s' h1'); [|exact (IH2 _ _ _ Hh')].
           intros a Ha. apply in_or_app. right. exact Ha.
        -- exfalso.
           assert (Hin : In (Issued (Post "/meals/analyze" b))
                            (resumed ev s
                             ++ map Issued (handle_calls ev s ++ commit_calls s0)))
             by (rewrite Hnew; apply in_elt).
           apply in_app_or in Hin as [Hin|Hin].
           ++ destruct ev as [id out|f|u|i| | | | |w rsp|w rsp|w];
                cbn in Hin; try contradiction.
              destruct (pending s !! id); cbn in Hin; [|contradiction].
              destruct Hin as [[=]|[]].
           ++ apply in_map_iff in Hin as (c & [= ->] & Hin).
              exact (no_analyze_while_blocked _ _ _ _ H0 Hb Hin).
    + destruct (step_unblocks _ _ _ E Hb Hb1) as (id & out & g & -> & Hk & Hv).
      destruct (Hl _ _ Hk) as (rq & Hrq & Hm & Hu).
      destruct (step_sent _ _ _ E) as [n1 En1].
      destruct (run_sent _ _ _ Hrun) as [n2 En2].
      assert (Hrq' : sent (api s') !! id = Some rq).
      { rewrite En2, En1. apply lookup_app_l_Some, lookup_app_l_Some, Hrq. }
      cbn [resumed] in Hh. rewrite Hk in Hh. cbn in Hh.
      assert (Hvp : forall l, verified_payment s'
                                (Resumed id (KVerify g) out :: l)).
      { intros l. exists id, g, out, rq.
        split; [left; reflexivity|]. split; [exact Hv|].
        split; [exact Hrq'|]. split; [exact Hm | exact Hu]. }
      split.
      * intros _. rewrite Hh. apply Hvp.
      * intros [|a h1] b h2 Hsplit; rewrite Hh in Hsplit; [discriminate|].
        injection Hsplit as <- _. apply Hvp.
Qed.

Lemma resumed_in_issued (ev : event) (s : sys) (c : call) :
  ~ In (Issued c) (resumed ev s).
Proof.
  destruct ev as [id out|f|u|i| | | | |w rsp|w rsp|w]; cbn; try tauto.
  destruct (pending s !! id); cbn; [|tauto]. intros [[=]|[]].
Qed.

End GateFacts.

Section GateClaims.
Import Api Gate.

Variable VITE_API_URL : option string.
Variable engine_message : exn -> string.

Local Abbreviation step := (Gate.step VITE_API_URL engine_message).
Local Abbreviation run := (Gate.run VITE_API_URL engine_message).
Local Abbreviation API := (Api.API VITE_API_URL).

(** C4.  Take any run of the scanner page, from any state.  If in it the
    analyze call was resumed with a response that signals "subscription
    required", and no payment was verified after that, the run ends with
    [showPaywall] set, whatever the advisory check reported and whether it
    settled before or after; and once the advisory check has settled
    during the run the paywall screen is what is rendered, and mounted. *)
Theorem denied_scan_blocks (evs : list event) (s s' : sys)
    (h1 h2 : list action) (id : nat) (r : response) :
  run evs s = Some s' ->
  log s' = log s ++ h1 ++ Resumed id KScan (Resp r) :: h2 ->
  subscription_required r = true ->
  Forall (fun a => paid a = false) h2 ->
  showPaywall (scanner s') = true
  /\ ((exists id' out, In (Resumed id' KAdvisory out) (h1 ++ h2)) ->
      render (scanner s') = PaywallView /\ is_Some (paywall s')).
Proof.
  intros Hrun Hlog Hr Hnp.
  assert (Hb : showPaywall (scanner s') = true)
    by (eapply run_denied; eassumption).
  split; [exact Hb|]. intros (id' & out & Hin).
  assert (Hc : subChecked (scanner s') = true).
  { apply (run_subChecked VITE_API_URL engine_message evs s s' _ Hrun Hlog).
    right. exists id', out.
    apply in_app_or in Hin as [Hin|Hin]; apply in_or_app;
      [left | right; right]; exact Hin. }
  assert (Hv : render (scanner s') = PaywallView)
    by (unfold render; rewrite Hc, Hb; reflexivity).
  split; [exact Hv|].
  apply (run_committed VITE_API_URL engine_message evs s s' Hrun); [|exact Hv].
  right. intros ->. cbn in Hrun. injection Hrun as <-.
  apply log_grows in Hlog. destruct h1; discriminate.
Qed.

(** C6.  Take any run of the scanner page from its mount, and any
    continuation of it that starts with the paywall flag set.  If the
    continuation ends with the flag lowered, its log holds a verified
    payment: a success of the POST to [/subscription/verify].  And every
    call of [/meals/analyze] issued in the continuation comes after such a
    verified payment. *)
Theorem payment_precedes_retry (st : state) (rzp : bool)
    (before evs : list event) (s s' : sys) (h : list action) :
  run before (mount VITE_API_URL st rzp) = Some s ->
  showPaywall (scanner s) = true ->
  run evs s = Some s' ->
  log s' = log s ++ h ->
  (showPaywall (scanner s') = false -> verified_payment VITE_API_URL s' h)
  /\ (forall h1 b h2,
        h = h1 ++ Issued (Post "/meals/analyze" b) :: h2 ->
        verified_payment VITE_API_URL s' h1).
Proof.
  intros Hbefore Hb Hrun Hlog.
  apply (run_payment_precedes VITE_API_URL engine_message evs s s' h);
    try assumption.
  apply (run_linked VITE_API_URL engine_message before _ s Hbefore),
        mount_linked.
Qed.

Lemma step_settle_defined (s : sys) (id : nat) (k : cont) (out : fetch_outcome) :
  pending s !! id = Some k ->
  exists s', step (Settle id out) s = Some s'.
Proof.
  intros Hk. unfold Gate.step. cbn. rewrite Hk. cbn. eauto.
Qed.

(** C5.  When the continuation of the verification call is resumed with a
    failure while the paywall is shown, the scanner's cells do not change
    (the paywall flag stays set and the paywall screen stays rendered), the
    paywall's error becomes the text "Payment verification failed. Contact
    support.", which the screen renders as its notification, which is not
    the generic payment-failure text and does not depend on the failure,
    and nothing is handed to [fetch]: no request is issued and none is left
    pending for it.  Moreover a verification request is only ever issued by
    the widget's success callback. *)
Theorem verification_failure_stays_blocked
    (s : sys) (id g : nat) (out : fetch_outcome) (p : paywall_state) :
  pending s !! id = Some (KVerify g) ->
  verified out = false ->
  render (scanner s) = PaywallView ->
  paywall s = Some (g, p) ->
  (exists s',
     step (Settle id out) s = Some s'
     /\ scanner s' = scanner s
     /\ render (scanner s') = PaywallView
     /\ paywall s'
        = Some (g, setPayError
                     (VStr "Payment verification failed. Contact support.") p)
     /\ sent (api s') = sent (api s)
     /\ pending s' = delete id (pending s)
     /\ log s' = log s ++ [Resumed id (KVerify g) out])
  /\ notification
       (setPayError (VStr "Payment verification failed. Contact support.") p)
     = Some (VStr "Payment verification failed. Contact support.")
  /\ verification_failed <> "Payment failed"
  /\ (forall ev s1 s2 b,
        step ev s1 = Some s2 ->
        In (Issued (Post "/subscription/verify" b))
           (drop (length (log s1)) (log s2)) ->
        exists w rsp, ev = WidgetSuccess w rsp).
Proof.
  intros Hk Hv Hr Hp. split; [|split; [reflexivity|split; [discriminate|]]].
  - unfold Gate.step. cbn [Gate.handle]. rewrite Hk. cbn [mbind option_bind].
    unfold verified in Hv. apply negb_false_iff in Hv.
    cbn [settle fst snd resume verify_settled req_resume].
    destruct (req_result out) as [v|e]; [discriminate|].
    destruct s as [a pd sc pw m w rz l]. cbn in Hp, Hr, Hk |- *. subst pw.
    unfold on_paywall. cbn. rewrite Nat.eqb_refl. cbn.
    eexists. split; [reflexivity|]. unfold Gate.commit. cbn. rewrite Hr. cbn.
    repeat split; try assumption.
    destruct out as [|r]; cbn; [reflexivity|].
    unfold req_line79. destruct (status r =? 401)%Z; reflexivity.
  - intros ev s1 s2 b (s0 & H0 & E)%step_log Hin.
    rewrite E, drop_app_length in Hin.
    apply in_app_or in Hin as [Hin|Hin].
    + apply resumed_in_issued in Hin. destruct Hin.
    + apply in_map_iff in Hin as (c & [= ->] & Hin).
      apply in_app_or in Hin as [Hin|Hin].
      * destruct ev as [id0 out0|f|u|i| | | | |w rsp|w rsp|w];
          cbn [handle_calls] in Hin; try (destruct Hin; fail); eauto.
        -- destruct (file (scanner s1)); [|destruct Hin].
           destruct Hin as [[=]|[]].
        -- destruct Hin as [[=]|[]].
      * unfold commit_calls in Hin.
        destruct (render (scanner s0)), (paywall s0); cbn in Hin;
          try contradiction.
        destruct Hin as [[=]|[]].
Qed.

(** C10.  When the continuation of the advisory status query is resumed,
    [subChecked] is set.  If the query failed (no response, or a
    non-success status) nothing else changes: the error is swallowed, and
    with the paywall flag down the scanner itself is rendered.  The flag is
    raised by this continuation only for a success whose decoded body has a
    falsy [active], and every such response brings up the paywall: one
    whose [active] is [false], but also one whose [active] is missing,
    [null], [0] or the empty string.  The status query of the paywall
    screen swallows its failure in the same way. *)
Theorem advisory_check_fails_open (s : sys) (id : nat) (out : fetch_outcome) :
  pending s !! id = Some KAdvisory ->
  exists s',
    step (Settle id out) s = Some s'
    /\ subChecked (scanner s') = true
    /\ (is_throw (req_result out) = true ->
        scanner s' = setSubChecked true (scanner s)
        /\ (showPaywall (scanner s) = false ->
            render (scanner s') = ScannerView))
    /\ (showPaywall (scanner s) = false ->
        showPaywall (scanner s') = true ->
        exists r v a,
          out = Resp r /\ ok r = true /\ json_body r = Some v
          /\ get v "active" = Return a /\ truthy a = false)
    /\ (forall r fs,
          out = Resp r -> ok r = true -> json_body r = Some (VObj fs) ->
          field "active" fs = Some (VBool false) ->
          render (scanner s') = PaywallView)
    /\ (forall r v a,
          out = Resp r -> ok r = true -> json_body r = Some v ->
          get v "active" = Return a -> truthy a = false ->
          showPaywall (scanner s') = true
          /\ render (scanner s') = PaywallView)
    /\ (forall id' g out',
          pending s !! id' = Some (KPaywallStatus g) ->
          is_throw (req_result out') = true ->
          exists s'',
            step (Settle id' out') s = Some s''
            /\ scanner s'' = scanner s
            /\ (committed s -> paywall s'' = paywall s)).
Proof.
  intros Hk. destruct (step_settle_defined s id KAdvisory out Hk) as [s' E].
  exists s'. split; [exact E|].
  assert (Hstatus : forall id' g out',
             pending s !! id' = Some (KPaywallStatus g) ->
             is_throw (req_result out') = true ->
             exists s'',
               step (Settle id' out') s = Some s''
               /\ scanner s'' = scanner s
               /\ (committed s -> paywall s'' = paywall s)).
  { intros id' g out' Hk' Ht. unfold Gate.step. cbn [Gate.handle].
    rewrite Hk'. cbn [mbind option_bind settle fst snd req_resume].
    destruct (req_result out') as [v|e]; [discriminate|].
    cbn [resume status_settled fmap option_fmap option_map].
    eexists. split; [reflexivity|].
    split; [rewrite scanner_commit; reflexivity|].
    unfold committed, Gate.commit. cbn [scanner paywall]. intros Hc.
    destruct (render (scanner s)), (paywall s) as [gp|];
      try reflexivity; exfalso;
      first [ discriminate (proj2 Hc (ex_intro _ gp eq_refl))
            | destruct (proj1 Hc eq_refl) as [? Hn]; discriminate Hn ]. }
  revert Hstatus.
  destruct (step_scanner VITE_API_URL engine_message _ _ _ E) as (s1 & H1 & Hsc).
  pose proof (handle_scanner VITE_API_URL engine_message _ _ _ H1) as Hs1.
  cbn in Hs1. rewrite Hk in Hs1. rewrite Hsc, Hs1. intros Hstatus.
  clear - Hstatus.
  split; [apply subChecked_advisory|].
  split; [|split; [|split; [|split]]].
  - intros Ht. unfold advisory_settled.
    destruct (req_result out) as [v|e]; [discriminate|]. cbn.
    split; [reflexivity|]. intros Hb. unfold render. cbn. rewrite Hb.
    reflexivity.
  - intros Hb Hu. unfold advisory_settled in Hu.
    destruct out as [|r]; cbn in Hu; [congruence|].
    unfold req_line80 in Hu. destruct (ok r) eqn:Hok; cbn in Hu; [|congruence].
    unfold json in Hu. destruct (json_body r) as [v|] eqn:Hv; cbn in Hu;
      [|congruence].
    destruct (get v "active") as [a|] eqn:Ha; cbn in Hu; [|congruence].
    destruct (truthy a) eqn:Hta; cbn in Hu; [congruence|].
    exists r, v, a. repeat split; assumption.
  - intros r fs -> Hok Hv Ha. unfold advisory_settled. cbn.
    unfold req_line80, json. rewrite Hok, Hv. cbn. rewrite Ha. reflexivity.
  - intros r v a -> Hok Hv Ha Hta. unfold advisory_settled. cbn [req_result].
    unfold req_line80, json. rewrite Hok, Hv. cbn [negb bind]. rewrite Ha, Hta.
    split; reflexivity.
  - exact Hstatus.
Qed.

End GateClaims.

(** * Properties of the dashboard reads *)

Section DashboardFacts.
Import Api Dashboard.

Variable VITE_API_URL : option string.

Lemma load_establishes (s : sys) :
  pending s = ∅ ->
  load_invariant (length (joins s)) (dash s) (load VITE_API_URL s).
Proof.
  intros He. exists (Join [None; None; None] None). cbn [load joins pending dash].
  rewrite He. split; [apply list_lookup_middle; reflexivity|].
  set (n := length (sent (api s))). set (j := length (joins s)).
  assert (Hlk : forall id jk,
             (<[(n + 2)%nat := (j, 2%nat)]>
                (<[(n + 1)%nat := (j, 1%nat)]>
                   (<[n := (j, 0%nat)]> (∅ : gmap nat (nat * nat))))) !! id
             = Some jk ->
             (id = (n + 2)%nat /\ jk = (j, 2%nat))
             \/ (id = (n + 1)%nat /\ jk = (j, 1%nat))
             \/ (id = n /\ jk = (j, 0%nat))).
  { intros id jk H.
    apply lookup_insert_Some in H as [[<- <-]|[_ H]]; [tauto|].
    apply lookup_insert_Some in H as [[<- <-]|[_ H]]; [tauto|].
    apply lookup_insert_Some in H as [[<- <-]|[_ H]]; [tauto|].
    rewrite lookup_empty in H. discriminate. }
  split.
  - intros id jk H. apply Hlk in H as [[_ ->]|[[_ ->]|[_ ->]]]; reflexivity.
  - cbn. split; [reflexivity|]. split.
    + intros id k H. apply Hlk in H as [[_ [= ->]]|[[_ [= ->]]|[_ [= ->]]]];
        reflexivity.
    + intros id1 id2 k H1 H2.
      apply Hlk in H1 as [[-> [= ->]]|[[-> [= ->]]|[-> [= ->]]]];
        apply Hlk in H2 as [[-> E]|[[-> E]|[-> E]]];
        first [reflexivity | discriminate E].
Qed.

Lemma mapM_id_filled (sl : list (option value)) (vs : list value) (k : nat) :
  mapM id sl = Some vs -> sl !! k <> Some None.
Proof.
  intros H Hk. apply mapM_Some in H.
  destruct (Forall2_lookup_l _ _ _ _ _ H Hk) as (y & _ & Hy). discriminate.
Qed.

Lemma settle_keeps (j : nat) (d : dashboard_state) (id : nat)
    (out : fetch_outcome) (s s' : sys) :
  load_invariant j d s ->
  settle id out s = Some s' ->
  load_invariant j d s'
  /\ (is_throw (req_result out) = true \/ join_rejected j s -> join_rejected j s').
Proof.
  intros (jn & Hj & Hown & Hcase) Hs. unfold settle in Hs.
  destruct (pending s !! id) as [[j' k]|] eqn:Hid; cbn in Hs; [|discriminate].
  pose proof (Hown _ _ Hid) as Hj'. cbn in Hj'. subst j'.
  rewrite Hj in Hs. cbn in Hs. injection Hs as <-.
  assert (Hlt : (j < length (joins s))%nat) by (eapply lookup_lt_Some, Hj).
  assert (Hown' : forall id0 jk,
             delete id (pending s) !! id0 = Some jk -> jk.1 = j).
  { intros id0 jk H. apply lookup_delete_Some in H as [_ H]. eapply Hown, H. }
  destruct (joined jn) as [[vs|e]|] eqn:Hjd.
  - rewrite Hcase, lookup_empty in Hid. discriminate.
  - assert (Hjd' : joined (element_settled k (req_result out) jn)
                   = Some (Throw e))
      by (unfold element_settled; destruct (req_result out); cbn;
          rewrite Hjd; reflexivity).
    split.
    + eexists. cbn [joins pending dash].
      split; [apply list_lookup_insert_eq, Hlt|].
      split; [exact Hown'|]. rewrite Hjd'. exact Hcase.
    + intros _. eexists _, e. cbn [joins].
      split; [apply list_lookup_insert_eq, Hlt | exact Hjd'].
  - destruct Hcase as (Hd & Hslots & Hinj).
    destruct (req_result out) as [v|e] eqn:Hres.
    + cbn [element_settled]. rewrite Hjd. cbn [joined].
      destruct (mapM Datatypes.id (<[k:=Some v]> (slots jn))) as [vs|] eqn:Hall;
        cbn [fmap option_fmap option_map].
      * assert (Hemp : delete id (pending s) = ∅).
        { apply map_empty. intros id0.
          destruct (delete id (pending s) !! id0) as [[j0 k0]|] eqn:H0;
            [exfalso|reflexivity].
          pose proof (Hown' _ _ H0) as Hj0. cbn in Hj0. subst j0.
          apply lookup_delete_Some in H0 as [Hne H0].
          apply (mapM_id_filled _ _ k0 Hall).
          rewrite list_lookup_insert_ne; [apply (Hslots _ _ H0)|].
          intros <-. apply Hne. eapply Hinj; eassumption. }
        split.
        -- eexists. cbn [joins pending dash].
           split; [apply list_lookup_insert_eq, Hlt|].
           split; [exact Hown'|]. cbn [joined]. exact Hemp.
        -- intros [Ht|(jn0 & e & Hj0 & He)]; [discriminate|].
           rewrite Hj in Hj0. injection Hj0 as <-. congruence.
      * split.
        -- eexists. cbn [joins pending dash].
           split; [apply list_lookup_insert_eq, Hlt|].
           split; [exact Hown'|]. cbn [joined].
           split; [exact Hd|]. split.
           ++ intros id0 k0 H0. apply lookup_delete_Some in H0 as [Hne H0].
              cbn [slots].
              rewrite list_lookup_insert_ne; [apply (Hslots _ _ H0)|].
              intros <-. apply Hne. eapply Hinj; eassumption.
           ++ intros id1 id2 k0 H1 H2.
              apply lookup_delete_Some in H1 as [_ H1].
              apply lookup_delete_Some in H2 as [_ H2].
              eapply Hinj; eassumption.
        -- intros [Ht|(jn0 & e & Hj0 & He)]; [discriminate|].
           rewrite Hj in Hj0. injection Hj0 as <-. congruence.
    + cbn [element_settled]. rewrite Hjd. cbn [joined load_settled].
      split.
      * eexists. cbn [joins pending dash].
        split; [apply list_lookup_insert_eq, Hlt|].
        split; [exact Hown'|]. cbn [joined]. rewrite Hd.
        split; reflexivity.
      * intros _. eexists _, e. cbn [joins].
        split; [apply list_lookup_insert_eq, Hlt | reflexivity].
Qed.

Lemma run_keeps (j : nat) (d : dashboard_state)
    (evs : list (nat * fetch_outcome)) (s s' : sys) :
  load_invariant j d s ->
  run evs s = Some s' ->
  load_invariant j d s'
  /\ (Exists (fun e => is_throw (req_result e.2) = true) evs \/ join_rejected j s ->
      join_rejected j s').
Proof.
  revert s. induction evs as [|[id out] evs IH]; intros s Hinv Hrun;
    cbn in Hrun.
  - injection Hrun as <-. split; [exact Hinv|].
    intros [H|H]; [inversion H | exact H].
  - destruct (settle id out s) as [s1|] eqn:E; cbn in Hrun; [|discriminate].
    destruct (settle_keeps j d id out s s1 Hinv E) as [Hinv1 Hrej1].
    destruct (IH s1 Hinv1 Hrun) as [Hinv' Hrej']. split; [exact Hinv'|].
    intros [H|H].
    + apply Exists_cons in H as [H|H]; apply Hrej'; [right|left; exact H].
      apply Hrej1. left. exact H.
    + apply Hrej'. right. apply Hrej1. right. exact H.
Qed.

Lemma stragglersb_sound (s : sys) : stragglersb s = true -> stragglers s.
Proof.
  unfold stragglersb. rewrite forallb_forall. intros H id j k Hid.
  apply elem_of_map_to_list, list_elem_of_In in Hid.
  apply H in Hid. cbn in Hid. apply andb_true_iff in Hid as [Hlt Hjn].
  split; [apply Nat.ltb_lt, Hlt|].
  destruct (joins s !! j) as [jn|]; [|discriminate].
  exists jn. split; [reflexivity|]. apply bool_decide_eq_true in Hjn. exact Hjn.
Qed.

Lemma load_starts (s : sys) :
  stragglers s ->
  join_invariant (length (sent (api s))) (length (joins s)) (dash s)
    (load VITE_API_URL s).
Proof.
  intros Hst. exists (Join [None; None; None] None).
  cbn [load joins pending dash].
  split; [apply list_lookup_middle; reflexivity|].
  set (n := length (sent (api s))). set (j := length (joins s)).
  assert (Hlk : forall id jk,
             (<[(n + 2)%nat := (j, 2%nat)]>
                (<[(n + 1)%nat := (j, 1%nat)]>
                   (<[n := (j, 0%nat)]> (pending s)))) !! id
             = Some jk ->
             (id = (n + 2)%nat /\ jk = (j, 2%nat))
             \/ (id = (n + 1)%nat /\ jk = (j, 1%nat))
             \/ (id = n /\ jk = (j, 0%nat))
             \/ pending s !! id = Some jk).
  { intros id jk H.
    apply lookup_insert_Some in H as [[<- <-]|[_ H]]; [tauto|].
    apply lookup_insert_Some in H as [[<- <-]|[_ H]]; [tauto|].
    apply lookup_insert_Some in H as [[<- <-]|[_ H]]; tauto. }
  assert (Hold : forall id k, pending s !! id <> Some (j, k)).
  { intros id k H. destruct (Hst _ _ _ H) as (_ & jn & Hjn & _).
    apply lookup_lt_Some in Hjn. unfold j in Hjn. lia. }
  split.
  - intros id j' k H.
    apply Hlk in H as [[-> [= -> ->]]|[[-> [= -> ->]]|[[-> [= -> ->]]|H]]];
      try (rewrite decide_True by reflexivity; lia).
    destruct (decide (j' = j)) as [->|Hne]; [destruct (Hold _ _ H)|].
    destruct (Hst _ _ _ H) as (Hlt & jn & Hjn & Hsome).
    split; [exact Hlt|]. exists jn.
    split; [|exact Hsome]. rewrite lookup_app_l; [exact Hjn|].
    eapply lookup_lt_Some, Hjn.
  - cbn. split; [reflexivity|]. split.
    + intros id k H.
      apply Hlk in H as [[_ [= ->]]|[[_ [= ->]]|[[_ [= ->]]|H]]];
        try reflexivity. destruct (Hold _ _ H).
    + intros id1 id2 k H1 H2.
      apply Hlk in H1 as [[-> [= ->]]|[[-> [= ->]]|[[-> [= ->]]|H1]]];
        try (destruct (Hold _ _ H1));
        apply Hlk in H2 as [[-> E]|[[-> E]|[[-> E]|H2]]];
        first [reflexivity | discriminate E | destruct (Hold _ _ H2)].
Qed.

Lemma settle_holds (n j : nat) (d : dashboard_state) (id : nat)
    (out : fetch_outcome) (s s' : sys) :
  join_invariant n j d s ->
  settle id out s = Some s' ->
  join_invariant n j d s'
  /\ ((n <= id)%nat /\ is_throw (req_result out) = true \/ join_rejected j s ->
      join_rejected j s').
Proof.
  intros (jn & Hj & Hown & Hcase) Hs. unfold settle in Hs.
  destruct (pending s !! id) as [[j' k]|] eqn:Hid; cbn in Hs; [|discriminate].
  pose proof (Hown _ _ _ Hid) as Hj'.
  assert (Hlt : (j < length (joins s))%nat) by (eapply lookup_lt_Some, Hj).
  destruct (decide (j' = j)) as [->|Hne].
  - (* a read of this load *)
    rewrite Hj in Hs. cbn in Hs. injection Hs as <-.
    assert (Hown' : forall id0 j0 k0,
               delete id (pending s) !! id0 = Some (j0, k0) ->
               if decide (j0 = j) then (n <= id0)%nat
               else (id0 < n)%nat
                    /\ exists jn',
                         <[j := element_settled k (req_result out) jn]> (joins s)
                         !! j0 = Some jn'
                         /\ is_Some (joined jn')).
    { intros id0 j0 k0 H. apply lookup_delete_Some in H as [_ H].
      pose proof (Hown _ _ _ H) as H0.
      destruct (decide (j0 = j)) as [->|Hne0]; [exact H0|].
      destruct H0 as (Hlt0 & jn' & Hjn' & Hsome). split; [exact Hlt0|].
      exists jn'. split; [|exact Hsome].
      rewrite list_lookup_insert_ne by congruence. exact Hjn'. }
    destruct (joined jn) as [[vs|e]|] eqn:Hjd.
    + destruct (Hcase _ _ Hid).
    + assert (Hjd' : joined (element_settled k (req_result out) jn)
                     = Some (Throw e))
        by (unfold element_settled; destruct (req_result out); cbn;
            rewrite Hjd; reflexivity).
      split.
      * eexists. cbn [joins pending dash].
        split; [apply list_lookup_insert_eq, Hlt|].
        split; [exact Hown'|]. rewrite Hjd'. exact Hcase.
      * intros _. eexists _, e. cbn [joins].
        split; [apply list_lookup_insert_eq, Hlt | exact Hjd'].
    + destruct Hcase as (Hd & Hslots & Hinj).
      destruct (req_result out) as [v|e] eqn:Hres.
      * cbn [element_settled] in Hown' |- *. rewrite Hjd in Hown' |- *.
        cbn [joined].
        destruct (mapM Datatypes.id (<[k:=Some v]> (slots jn))) as [vs|] eqn:Hall;
          cbn [fmap option_fmap option_map] in Hown' |- *.
        -- split.
           ++ eexists. cbn [joins pending dash].
              split; [apply list_lookup_insert_eq, Hlt|].
              split; [exact Hown'|]. cbn [joined].
              intros id0 k0 H0. apply lookup_delete_Some in H0 as [Hne H0].
              apply (mapM_id_filled _ _ k0 Hall).
              rewrite list_lookup_insert_ne; [apply (Hslots _ _ H0)|].
              intros <-. apply Hne. eapply Hinj; eassumption.
           ++ intros [[_ Ht]|(jn0 & e & Hj0 & He)]; [discriminate|].
              rewrite Hj in Hj0. injection Hj0 as <-. congruence.
        -- split.
           ++ eexists. cbn [joins pending dash].
              split; [apply list_lookup_insert_eq, Hlt|].
              split; [exact Hown'|]. cbn [joined].
              split; [exact Hd|]. split.
              ** intros id0 k0 H0. apply lookup_delete_Some in H0 as [Hne H0].
                 cbn [slots].
                 rewrite list_lookup_insert_ne; [apply (Hslots _ _ H0)|].
                 intros <-. apply Hne. eapply Hinj; eassumption.
              ** intros id1 id2 k0 H1 H2.
                 apply lookup_delete_Some in H1 as [_ H1].
                 apply lookup_delete_Some in H2 as [_ H2].
                 eapply Hinj; eassumption.
           ++ intros [[_ Ht]|(jn0 & e & Hj0 & He)]; [discriminate|].
              rewrite Hj in Hj0. injection Hj0 as <-. congruence.
      * cbn [element_settled] in Hown' |- *. rewrite Hjd in Hown' |- *.
        cbn [joined load_settled].
        split.
        -- eexists. cbn [joins pending dash].
           split; [apply list_lookup_insert_eq, Hlt|].
           split; [exact Hown'|]. cbn [joined]. rewrite Hd.
           split; reflexivity.
        -- intros _. eexists _, e. cbn [joins].
           split; [apply list_lookup_insert_eq, Hlt | reflexivity].
  - (* a read of an earlier load, whose joint promise has settled *)
    destruct Hj' as (Hlt' & jn' & Hjn' & o & Ho).
    rewrite Hjn' in Hs. cbn in Hs. injection Hs as <-.
    assert (Ho' : joined (element_settled k (req_result out) jn') = Some o)
      by (unfold element_settled; destruct (req_result out); cbn;
          rewrite Ho; reflexivity).
    rewrite Ho.
    assert (Hlt0 : (j' < length (joins s))%nat)
      by (eapply lookup_lt_Some, Hjn').
    split.
    + exists jn. cbn [joins pending dash].
      split; [rewrite list_lookup_insert_ne by congruence; exact Hj|].
      split.
      * intros id0 j0 k0 H. apply lookup_delete_Some in H as [_ H].
        pose proof (Hown _ _ _ H) as H0.
        destruct (decide (j0 = j)) as [->|Hne0]; [exact H0|].
        destruct H0 as (Hlt1 & jn0 & Hjn0 & Hsome). split; [exact Hlt1|].
        destruct (decide (j0 = j')) as [->|Hne1].
        -- eexists. split; [apply list_lookup_insert_eq, Hlt0|].
           rewrite Ho'. eexists; reflexivity.
        -- exists jn0. split; [|exact Hsome].
           rewrite list_lookup_insert_ne by congruence. exact Hjn0.
      * destruct (joined jn) as [[vs|e]|].
        -- intros id0 k0 H. apply lookup_delete_Some in H as [_ H].
           exact (Hcase _ _ H).
        -- exact Hcase.
        -- destruct Hcase as (Hd & Hslots & Hinj). split; [exact Hd|]. split.
           ++ intros id0 k0 H. apply lookup_delete_Some in H as [_ H].
              exact (Hslots _ _ H).
           ++ intros id1 id2 k0 H1 H2.
              apply lookup_delete_Some in H1 as [_ H1].
              apply lookup_delete_Some in H2 as [_ H2].
              eapply Hinj; eassumption.
    + intros [[Hge _]|(jn0 & e & Hj0 & He)]; [lia|].
      exists jn0, e. cbn [joins].
      split; [rewrite list_lookup_insert_ne by congruence; exact Hj0|exact He].
Qed.

Lemma run_holds (n j : nat) (d : dashboard_state)
    (evs : list (nat * fetch_outcome)) (s s' : sys) :
  join_invariant n j d s ->
  run evs s = Some s' ->
  join_invariant n j d s'
  /\ (Exists (fun e => (n <= e.1)%nat /\ is_throw (req_result e.2) = true) evs
      \/ join_rejected j s ->
      join_rejected j s').
Proof.
  revert s. induction evs as [|[id out] evs IH]; intros s Hinv Hrun;
    cbn in Hrun.
  - injection Hrun as <-. split; [exact Hinv|].
    intros [H|H]; [inversion H | exact H].
  - destruct (settle id out s) as [s1|] eqn:E; cbn in Hrun; [|discriminate].
    destruct (settle_holds n j d id out s s1 Hinv E) as [Hinv1 Hrej1].
    destruct (IH s1 Hinv1 Hrun) as [Hinv' Hrej']. split; [exact Hinv'|].
    intros [H|H].
    + apply Exists_cons in H as [H|H]; apply Hrej'; [right|left; exact H].
      apply Hrej1. left. exact H.
    + apply Hrej'. right. apply Hrej1. right. exact H.
Qed.

Lemma sent_load (s : sys) :
  sent (api (load VITE_API_URL s))
  = sent (api s)
    ++ map (fun c => issued VITE_API_URL c (api s)) dashboard_reads.
Proof.
  cbn. rewrite <- !app_assoc. reflexivity.
Qed.

(** C9.  [load] hands the three reads [/dashboard/today],
    [/dashboard/history?days=7] and [/dashboard/stats] to [fetch] one
    after the other before anything is awaited.  With no other load in
    flight (reads of earlier loads may still be pending, if their joint
    promise has settled), if in a run of settlements (in any order) one
    of the three reads fails, the joint promise is rejected, none of
    [today], [history], [stats] is written, and [loading] is switched
    off. *)
Theorem dashboard_join_fails_whole
    (s s' : sys) (evs : list (nat * fetch_outcome)) :
  stragglers s ->
  run evs (load VITE_API_URL s) = Some s' ->
  Exists (fun e => (length (sent (api s)) <= e.1)%nat
                   /\ is_throw (req_result e.2) = true) evs ->
  sent (api (load VITE_API_URL s))
  = sent (api s)
    ++ [issued VITE_API_URL (Get "/dashboard/today") (api s);
        issued VITE_API_URL (Get "/dashboard/history?days=7") (api s);
        issued VITE_API_URL (Get "/dashboard/stats") (api s)]
  /\ map (fun rq => (method rq, url rq))
         (drop (length (sent (api s))) (sent (api (load VITE_API_URL s))))
     = [("GET", API VITE_API_URL +:+ "/dashboard/today");
        ("GET", API VITE_API_URL +:+ "/dashboard/history?days=7");
        ("GET", API VITE_API_URL +:+ "/dashboard/stats")]
  /\ (exists jn e, joins s' !! length (joins s) = Some jn
                   /\ joined jn = Some (Throw e))
  /\ shown (dash s') = shown (dash s)
  /\ loading (dash s') = false.
Proof.
  intros Hst Hrun Hfail. split; [apply sent_load|].
  split; [rewrite sent_load, drop_app_length; reflexivity|].
  destruct (run_holds _ _ _ evs _ s' (load_starts s Hst) Hrun)
    as [(jn & Hj & _ & Hcase) Hrej].
  destruct (Hrej (or_introl Hfail)) as (jn' & e & Hj' & He').
  split; [exists jn', e; split; assumption|].
  rewrite Hj in Hj'. injection Hj' as <-. rewrite He' in Hcase. exact Hcase.
Qed.

End DashboardFacts.

(** * Properties of the offline cache *)

Section OfflineCacheFacts.
Import Sw.

Lemma prefix_append (p s : string) : String.prefix p (p +:+ s) = true.
Proof.
  induction p as [|a p IH]; simpl; [destruct s; reflexivity|].
  destruct (ascii_dec a a); [exact IH | congruence].
Qed.

Lemma includes_unfold (p s : string) :
  includes p s
  = String.prefix p s
    || match s with
       | EmptyString => false
       | String _ s' => includes p s'
       end.
Proof. destruct s; reflexivity. Qed.

Lemma includes_here (p s : string) : includes p (p +:+ s) = true.
Proof. rewrite includes_unfold, prefix_append. reflexivity. Qed.

Lemma includes_later (p x s : string) :
  includes p s = true -> includes p (x +:+ s) = true.
Proof.
  intros H. induction x as [|a x IH]; [exact H|].
  change (String a x +:+ s) with (String a (x +:+ s)).
  rewrite includes_unfold. cbv beta iota. rewrite IH. apply orb_true_r.
Qed.

Lemma append_assoc (a b c : string) : (a +:+ b) +:+ c = a +:+ (b +:+ c).
Proof.
  induction a as [|x a IH]; [reflexivity|].
  change (String x ((a +:+ b) +:+ c) = String x (a +:+ (b +:+ c))).
  f_equal. exact IH.
Qed.

(** Every URL that [api.req] builds from a path starting with a slash
    holds ["/api/"]. *)
Lemma api_url_includes (VITE_API_URL : option string) (path : string) :
  starts_with "/" path = true ->
  includes "/api/" (Api.API VITE_API_URL +:+ path) = true.
Proof.
  intros H. destruct path as [|a path]; [discriminate|].
  unfold starts_with in H. cbn [String.prefix] in H.
  destruct (ascii_dec "/" a) as [<-|]; [|discriminate].
  unfold Api.API. rewrite append_assoc. apply includes_later.
  exact (includes_here "/api/" path).
Qed.

Lemma has_cache_open (name : string) (cs : cache_storage) :
  has_cache name (caches_open name cs) = true.
Proof.
  unfold caches_open. destruct (has_cache name cs) eqn:H; [exact H|].
  unfold has_cache. rewrite existsb_app. cbn.
  rewrite String.eqb_refl. apply orb_true_iff. right. reflexivity.
Qed.

Lemma storable_get (rq : request) (r : response) :
  storable rq r = true -> is_get rq = true.
Proof.
  unfold storable. intros H.
  apply andb_true_iff in H as [H _]. apply andb_true_iff in H as [H _].
  apply andb_true_iff in H as [_ H]. exact H.
Qed.

Lemma storable_vary (rq : request) (r : response) :
  storable rq r = true -> existsb (String.eqb "*") (vary r) = false.
Proof.
  unfold storable. intros H. apply andb_true_iff in H as [_ H].
  apply negb_true_iff, H.
Qed.

Lemma matches_stored (rq : request) (r : response) :
  storable rq r = true -> matches rq (Entry rq r) = true.
Proof.
  intros H. unfold matches. cbn [entry_request entry_response].
  rewrite (storable_get _ _ H), String.eqb_refl. cbn [andb].
  apply storable_vary in H. apply forallb_forall. intros f Hf.
  rewrite bool_decide_eq_true_2 by reflexivity. rewrite andb_true_r.
  apply negb_true_iff, not_true_is_false. intros E.
  apply String.eqb_eq in E. subst f.
  assert (Hs : existsb (String.eqb "*") (vary r) = true)
    by (apply existsb_exists; exists "*"; split;
        [exact Hf | apply String.eqb_refl]).
  congruence.
Qed.

Lemma find_removed {A : Type} (p : A -> bool) (l : list A) (x : A) :
  List.find p (List.filter (fun e => negb (p e)) l ++ [x])
  = if p x then Some x else None.
Proof.
  induction l as [|a l IH]; [reflexivity|]. cbn [List.filter].
  destruct (p a) eqn:E; cbn [negb]; [exact IH|].
  cbn [app List.find]. rewrite E. exact IH.
Qed.

Lemma query_put (rq : request) (r : response) (c : list entry) :
  storable rq r = true -> query rq (put rq r c) = Some r.
Proof.
  intros H. unfold query, put. rewrite H, find_removed, matches_stored by exact H.
  reflexivity.
Qed.

Lemma put_refused (rq : request) (r : response) (c : list entry) :
  storable rq r = false -> put rq r c = c.
Proof. intros H. unfold put. rewrite H. reflexivity. Qed.

Lemma cache_put_refused (name : string) (rq : request) (r : response)
    (cs : cache_storage) :
  storable rq r = false -> cache_put name rq r cs = cs.
Proof.
  intros H. induction cs as [|[n c] cs IH]; [reflexivity|]. cbn.
  destruct (String.eqb n name); [rewrite put_refused by exact H|rewrite IH];
    reflexivity.
Qed.

Lemma cache_match_put (name : string) (rq : request) (r : response)
    (cs : cache_storage) :
  storable rq r = true -> has_cache name cs = true ->
  cache_match name rq (cache_put name rq r cs) = Some r.
Proof.
  intros Hs. induction cs as [|[n c] cs IH]; cbn; [discriminate|].
  destruct (String.eqb n name) eqn:E; cbn; rewrite E.
  - intros _. apply query_put, Hs.
  - exact IH.
Qed.

(** After activation every cache is called [CACHE_NAME]. *)
Lemma activate_names (cs : cache_storage) :
  Forall (fun c => fst c = CACHE_NAME) (activate cs).
Proof.
  unfold activate.
  assert (Hdel : forall ks acc c,
             In c (fold_left (fun a k => caches_delete k a) ks acc) ->
             In c acc /\ ~ In (fst c) ks).
  { induction ks as [|k ks IH]; intros acc c Hin; cbn in Hin; [auto|].
    apply IH in Hin as [Hin Hks]. unfold caches_delete in Hin.
    apply filter_In in Hin as [Hin Hne]. split; [exact Hin|].
    intros [Heq|Hk]; [|exact (Hks Hk)].
    rewrite Heq, String.eqb_refl in Hne. discriminate. }
  apply Forall_forall. intros c Hin. apply list_elem_of_In in Hin.
  apply Hdel in Hin as [Hin Hnot].
  destruct (String.eqb (fst c) CACHE_NAME) eqn:E;
    [apply String.eqb_eq, E|].
  exfalso. apply Hnot. apply filter_In. split.
  - unfold caches_keys. apply in_map, Hin.
  - rewrite E. reflexivity.
Qed.

Lemma caches_match_put_head (rq : request) (r : response) (cs : cache_storage) :
  storable rq r = true ->
  Forall (fun c => fst c = CACHE_NAME) cs ->
  caches_match rq (complete (Write rq r) cs) = Some r.
Proof.
  intros Hs Hall. unfold complete. cbn [write_request write_response].
  destruct cs as [|[n c] cs].
  - cbn. rewrite query_put by exact Hs. reflexivity.
  - apply Forall_inv in Hall. cbn in Hall. subst n.
    unfold caches_open. cbn. rewrite query_put by exact Hs. reflexivity.
Qed.

Lemma caches_match_open (name : string) (rq : request) (cs : cache_storage) :
  caches_match rq (caches_open name cs) = caches_match rq cs.
Proof.
  unfold caches_open. destruct (has_cache name cs); [reflexivity|].
  induction cs as [|[n c] cs IH]; cbn; [reflexivity|].
  rewrite IH. reflexivity.
Qed.

Lemma served_success (rq : request) (r : response) (cs : cache_storage) :
  includes "/api/" (url rq) = false -> ok r = true ->
  fst (served rq (Resp r) cs) = Respond r
  /\ (storable rq r = true ->
      cache_match CACHE_NAME rq (snd (served rq (Resp r) cs)) = Some r)
  /\ (storable rq r = false ->
      forall rq', caches_match rq' (snd (served rq (Resp r) cs))
                  = caches_match rq' cs).
Proof.
  intros Hu Hok. unfold served, on_fetch. rewrite Hu, Hok. cbn.
  split; [reflexivity|]. split.
  - intros Hs. apply cache_match_put; [exact Hs | apply has_cache_open].
  - intros Hs rq'. unfold complete. cbn [write_request write_response].
    rewrite cache_put_refused by exact Hs. apply caches_match_open.
Qed.

Lemma served_error_status (rq : request) (r : response) (cs : cache_storage) :
  includes "/api/" (url rq) = false -> ok r = false ->
  served rq (Resp r) cs = (Respond r, cs).
Proof.
  intros Hu Hok. unfold served, on_fetch. rewrite Hu, Hok. reflexivity.
Qed.

Lemma served_offline (rq : request) (cs : cache_storage) :
  includes "/api/" (url rq) = false ->
  served rq NetFail cs
  = (match caches_match rq cs with
     | Some r => Respond r
     | None => NetworkError
     end, cs).
Proof. intros Hu. unfold served, on_fetch. rewrite Hu. reflexivity. Qed.

Lemma served_last_store (rq : request) (r : response) (cs : cache_storage) :
  includes "/api/" (url rq) = false -> ok r = true -> storable rq r = true ->
  caches_match rq (snd (served rq (Resp r) (activate cs))) = Some r.
Proof.
  intros Hu Hok Hs. unfold served, on_fetch. rewrite Hu, Hok.
  cbn [fold_left snd].
  apply caches_match_put_head; [exact Hs | apply activate_names].
Qed.

(** What a request matches depends on its method, its URL without the
    fragment and its headers only. *)
Lemma matches_key (rq rq' : request) (e : entry) :
  is_get rq' = is_get rq ->
  strip_fragment (url rq') = strip_fragment (url rq) ->
  headers rq' = headers rq ->
  matches rq' e = matches rq e.
Proof. intros Hg Hu Hh. unfold matches. rewrite Hg, Hu, Hh. reflexivity. Qed.

Lemma caches_match_key (rq rq' : request) (cs : cache_storage) :
  is_get rq' = is_get rq ->
  strip_fragment (url rq') = strip_fragment (url rq) ->
  headers rq' = headers rq ->
  caches_match rq' cs = caches_match rq cs.
Proof.
  intros Hg Hu Hh.
  assert (Hq : forall c, query rq' c = query rq c).
  { intros c. unfold query. f_equal. induction c as [|e c IH]; [reflexivity|].
    cbn [List.find]. rewrite (matches_key rq rq' e Hg Hu Hh), IH.
    reflexivity. }
  induction cs as [|[n c] cs IH]; [reflexivity|]. cbn.
  rewrite Hq, IH. reflexivity.
Qed.

(** C7.  For a GET request whose URL does not hold ["/api/"] the worker
    goes to the network first.  A success response is returned; it is
    stored in the cache [CACHE_NAME] under the request when the Cache API
    accepts the pair, and when it does not (a response with status 206 or
    with a star in its [Vary], a URL that is not http or https) nothing is
    stored and every fallback is as before.  A non-success response is
    returned as it is, with no fallback and nothing stored; when the
    network fails the entry that [caches.match] finds is served, and the
    requester gets a network error when there is none.  In the storage of
    an activated worker the entry found is the one stored last.  The key
    of an entry is the URL without its fragment, with the headers of the
    request: requests that agree on them have the same fallback. *)
Theorem network_first (rq : request) (cs : cache_storage) :
  is_get rq = true ->
  includes "/api/" (url rq) = false ->
  (forall r, ok r = true ->
     fst (served rq (Resp r) cs) = Respond r
     /\ (storable rq r = true ->
         cache_match CACHE_NAME rq (snd (served rq (Resp r) cs)) = Some r)
     /\ (storable rq r = false ->
         forall rq', caches_match rq' (snd (served rq (Resp r) cs))
                     = caches_match rq' cs))
  /\ (forall r, ok r = false -> served rq (Resp r) cs = (Respond r, cs))
  /\ served rq NetFail cs
     = (match caches_match rq cs with
        | Some r => Respond r
        | None => NetworkError
        end, cs)
  /\ (forall r, ok r = true -> storable rq r = true ->
        caches_match rq (snd (served rq (Resp r) (activate cs))) = Some r)
  /\ (forall rq' cs',
        is_get rq' = true ->
        strip_fragment (url rq') = strip_fragment (url rq) ->
        headers rq' = headers rq ->
        caches_match rq' cs' = caches_match rq cs').
Proof.
  intros Hg Hu. split; [|split; [|split; [|split]]].
  - intros r Hok. apply served_success; assumption.
  - intros r Hok. apply served_error_status; assumption.
  - apply served_offline, Hu.
  - intros r Hok Hs. apply served_last_store; assumption.
  - intros rq' cs' Hg' Hu' Hh. apply caches_match_key; congruence.
Qed.

(** C8.  In an activated worker, a request outside the API that was
    fetched successfully once, with a response that the Cache API accepts
    for it, is answered with that response when the network is
    unreachable at the next request.  A request for a URL built by
    [api.req] (any path starting with a slash, [/meals/analyze] among
    them) is never handled by the worker: whatever the caches hold, the
    requester gets the network's response, and a network failure when the
    network fails. *)
Theorem store_then_serve (VITE_API_URL : option string)
    (rq : request) (r : response) (cs : cache_storage) :
  includes "/api/" (url rq) = false ->
  ok r = true ->
  storable rq r = true ->
  fst (served rq NetFail (snd (served rq (Resp r) (activate cs)))) = Respond r
  /\ (forall (c : Api.call) (st : Api.state) arq net cs',
        starts_with "/" (Api.call_path c) = true ->
        url arq = Api.url (Api.issued VITE_API_URL c st) ->
        on_fetch arq net cs' = None
        /\ fst (served arq NetFail cs') = NetworkError
        /\ forall r', fst (served arq (Resp r') cs') = Respond r').
Proof.
  intros Hu Hok Hs. split.
  - rewrite (served_offline rq _ Hu), (served_last_store rq r cs Hu Hok Hs).
    reflexivity.
  - intros c st arq net cs' Hp Harq.
    assert (Ha : includes "/api/" (url arq) = true)
      by (rewrite Harq; apply api_url_includes, Hp).
    unfold served, on_fetch. rewrite Ha. repeat split.
Qed.

End OfflineCacheFacts.

(** * The properties at work on concrete runs *)

Import GateExamples DashboardExamples CacheExamples.

Lemma denied_scan_blocks_witness :
  Gate.run None engine_message to_denial mounted = Some blocked
  /\ Gate.subscription_required denied = true
  /\ Gate.showPaywall (Gate.scanner blocked) = true
  /\ Gate.render (Gate.scanner blocked) = Gate.PaywallView.
Proof.
  assert (Hrun : Gate.run None engine_message to_denial mounted = Some blocked)
    by (vm_compute; reflexivity).
  split; [exact Hrun|]. split; [reflexivity|].
  destruct (denied_scan_blocks None engine_message to_denial mounted blocked
              [Gate.Resumed 0 Gate.KAdvisory active;
               Gate.Issued (Api.Post "/meals/analyze"
                              (Api.PForm [("photo", "lunch.jpg");
                                          ("meal_type", "lunch")]))]
              [Gate.Issued (Api.Get "/subscription/status")]
              1 denied Hrun)
    as [Hb Hv].
  - vm_compute; reflexivity.
  - reflexivity.
  - repeat constructor.
  - split; [exact Hb|]. apply Hv. exists 0%nat, active. left. reflexivity.
Defined.

(** The other order: the denial is handled first, the advisory check then
    reports an active subscription, and the paywall stays. *)
Example denied_before_advisory :
  Gate.render (Gate.scanner
     (after [Gate.Settle 1 (Api.Resp denied); Gate.Settle 0 active] racing))
  = Gate.PaywallView
  /\ Gate.render (Gate.scanner (after [Gate.Settle 1 (Api.Resp denied)] racing))
     = Gate.LoadingView.
Proof. split; vm_compute; reflexivity. Qed.

Lemma verification_failure_stays_blocked_witness :
  Gate.pending verifying !! 4%nat = Some (Gate.KVerify 0)
  /\ Gate.verified refused = false
  /\ exists s',
       Gate.step None engine_message (Gate.Settle 4 refused) verifying = Some s'
       /\ Gate.render (Gate.scanner s') = Gate.PaywallView
       /\ (Gate.notification <$> (snd <$> Gate.paywall s'))
          = Some (Some (VStr "Payment verification failed. Contact support.")).
Proof.
  assert (Hk : Gate.pending verifying !! 4%nat = Some (Gate.KVerify 0))
    by (vm_compute; reflexivity).
  assert (Hr : Gate.render (Gate.scanner verifying) = Gate.PaywallView)
    by (vm_compute; reflexivity).
  assert (Hp : Gate.paywall verifying
               = Some (0%nat, Gate.Paywall VNull true VNull))
    by (vm_compute; reflexivity).
  split; [exact Hk|]. split; [reflexivity|].
  destruct (verification_failure_stays_blocked None engine_message
              verifying 4 0 refused (Gate.Paywall VNull true VNull)
              Hk eq_refl Hr Hp)
    as [(s' & E & _ & Hr' & Hp' & _) _].
  exists s'. split; [exact E|]. split; [exact Hr'|]. rewrite Hp'. reflexivity.
Defined.

Lemma payment_precedes_retry_witness :
  Gate.run None engine_message to_denial (Gate.mount None stored true)
  = Some blocked
  /\ Gate.showPaywall (Gate.scanner blocked) = true
  /\ Gate.run None engine_message
       (to_verification ++ [Gate.Settle 4 entitled; Gate.ClickScan]) blocked
     = Some retried
  /\ Gate.verified_payment None retried
       [Gate.Issued (Api.Post "/subscription/create-order" (Api.PValue VUndef));
        Gate.Resumed 3 (Gate.KCreateOrder 0) order;
        Gate.Issued (Api.Post "/subscription/verify" (Api.PValue confirmation));
        Gate.Resumed 4 (Gate.KVerify 0) entitled].
Proof.
  assert (H1 : Gate.run None engine_message to_denial
                 (Gate.mount None stored true) = Some blocked)
    by (vm_compute; reflexivity).
  assert (H2 : Gate.run None engine_message
                 (to_verification ++ [Gate.Settle 4 entitled; Gate.ClickScan])
                 blocked = Some retried)
    by (vm_compute; reflexivity).
  split; [exact H1|]. split; [reflexivity|]. split; [exact H2|].
  refine (proj2 (payment_precedes_retry None engine_message stored true
                   to_denial _ blocked retried _ H1 eq_refl H2 _) _ _ _ _).
  - vm_compute; reflexivity.
  - reflexivity.
Defined.

(** The scenario of the specification: denied, paid, verified, scanned
    again; the paywall is gone and the second analyze call is the last
    thing issued. *)
Example retry_after_payment :
  Gate.render (Gate.scanner retried) = Gate.ScannerView
  /\ Gate.paywall retried = None
  /\ last (Gate.log retried)
     = Some (Gate.Issued
               (Api.Post "/meals/analyze"
                  (Api.PForm [("photo", "lunch.jpg"); ("meal_type", "lunch")]))).
Proof. repeat split; vm_compute; reflexivity. Qed.

Lemma advisory_check_fails_open_witness :
  Gate.pending mounted !! 0%nat = Some Gate.KAdvisory
  /\ exists s',
       Gate.step None engine_message (Gate.Settle 0 Api.NetFail) mounted = Some s'
       /\ Gate.render (Gate.scanner s') = Gate.ScannerView.
Proof.
  split; [reflexivity|].
  destruct (advisory_check_fails_open None engine_message mounted 0 Api.NetFail
              eq_refl) as (s' & E & _ & Hf & _).
  exists s'. split; [exact E|]. apply Hf; reflexivity.
Defined.

(** A success whose body has no [active] member at all brings up the
    paywall. *)
Lemma advisory_paywall_without_active :
  Api.ok (Api.Response 200 (Some (VObj []))) = true
  /\ field "active" [] = None
  /\ (Gate.render <$>
        (Gate.scanner <$>
           Gate.step None engine_message (Gate.Settle 0 no_status) mounted))
     = Some Gate.PaywallView.
Proof. repeat split. Qed.

Lemma dashboard_join_fails_whole_witness :
  Dashboard.stragglersb lagging = true
  /\ Dashboard.run late_settlements (Dashboard.load None lagging) = Some relapsed
  /\ map (fun rq => (Api.method rq, Api.url rq))
         (drop 3 (Api.sent (Dashboard.api (Dashboard.load None lagging))))
     = [("GET", "http://localhost:8000/api/dashboard/today");
        ("GET", "http://localhost:8000/api/dashboard/history?days=7");
        ("GET", "http://localhost:8000/api/dashboard/stats")]
  /\ Dashboard.shown (Dashboard.dash relapsed) = (VNull, VNull, VNull)
  /\ Dashboard.loading (Dashboard.dash relapsed) = false.
Proof.
  assert (Hst : Dashboard.stragglersb lagging = true)
    by (vm_compute; reflexivity).
  assert (Hrun : Dashboard.run late_settlements (Dashboard.load None lagging)
                 = Some relapsed) by (vm_compute; reflexivity).
  split; [exact Hst|]. split; [exact Hrun|].
  destruct (dashboard_join_fails_whole None lagging relapsed late_settlements
              (stragglersb_sound lagging Hst) Hrun)
    as (_ & Hreads & _ & Hs & Hl).
  - apply Exists_cons_tl, Exists_cons_hd. split; [|reflexivity].
    vm_compute. repeat constructor.
  - split; [exact Hreads|]. split; [exact Hs | exact Hl].
Defined.

Lemma network_first_witness :
  Sw.is_get page = true
  /\ includes "/api/" (Sw.url page) = false
  /\ Sw.served page Sw.NetFail storage
     = (Sw.Respond (Sw.Response 200 "<html>v1</html>" []), storage)
  /\ Sw.caches_match anchor storage
     = Some (Sw.Response 200 "<html>v1</html>" []).
Proof.
  split; [reflexivity|]. split; [reflexivity|].
  destruct (network_first page storage eq_refl eq_refl) as (_ & _ & H & _ & Hk).
  split; [exact H|].
  rewrite (Hk anchor storage eq_refl eq_refl eq_refl). reflexivity.
Defined.

(** A partial answer (status 206) is a success and is returned, but the
    Cache API refuses it: nothing is stored under the request. *)
Lemma partial_content_is_not_stored :
  Sw.ok ranged = true
  /\ fst (Sw.served page (Sw.Resp ranged) []) = Sw.Respond ranged
  /\ Sw.cache_match Sw.CACHE_NAME page (snd (Sw.served page (Sw.Resp ranged) []))
     = None
  /\ Sw.ok varying = true
  /\ Sw.cache_match Sw.CACHE_NAME page (snd (Sw.served page (Sw.Resp varying) []))
     = None.
Proof. repeat split. Qed.

Lemma store_then_serve_witness :
  includes "/api/" (Sw.url page) = false
  /\ Sw.ok fresh = true
  /\ Sw.storable page fresh = true
  /\ fst (Sw.served page Sw.NetFail
            (snd (Sw.served page (Sw.Resp fresh) (Sw.activate storage))))
     = Sw.Respond fresh.
Proof.
  split; [reflexivity|]. split; [reflexivity|]. split; [reflexivity|].
  exact (proj1 (store_then_serve None page fresh storage
                  eq_refl eq_refl eq_refl)).
Defined.

(** After a successful fetch whose answer has status 206, the same
    request made while the network is unreachable gets a network error. *)
Lemma partial_content_is_not_served :
  Sw.ok ranged = true
  /\ fst (Sw.served page (Sw.Resp ranged) (Sw.activate storage))
     = Sw.Respond ranged
  /\ fst (Sw.served page Sw.NetFail
            (snd (Sw.served page (Sw.Resp ranged) (Sw.activate storage))))
     = Sw.NetworkError.
Proof. repeat split. Qed.

(** * Further properties of the gateway *)

Section GatewayMore.
Import Api.

Variable VITE_API_URL : option string.

(** X1.  A token stored by [setToken] is what the module starts with after
    a page load: the string itself when the token is a string, its printed
    form otherwise (a login response without [token] leaves the text
    ["undefined"] behind, which the reloaded page takes for a credential). *)
Theorem token_survives_reload (t : value) (st : state) :
  token (page_load (localStorage (setToken t st))) = VStr (to_string t)
  /\ (forall s, t = VStr s ->
        token (page_load (localStorage (setToken t st))) = token (setToken t st))
  /\ (t = VUndef ->
        truthy (token (setToken t st)) = false
        /\ authed_on_load (page_load (localStorage (setToken t st))) = true).
Proof.
  assert (H : token (page_load (localStorage (setToken t st)))
              = VStr (to_string t)).
  { unfold page_load, getItem, setToken. cbn [token localStorage with_storage with_token].
    rewrite lookup_insert_eq. reflexivity. }
  split; [exact H|]. split.
  - intros s ->. rewrite H. reflexivity.
  - intros ->. split; [reflexivity|].
    unfold authed_on_load. rewrite H. reflexivity.
Qed.

Lemma step_other_keys (o : op) (st : state) (k : string) :
  k <> "ns_token" ->
  localStorage (step VITE_API_URL o st) !! k = localStorage st !! k.
Proof.
  intros Hk. destruct o as [c|out|t| |]; cbn; try reflexivity.
  - destruct out as [|r]; cbn; [reflexivity|].
    unfold req_line79. destruct (status r =? 401)%Z; [|reflexivity].
    cbn. apply lookup_delete_ne. congruence.
  - apply lookup_insert_ne. congruence.
  - apply lookup_delete_ne. congruence.
Qed.

(** X2.  No operation of the gateway (a call, a settled request with any
    status, a login, a logout, a reload) changes an entry of localStorage
    other than [ns_token]. *)
Theorem gateway_keeps_other_keys (ops : list op) (st : state) (k : string) :
  k <> "ns_token" ->
  localStorage (run VITE_API_URL ops st) !! k = localStorage st !! k.
Proof.
  intros Hk. revert st. induction ops as [|o ops IH]; intros st; [reflexivity|].
  cbn. unfold run in IH. rewrite IH. apply step_other_keys, Hk.
Qed.

(** X3.  A request built by one of the four wrappers carries the header
    [Authorization: Bearer <token>] exactly when [api.token] is truthy, and
    no [Authorization] header otherwise. *)
Theorem authorization_of_call (c : call) (st : state) :
  headers (issued VITE_API_URL c st) !! "Authorization"
  = if truthy (token st)
    then Some ("Bearer " +:+ to_string (token st))
    else None.
Proof.
  unfold issued, req_request, req_headers. cbn [headers].
  assert (Hh : opt_headers (call_options c) = None)
    by (destruct c as [|? []| |]; reflexivity).
  rewrite Hh. cbn [default].
  destruct (negb (is_form_data _)); [rewrite lookup_insert_ne by discriminate|];
    (destruct (truthy (token st));
     [apply lookup_insert_eq | apply lookup_empty]).
Qed.

(** X4.  Every wrapper call is sent as JSON ([Content-Type:
    application/json], also for GET and DELETE) except the multipart
    upload, a [post] of a [FormData], which carries no [Content-Type]
    header of its own. *)
Theorem content_type_of_call (c : call) (st : state) :
  headers (issued VITE_API_URL c st) !! "Content-Type"
  = match c with
    | Post _ (PForm _) => None
    | _ => Some "application/json"
    end.
Proof.
  unfold issued, req_request, req_headers. cbn [headers].
  assert (Hh : opt_headers (call_options c) = None)
    by (destruct c as [|? []| |]; reflexivity).
  rewrite Hh. cbn [default].
  assert (Hf : is_form_data (opt_body (call_options c))
               = match c with Post _ (PForm _) => true | _ => false end).
  { destruct c as [p|p [fd|v]|p v|p]; try reflexivity; destruct v; reflexivity. }
  rewrite Hf.
  destruct c as [p|p [fd|v]|p v|p]; cbn [negb];
    try apply lookup_insert_eq;
    destruct (truthy (token st));
    rewrite ?lookup_insert_ne by discriminate; apply lookup_empty.
Qed.

(** X5.  A response with a success status whose body is not JSON (an empty
    204, say) makes the call fail with the decoder's error although the
    server succeeded; the session is left as it is. *)
Theorem success_without_json_fails (r : response) (st : state) :
  ok r = true ->
  json_body r = None ->
  req_resume (Resp r) st = (Throw JsonSyntaxError, st).
Proof.
  intros Hok Hb. unfold req_resume, req_result, req_line80, json, req_line79.
  rewrite Hok, Hb. cbn.
  destruct (status r =? 401)%Z eqn:E; [|reflexivity].
  apply Z.eqb_eq in E. unfold ok in Hok. rewrite E in Hok. discriminate.
Qed.

End GatewayMore.

Lemma gateway_keeps_other_keys_witness :
  "ns_install_dismissed" <> "ns_token"
  /\ Api.localStorage
       (Api.run None [Api.OSetToken (VStr "t"); Api.OSettle (Api.Resp expired);
                      Api.OPageLoad]
          (Api.page_load {["ns_install_dismissed" := "1"]}))
     !! "ns_install_dismissed" = Some "1".
Proof.
  split; [discriminate|].
  rewrite (gateway_keeps_other_keys None _ _ "ns_install_dismissed");
    [reflexivity | discriminate].
Defined.

Lemma success_without_json_fails_witness :
  Api.ok (Api.Response 204 None) = true
  /\ Api.req_resume (Api.Resp (Api.Response 204 None)) stored
     = (Throw JsonSyntaxError, stored).
Proof.
  split; [reflexivity|].
  apply (success_without_json_fails (Api.Response 204 None) stored);
    reflexivity.
Defined.

(** * Further properties of the scanner and paywall screens *)

Section GateMore.
Import Api Gate.

Variable VITE_API_URL : option string.
Variable engine_message : exn -> string.

Local Abbreviation step := (Gate.step VITE_API_URL engine_message).
Local Abbreviation handle := (Gate.handle VITE_API_URL engine_message).
Local Abbreviation run := (Gate.run VITE_API_URL engine_message).
Local Abbreviation commit := (Gate.commit VITE_API_URL).
Local Abbreviation mount := (Gate.mount VITE_API_URL).

Lemma subChecked_raised (ev : event) (s s' : sys) :
  step ev s = Some s' ->
  subChecked (scanner s) = false ->
  subChecked (scanner s') = true ->
  advisory_settled_in (resumed ev s).
Proof.
  intros (s1 & H1 & Hsc)%step_scanner Hb Hu.
  rewrite Hsc, (handle_scanner _ _ _ _ _ H1) in Hu.
  destruct ev as [id out|f|u|i| | | | |w rsp|w rsp|w];
    try (cbn in Hu; congruence).
  - cbn [resumed]. destruct (pending s !! id) as [[| | | |g]|] eqn:Hk;
      try congruence.
    + exists id, out. left. reflexivity.
    + rewrite subChecked_scan in Hu. congruence.
    + destruct (verified out); cbn in Hu; congruence.
  - rewrite (proj2 (gate_pick f (scanner s))) in Hu. congruence.
  - destruct (file (scanner s)); cbn in Hu; congruence.
Qed.

Lemma analyze_needs_scanner (ev : event) (s s1 : sys) (b : payload) :
  handle ev s = Some s1 ->
  In (Post "/meals/analyze" b) (handle_calls ev s ++ commit_calls s1) ->
  scanner_shown s = true.
Proof.
  intros H Hin. destruct (scanner_shown s) eqn:Hs; [reflexivity|exfalso].
  apply in_app_or in Hin as [Hin|Hin].
  - destruct ev as [id out|f|u|i| | | | |w rsp|w rsp|w];
      cbn [handle_calls] in Hin; try (destruct Hin; fail).
    + cbn in H. rewrite Hs in H. discriminate.
    + destruct Hin as [[=]|[]].
    + destruct (get_all rsp _); [|destruct Hin].
      destruct Hin as [[=]|[]].
  - unfold commit_calls in Hin.
    destruct (render (scanner s1)), (paywall s1); cbn in Hin;
      try contradiction.
    destruct Hin as [[=]|[]].
Qed.

(** X6.  In every run of the scanner page from its mount, each call of
    [/meals/analyze] comes after the advisory status query has settled:
    the scanner is not offered, and nothing is uploaded, while the check is
    still in flight. *)
Theorem no_scan_before_advisory (st : state) (rzp : bool)
    (evs : list event) (s : sys) :
  run evs (mount st rzp) = Some s ->
  forall h1 b h2,
    log s = h1 ++ Issued (Post "/meals/analyze" b) :: h2 ->
    advisory_settled_in h1.
Proof.
  assert (Hgen : forall evs s0 s,
             run evs s0 = Some s ->
             (subChecked (scanner s0) = true -> advisory_settled_in (log s0)) ->
             (forall h1 b h2,
                 log s0 = h1 ++ Issued (Post "/meals/analyze" b) :: h2 ->
                 advisory_settled_in h1) ->
             forall h1 b h2,
               log s = h1 ++ Issued (Post "/meals/analyze" b) :: h2 ->
               advisory_settled_in h1).
  { clear. induction evs as [|ev evs IH]; intros s0 s Hrun Hc Hl; cbn in Hrun.
    - injection Hrun as <-. exact Hl.
    - destruct (step ev s0) as [s1|] eqn:E; cbn in Hrun; [|discriminate].
      destruct (step_log _ _ _ _ _ E) as (sh & Hh & Elog).
      assert (Hmono : forall h, advisory_settled_in h ->
                                advisory_settled_in (h ++ resumed ev s0)).
      { intros h (id & out & Hin). exists id, out. apply in_or_app. left.
        exact Hin. }
      apply (IH s1 s Hrun).
      + intros Hc1. rewrite Elog.
        destruct (subChecked (scanner s0)) eqn:Hc0.
        * destruct (Hc eq_refl) as (id & out & Hin). exists id, out.
          apply in_or_app. left. exact Hin.
        * destruct (subChecked_raised _ _ _ E Hc0 Hc1) as (id & out & Hin).
          exists id, out. apply in_or_app. right. apply in_or_app. left.
          exact Hin.
      + intros h1 b h2 Hsplit. rewrite Elog in Hsplit.
        apply app_split_at in Hsplit as [(h1' & -> & Hnew)|(m & Hold & _)].
        * assert (Hin : In (Issued (Post "/meals/analyze" b))
                           (resumed ev s0
                            ++ map Issued (handle_calls ev s0 ++ commit_calls sh)))
            by (rewrite Hnew; apply in_elt).
          apply in_app_or in Hin as [Hin|Hin];
            [destruct (resumed_in_issued _ _ _ Hin)|].
          apply in_map_iff in Hin as (c & [= ->] & Hin).
          pose proof (analyze_needs_scanner _ _ _ _ Hh Hin) as Hs.
          apply scanner_shown_checked in Hs as [Hs _].
          destruct (Hc Hs) as (id & out & Hin0). exists id, out.
          apply in_or_app. left. exact Hin0.
        * exact (Hl _ _ _ Hold). }
  intros Hrun. apply (Hgen evs _ s Hrun).
  - cbn. discriminate.
  - intros [|a h1] b h2; cbn; intros [=]. destruct h1; discriminate.
Qed.

Lemma one_scan_frame (s s' : sys) :
  pending s' = pending s -> loading (scanner s') = loading (scanner s) ->
  one_scan s -> one_scan s'.
Proof. intros Hp Hl [H1 H2]. split; rewrite Hp, ?Hl; assumption. Qed.

Lemma one_scan_other (s s' : sys) (n : nat) (k : cont) :
  k <> KScan ->
  pending s' = <[n := k]> (pending s) ->
  loading (scanner s') = loading (scanner s) ->
  one_scan s -> one_scan s'.
Proof.
  intros Hk Hp Hl [H1 H2].
  assert (Hsub : forall id, pending s' !! id = Some KScan ->
                            pending s !! id = Some KScan).
  { intros id H. rewrite Hp in H.
    apply lookup_insert_Some in H as [[_ ->]|[_ H]]; [congruence | exact H]. }
  split.
  - intros id1 id2 Ha Hb. apply H1; apply Hsub; assumption.
  - intros id Ha. rewrite Hl. apply (H2 id), Hsub, Ha.
Qed.

Lemma one_scan_handle (ev : event) (s s1 : sys) :
  handle ev s = Some s1 -> one_scan s -> one_scan s1.
Proof.
  intros H Hinv. pose proof Hinv as [Huniq Hload].
  pose proof (handle_scanner _ _ _ _ _ H) as Hsc.
  destruct ev as [id out|f|u|i| | | | |w rsp|w rsp|w]; cbn in H.
  - destruct (pending s !! id) as [k|] eqn:Hk; cbn in H; [|discriminate].
    injection H as <-.
    match goal with |- one_scan (resume _ ?k ?c ?s0) =>
      destruct (net_resume engine_message k c s0) as [_ Hp] end.
    cbn [settle snd pending] in Hp.
    assert (Hsub : forall id', delete id (pending s) !! id' = Some KScan ->
                               id' <> id /\ pending s !! id' = Some KScan)
      by (intros id' Hd; apply lookup_delete_Some in Hd as [Hne Hd]; auto).
    split.
    + intros id1 id2 Ha Hb. rewrite Hp in Ha, Hb.
      apply Hsub in Ha as [_ Ha]. apply Hsub in Hb as [_ Hb]. auto.
    + intros id' Ha. rewrite Hp in Ha. apply Hsub in Ha as [Hne Ha].
      rewrite Hsc. destruct k as [| |g|g|g].
      * unfold advisory_settled.
        destruct (bind _ _) as [a|]; cbn;
          [destruct (negb (truthy a))|]; cbn; apply (Hload id'), Ha.
      * exfalso. apply Hne. apply Huniq; assumption.
      * apply (Hload id'), Ha.
      * apply (Hload id'), Ha.
      * destruct (verified out); cbn; apply (Hload id'), Ha.
  - destruct (_ && _); [|discriminate]. injection H as <-.
    apply (one_scan_frame s); [reflexivity| |exact Hinv].
    cbn. unfold pick. destruct f as [f|]; [|reflexivity].
    destruct (starts_with _ _); reflexivity.
  - injection H as <-. apply (one_scan_frame s); [reflexivity..|exact Hinv].
  - destruct (_ && _); [|discriminate]. injection H as <-.
    apply (one_scan_frame s); [reflexivity..|exact Hinv].
  - destruct (scanner_shown s && bool_decide (is_Some (image (scanner s)))
              && negb (truthy (result (scanner s)))) ; cbn in H;
      [|discriminate].
    destruct (loading (scanner s)) eqn:Hl; cbn in H; [discriminate|].
    injection H as <-. unfold scan.
    destruct (file (scanner s)); [|exact Hinv].
    split.
    + intros id1 id2 Ha Hb. cbn in Ha, Hb.
      apply lookup_insert_Some in Ha as [[<- _]|[_ Ha]];
        [|apply Hload in Ha; congruence].
      apply lookup_insert_Some in Hb as [[<- _]|[_ Hb]];
        [reflexivity|apply Hload in Hb; congruence].
    + intros id _. reflexivity.
  - destruct (_ && _); [|discriminate]. injection H as <-.
    apply (one_scan_frame s); [reflexivity..|exact Hinv].
  - destruct (render (scanner s)); try discriminate.
    destruct (paywall s) as [[g p]|] eqn:Hpw; [|discriminate].
    destruct (negb (paying p)); [|discriminate]. injection H as <-.
    unfold handlePayment.
    match goal with |- context [on_paywall ?g ?f ?s] =>
      destruct (on_paywall_frame g f s) as (pw & -> & _) end.
    eapply (one_scan_other s _ _ (KCreateOrder g));
      [discriminate|reflexivity|reflexivity|exact Hinv].
  - injection H as <-. apply (one_scan_frame s); [reflexivity..|exact Hinv].
  - destruct (widgets s !! w) as [g|]; cbn in H; [|discriminate].
    injection H as <-. unfold handler.
    destruct (get_all rsp _).
    + eapply (one_scan_other s _ _ (KVerify g));
        [discriminate|reflexivity|reflexivity|exact Hinv].
    + match goal with |- context [on_paywall ?g ?f ?s] =>
        destruct (on_paywall_frame g f s) as (pw & -> & _) end.
      apply (one_scan_frame s); [reflexivity..|exact Hinv].
  - destruct (widgets s !! w) as [g|]; cbn in H; [|discriminate].
    injection H as <-. unfold payment_failed.
    match goal with |- context [match ?x with Return _ => _ | Throw _ => _ end] =>
      destruct x end; [|exact Hinv].
    match goal with |- context [on_paywall ?g ?f ?s] =>
      destruct (on_paywall_frame g f s) as (pw & -> & _) end.
    apply (one_scan_frame s); [reflexivity..|exact Hinv].
  - destruct (widgets s !! w) as [g|]; cbn in H; [|discriminate].
    injection H as <-.
    match goal with |- context [on_paywall ?g ?f ?s] =>
      destruct (on_paywall_frame g f s) as (pw & -> & _) end.
    apply (one_scan_frame s); [reflexivity..|exact Hinv].
Qed.

Lemma one_scan_commit (s : sys) : one_scan s -> one_scan (commit s).
Proof.
  intros Hinv. unfold Gate.commit.
  destruct (render (scanner s)), (paywall s); try exact Hinv.
  eapply (one_scan_other _ _ _ (KPaywallStatus (mounts s)));
    [discriminate|reflexivity|reflexivity|exact Hinv].
Qed.

(** X7.  In every run of the scanner page from its mount at most one
    analyze call is in flight, and [loading] (which disables the button) is
    set for as long as it is: a meal cannot be submitted twice at once. *)
Theorem single_scan_in_flight (st : state) (rzp : bool)
    (evs : list event) (s : sys) :
  run evs (mount st rzp) = Some s ->
  (forall id1 id2,
      pending s !! id1 = Some KScan -> pending s !! id2 = Some KScan ->
      id1 = id2)
  /\ (forall id, pending s !! id = Some KScan -> loading (scanner s) = true).
Proof.
  assert (Hgen : forall evs s0 s, run evs s0 = Some s -> one_scan s0 -> one_scan s).
  { clear. induction evs as [|ev evs IH]; intros s0 s Hrun Hinv; cbn in Hrun.
    - injection Hrun as <-. exact Hinv.
    - destruct (step ev s0) as [s1|] eqn:E; cbn in Hrun; [|discriminate].
      apply step_inv in E as (sh & Hh & ->).
      apply (IH _ _ Hrun), one_scan_commit, (one_scan_handle ev s0), Hinv.
      exact Hh. }
  intros Hrun. apply (Hgen evs _ s Hrun).
  split; intros id; cbn; intros; repeat match goal with
    | H : <[_ := _]> _ !! _ = Some KScan |- _ =>
        apply lookup_insert_Some in H as [[_ [=]]|[_ H]]
    | H : ∅ !! _ = Some _ |- _ => rewrite lookup_empty in H; discriminate
    end.
Qed.

Lemma file_kept (ev : event) (s s' : sys) (P : picked_file -> Prop) :
  (forall f, starts_with "image/" (file_type f) = true -> P f) ->
  step ev s = Some s' ->
  (forall f, file (scanner s) = Some f -> P f) ->
  forall f, file (scanner s') = Some f -> P f.
Proof.
  intros HP (s1 & H1 & Hsc)%step_scanner Hinv f Hf.
  rewrite Hsc, (handle_scanner _ _ _ _ _ H1) in Hf.
  destruct ev as [id out|pf|u|i| | | | |w rsp|w rsp|w];
    try (apply Hinv; exact Hf).
  - apply Hinv.
    destruct (pending s !! id) as [[| | | |g]|]; try exact Hf.
    + unfold advisory_settled in Hf.
      destruct (bind _ _) as [a|]; [destruct (negb (truthy a))|]; exact Hf.
    + unfold scan_settled in Hf. destruct (req_result out); cbn in Hf;
        [exact Hf|]. destruct (String.eqb _ _); exact Hf.
    + destruct (verified out); exact Hf.
  - unfold pick in Hf. destruct pf as [pf|]; [|apply Hinv; exact Hf].
    destruct (starts_with "image/" (file_type pf)) eqn:Ht;
      [|apply Hinv; exact Hf].
    cbn in Hf. injection Hf as <-. apply HP, Ht.
  - apply Hinv.
    destruct (file (scanner s)) eqn:Hfile; cbn in Hf; rewrite Hfile in Hf;
      exact Hf.
  - discriminate.
Qed.

(** X8.  In every run of the scanner page from its mount, the file held
    for upload, if any, has a type starting with ["image/"]: nothing else
    gets past [pick]. *)
Theorem only_images_are_picked (st : state) (rzp : bool)
    (evs : list event) (s : sys) (f : picked_file) :
  run evs (mount st rzp) = Some s ->
  file (scanner s) = Some f ->
  starts_with "image/" (file_type f) = true.
Proof.
  assert (Hgen : forall evs s0 s,
             run evs s0 = Some s ->
             (forall f, file (scanner s0) = Some f ->
                        starts_with "image/" (file_type f) = true) ->
             forall f, file (scanner s) = Some f ->
                       starts_with "image/" (file_type f) = true).
  { clear. induction evs as [|ev evs IH]; intros s0 s Hrun Hinv; cbn in Hrun.
    - injection Hrun as <-. exact Hinv.
    - destruct (step ev s0) as [s1|] eqn:E; cbn in Hrun; [|discriminate].
      apply (IH _ _ Hrun).
      apply (file_kept ev s0 s1 _ (fun f H => H) E Hinv). }
  intros Hrun. apply (Hgen evs _ s Hrun). cbn. discriminate.
Qed.

(** X9.  When the analyze call fails with anything but the distinguished
    message, [scan] shows the message as the error and nothing else
    happens to the screen: the paywall flag and the result are as before
    and [loading] is switched off. *)
Theorem scan_failure_is_shown (s : sys) (id : nat) (out : fetch_outcome) (e : exn) :
  pending s !! id = Some KScan ->
  req_result out = Throw e ->
  String.eqb (message engine_message e) "subscription_required" = false ->
  exists s',
    step (Settle id out) s = Some s'
    /\ scanner s'
       = setLoading false
           (setError (VStr (message engine_message e)) (scanner s)).
Proof.
  intros Hk Hres Hm. unfold Gate.step. cbn [Gate.handle]. rewrite Hk.
  cbn [mbind option_bind settle fst snd req_resume resume fmap option_fmap
       option_map].
  eexists. split; [reflexivity|].
  rewrite scanner_commit. cbn [scanner on_scanner]. unfold scan_settled.
  rewrite Hres, Hm. reflexivity.
Qed.

Lemma commit_shown (s : sys) :
  render (scanner s) = PaywallView -> is_Some (paywall s) -> commit s = s.
Proof.
  intros Hr [gp Hp]. unfold Gate.commit. rewrite Hr, Hp. reflexivity.
Qed.

Lemma on_paywall_mounted (g : nat) (f : paywall_state -> paywall_state)
    (s : sys) (p : paywall_state) :
  paywall s = Some (g, p) ->
  on_paywall g f s
  = Sys (api s) (pending s) (scanner s) (Some (g, f p)) (mounts s)
        (widgets s) (razorpay s) (log s).
Proof.
  intros Hp. unfold on_paywall. rewrite Hp, Nat.eqb_refl. reflexivity.
Qed.

(** X10.  When the user closes the checkout widget, the paywall's
    [paying] goes off and that is all: no error is set, nothing is sent,
    the scanner's cells and the log are as before. *)
Theorem dismiss_is_silent (s : sys) (w g : nat) (p : paywall_state) :
  widgets s !! w = Some g ->
  paywall s = Some (g, p) ->
  render (scanner s) = PaywallView ->
  step (WidgetDismiss w) s
  = Some (Sys (api s) (pending s) (scanner s)
              (Some (g, Paywall (subInfo p) false (pay_error p)))
              (mounts s) (widgets s) (razorpay s) (log s)).
Proof.
  intros Hw Hp Hr. unfold Gate.step. cbn [Gate.handle]. rewrite Hw.
  cbn [mbind option_bind fmap option_fmap option_map].
  rewrite (on_paywall_mounted g _ s p Hp). f_equal.
  apply commit_shown; [exact Hr | eexists; reflexivity].
Qed.


Lemma get_all_object (fs : list (name * value)) (ks : list name) :
  get_all (VObj fs) ks
  = Return (map (fun k => (k, default VUndef (field (name_text k) fs))) ks).
Proof.
  induction ks as [|k ks IH]; [reflexivity|]. cbn [get_all]. rewrite IH.
  reflexivity.
Qed.

(** X12.  When the order request settles while the paywall is shown: on
    a failure the paywall shows the failure's message, [paying] goes off
    and no widget is opened; on an order object the widget is opened and
    [paying] stays on, unless the checkout script has not defined
    [window.Razorpay], which is reported like a failure.  The scanner's
    cells are as before in every case. *)
Theorem create_order_outcomes
    (s : sys) (id g : nat) (p : paywall_state) (out : fetch_outcome) :
  pending s !! id = Some (KCreateOrder g) ->
  paywall s = Some (g, p) ->
  render (scanner s) = PaywallView ->
  exists s',
    step (Settle id out) s = Some s'
    /\ scanner s' = scanner s
    /\ match req_result out with
       | Throw e =>
           widgets s' = widgets s
           /\ paywall s'
              = Some (g, Paywall (subInfo p) false
                           (VStr (message engine_message e)))
       | Return (VObj fs) =>
           if razorpay s
           then widgets s' = widgets s ++ [g] /\ paywall s' = Some (g, p)
           else widgets s' = widgets s
                /\ paywall s'
                   = Some (g, Paywall (subInfo p) false
                                (VStr (engine_message NotAConstructor)))
       | Return _ => True
       end.
Proof.
  intros Hk Hp Hr. unfold Gate.step. cbn [Gate.handle]. rewrite Hk.
  cbn [mbind option_bind settle fst snd req_resume fmap option_fmap
       option_map].
  eexists. split; [reflexivity|].
  split; [rewrite scanner_commit, scanner_resume; reflexivity|].
  cbn [resume]. unfold order_settled. cbn [razorpay].
  destruct (req_result out) as [v|e]; cbn [bind].
  - destruct v as [| | | | | |fs]; try exact I.
    rewrite get_all_object. cbn [bind]. destruct (razorpay s); cbn [bind].
    + rewrite commit_shown; [split; [reflexivity | exact Hp]|exact Hr|].
      cbn. rewrite Hp. eexists; reflexivity.
    + rewrite (on_paywall_mounted g _ _ p) by exact Hp.
      rewrite commit_shown; [split; reflexivity|exact Hr|].
      eexists; reflexivity.
  - rewrite (on_paywall_mounted g _ _ p) by exact Hp.
    rewrite commit_shown; [split; reflexivity|exact Hr|].
    eexists; reflexivity.
Qed.

(** X13.  The widget's success callback sends for verification exactly the
    three members [razorpay_order_id], [razorpay_payment_id] and
    [razorpay_signature] of what the provider handed over, and waits for
    the answer; when the provider hands over [null] nothing is sent and the
    text "Payment verification failed. Contact support." becomes the error
    at once, which the screen renders as its notification. *)
Theorem confirmation_is_forwarded
    (s : sys) (w g : nat) (p : paywall_state) :
  widgets s !! w = Some g ->
  paywall s = Some (g, p) ->
  render (scanner s) = PaywallView ->
  (forall fs,
     step (WidgetSuccess w (VObj fs)) s
     = Some (Gate.await VITE_API_URL
               (Post "/subscription/verify"
                  (PValue (VObj
                     [(key "razorpay_order_id",
                       default VUndef (field "razorpay_order_id" fs));
                      (key "razorpay_payment_id",
                       default VUndef (field "razorpay_payment_id" fs));
                      (key "razorpay_signature",
                       default VUndef (field "razorpay_signature" fs))])))
               (KVerify g) s))
  /\ step (WidgetSuccess w VNull) s
     = Some (Sys (api s) (pending s) (scanner s)
                 (Some (g, Paywall (subInfo p) (paying p)
                              (VStr "Payment verification failed. Contact support.")))
                 (mounts s) (widgets s) (razorpay s) (log s))
  /\ notification
       (Paywall (subInfo p) (paying p)
          (VStr "Payment verification failed. Contact support."))
     = Some (VStr "Payment verification failed. Contact support.").
Proof.
  intros Hw Hp Hr. split; [|split; [|reflexivity]].
  - intros fs. unfold Gate.step. cbn [Gate.handle]. rewrite Hw.
    cbn [mbind option_bind fmap option_fmap option_map].
    unfold handler. rewrite get_all_object. cbn [map]. f_equal.
    apply commit_shown; [exact Hr|]. cbn. rewrite Hp. eexists; reflexivity.
  - unfold Gate.step. cbn [Gate.handle]. rewrite Hw.
    cbn [mbind option_bind fmap option_fmap option_map].
    unfold handler. cbn [get_all get bind].
    rewrite (on_paywall_mounted g _ s p Hp). f_equal.
    apply commit_shown; [exact Hr | eexists; reflexivity].
Qed.

End GateMore.

Lemma no_scan_before_advisory_witness :
  Gate.run None engine_message to_denial mounted = Some blocked
  /\ Gate.advisory_settled_in
       [Gate.Issued (Api.Get "/subscription/status");
        Gate.Resumed 0 Gate.KAdvisory active].
Proof.
  assert (Hrun : Gate.run None engine_message to_denial mounted = Some blocked)
    by (vm_compute; reflexivity).
  split; [exact Hrun|].
  apply (no_scan_before_advisory None engine_message stored true to_denial
           blocked Hrun _
           (Api.PForm [("photo", "lunch.jpg"); ("meal_type", "lunch")])
           [Gate.Resumed 1 Gate.KScan (Api.Resp denied);
            Gate.Issued (Api.Get "/subscription/status")]).
  vm_compute; reflexivity.
Defined.

Lemma single_scan_in_flight_witness :
  Gate.run None engine_message to_scan mounted = Some scanning
  /\ Gate.pending scanning !! 1%nat = Some Gate.KScan
  /\ Gate.loading (Gate.scanner scanning) = true.
Proof.
  assert (Hrun : Gate.run None engine_message to_scan mounted = Some scanning)
    by (vm_compute; reflexivity).
  assert (Hk : Gate.pending scanning !! 1%nat = Some Gate.KScan)
    by (vm_compute; reflexivity).
  split; [exact Hrun|]. split; [exact Hk|].
  exact (proj2 (single_scan_in_flight None engine_message stored true to_scan
                  scanning Hrun) 1%nat Hk).
Defined.

Lemma only_images_are_picked_witness :
  Gate.run None engine_message to_denial mounted = Some blocked
  /\ Gate.file (Gate.scanner blocked) = Some photo
  /\ starts_with "image/" (Gate.file_type photo) = true.
Proof.
  assert (Hrun : Gate.run None engine_message to_denial mounted = Some blocked)
    by (vm_compute; reflexivity).
  assert (Hf : Gate.file (Gate.scanner blocked) = Some photo)
    by (vm_compute; reflexivity).
  split; [exact Hrun|]. split; [exact Hf|].
  exact (only_images_are_picked None engine_message stored true to_denial
           blocked photo Hrun Hf).
Defined.

Lemma scan_failure_is_shown_witness :
  Gate.pending scanning !! 1%nat = Some Gate.KScan
  /\ Api.req_result Api.NetFail = Throw FetchFailed
  /\ exists s',
       Gate.step None engine_message (Gate.Settle 1 Api.NetFail) scanning
       = Some s'
       /\ Gate.error (Gate.scanner s') = VStr "Failed to fetch"
       /\ Gate.loading (Gate.scanner s') = false.
Proof.
  assert (Hk : Gate.pending scanning !! 1%nat = Some Gate.KScan)
    by (vm_compute; reflexivity).
  split; [exact Hk|]. split; [reflexivity|].
  destruct (scan_failure_is_shown None engine_message scanning 1 Api.NetFail
              FetchFailed Hk eq_refl eq_refl) as (s' & E & Hs).
  exists s'. split; [exact E|]. rewrite Hs. split; reflexivity.
Defined.

Lemma dismiss_is_silent_witness :
  Gate.widgets checkout !! 0%nat = Some 0%nat
  /\ Gate.render (Gate.scanner checkout) = Gate.PaywallView
  /\ (Gate.paywall <$>
        Gate.step None engine_message (Gate.WidgetDismiss 0) checkout)
     = Some (Some (0%nat, Gate.Paywall VNull false VNull)).
Proof.
  assert (Hw : Gate.widgets checkout !! 0%nat = Some 0%nat)
    by (vm_compute; reflexivity).
  assert (Hp : Gate.paywall checkout
               = Some (0%nat, Gate.Paywall VNull true VNull))
    by (vm_compute; reflexivity).
  assert (Hr : Gate.render (Gate.scanner checkout) = Gate.PaywallView)
    by (vm_compute; reflexivity).
  split; [exact Hw|]. split; [exact Hr|].
  rewrite (dismiss_is_silent None engine_message checkout 0 0
             (Gate.Paywall VNull true VNull) Hw Hp Hr).
  reflexivity.
Defined.


Lemma create_order_outcomes_witness :
  Gate.pending ordering !! 3%nat = Some (Gate.KCreateOrder 0)
  /\ Gate.razorpay ordering = true
  /\ exists s',
       Gate.step None engine_message (Gate.Settle 3 order) ordering = Some s'
       /\ Gate.widgets s' = [0%nat]
       /\ Gate.paywall s' = Some (0%nat, Gate.Paywall VNull true VNull).
Proof.
  assert (Hk : Gate.pending ordering !! 3%nat = Some (Gate.KCreateOrder 0))
    by (vm_compute; reflexivity).
  assert (Hp : Gate.paywall ordering
               = Some (0%nat, Gate.Paywall VNull true VNull))
    by (vm_compute; reflexivity).
  assert (Hr : Gate.render (Gate.scanner ordering) = Gate.PaywallView)
    by (vm_compute; reflexivity).
  split; [exact Hk|]. split; [vm_compute; reflexivity|].
  destruct (create_order_outcomes None engine_message ordering 3 0
              (Gate.Paywall VNull true VNull) order Hk Hp Hr)
    as (s' & E & _ & Hw & Hq).
  exists s'. split; [exact E|]. split; [exact Hw | exact Hq].
Defined.

Lemma confirmation_is_forwarded_witness :
  Gate.widgets checkout !! 0%nat = Some 0%nat
  /\ (Gate.log <$>
        Gate.step None engine_message (Gate.WidgetSuccess 0 confirmation)
          checkout)
     = Some (Gate.log checkout
             ++ [Gate.Issued (Api.Post "/subscription/verify"
                                (Api.PValue confirmation))]).
Proof.
  assert (Hw : Gate.widgets checkout !! 0%nat = Some 0%nat)
    by (vm_compute; reflexivity).
  assert (Hp : Gate.paywall checkout
               = Some (0%nat, Gate.Paywall VNull true VNull))
    by (vm_compute; reflexivity).
  assert (Hr : Gate.render (Gate.scanner checkout) = Gate.PaywallView)
    by (vm_compute; reflexivity).
  split; [exact Hw|].
  destruct (confirmation_is_forwarded None engine_message checkout 0 0
              (Gate.Paywall VNull true VNull) Hw Hp Hr) as [Hf _].
  unfold confirmation. rewrite Hf. reflexivity.
Defined.

(** * Further properties of the dashboard *)

Section DashboardMore.
Import Api Dashboard.

Variable VITE_API_URL : option string.

Local Abbreviation load := (Dashboard.load VITE_API_URL).

Lemma perm3 {A : Type} (a b c : A) (l : list A) :
  Permutation l [a; b; c] ->
  In l [[a; b; c]; [a; c; b]; [b; a; c]; [b; c; a]; [c; a; b]; [c; b; a]].
Proof.
  intros H. pose proof (Permutation_length H) as Hlen.
  destruct l as [|x [|y [|z [|? ?]]]]; try discriminate Hlen.
  assert (Hx : In x [a; b; c])
    by (apply (Permutation_in _ H); left; reflexivity).
  cbn in Hx. destruct Hx as [<-|[<-|[<-|[]]]].
  - apply Permutation_cons_inv in H.
    apply Permutation_sym, Permutation_length_2_inv in H as [->| ->];
      cbn; auto.
  - apply (Permutation_cons_app_inv [a] [c]) in H.
    apply Permutation_sym, Permutation_length_2_inv in H as [[= -> ->]|[= -> ->]];
      cbn; auto 6.
  - apply (Permutation_cons_app_inv [a; b] []) in H.
    apply Permutation_sym, Permutation_length_2_inv in H as [[= -> ->]|[= -> ->]];
      cbn; auto 7.
Qed.

Lemma settle_fulfilled (s : sys) (id j k : nat) (out : fetch_outcome)
    (v : value) (jn : join) :
  pending s !! id = Some (j, k) ->
  joins s !! j = Some jn ->
  joined jn = None ->
  req_result out = Return v ->
  settle id out s
  = Some (Sys (snd (req_resume out (api s))) (delete id (pending s))
              (<[j := Join (<[k := Some v]> (slots jn))
                           (Return <$> mapM Datatypes.id (<[k := Some v]> (slots jn)))]>
                 (joins s))
              match mapM Datatypes.id (<[k := Some v]> (slots jn)) with
              | Some vs => load_settled (Return vs) (dash s)
              | None => dash s
              end).
Proof.
  intros Hp Hj Hn Hv. unfold settle. rewrite Hp. cbn. rewrite Hj. cbn.
  unfold element_settled. rewrite Hv, Hn. cbn.
  destruct (mapM Datatypes.id (<[k:=Some v]> (slots jn))); reflexivity.
Qed.

Lemma settle_slot (a : Api.state) (P : gmap nat (nat * nat)) (J : list join)
    (sl : list (option value)) (d : dashboard_state)
    (id k : nat) (out : fetch_outcome) (v : value) :
  P !! id = Some (length J, k) ->
  req_result out = Return v ->
  settle id out (Sys a P (J ++ [Join sl None]) d)
  = Some (Sys (snd (req_resume out a)) (delete id P)
              (J ++ [Join (<[k := Some v]> sl)
                          (Return <$> mapM Datatypes.id (<[k := Some v]> sl))])
              match mapM Datatypes.id (<[k := Some v]> sl) with
              | Some vs => load_settled (Return vs) d
              | None => d
              end).
Proof.
  intros Hp Hv.
  rewrite (settle_fulfilled _ id (length J) k out v (Join sl None));
    [|exact Hp|apply list_lookup_middle; reflexivity|reflexivity|exact Hv].
  cbn [api pending joins dash slots]. do 2 f_equal.
  rewrite insert_app_r_alt by lia. rewrite Nat.sub_diag. reflexivity.
Qed.

Lemma reads_pending (n j : nat) :
  let P := <[(n + 2)%nat := (j, 2%nat)]>
             (<[(n + 1)%nat := (j, 1%nat)]>
                (<[n := (j, 0%nat)]> (∅ : gmap nat (nat * nat)))) in
  (forall k, (k < 3)%nat -> P !! (n + k)%nat = Some (j, k))
  /\ (forall i, (forall k, (k < 3)%nat -> i <> (n + k)%nat) -> P !! i = None).
Proof.
  cbn zeta. split.
  - intros k Hk. destruct k as [|[|[|k]]]; try lia.
    + rewrite Nat.add_0_r, !lookup_insert_ne, lookup_insert_eq by lia.
      reflexivity.
    + rewrite lookup_insert_ne, lookup_insert_eq by lia. reflexivity.
    + rewrite lookup_insert_eq. reflexivity.
  - intros i Hi.
    pose proof (Hi 0%nat ltac:(lia)). pose proof (Hi 1%nat ltac:(lia)).
    pose proof (Hi 2%nat ltac:(lia)).
    rewrite !lookup_insert_ne by lia. apply lookup_empty.
Qed.

Lemma reads_settled (n j : nat) (i1 i2 i3 : nat) :
  Permutation [i1; i2; i3] [n; (n + 1)%nat; (n + 2)%nat] ->
  delete i3 (delete i2 (delete i1
    (<[(n + 2)%nat := (j, 2%nat)]>
       (<[(n + 1)%nat := (j, 1%nat)]>
          (<[n := (j, 0%nat)]> (∅ : gmap nat (nat * nat)))))))
  = ∅.
Proof.
  intros Hperm. apply map_eq. intros i. rewrite lookup_empty.
  rewrite !lookup_delete_None, !lookup_insert_None, lookup_empty.
  assert (Hi : forall x, In x [n; (n + 1)%nat; (n + 2)%nat] -> In x [i1; i2; i3])
    by (intros x; apply Permutation_in, Permutation_sym, Hperm).
  pose proof (Hi n ltac:(cbn; auto)) as H0.
  pose proof (Hi (n + 1)%nat ltac:(cbn; auto)) as H1.
  pose proof (Hi (n + 2)%nat ltac:(cbn; auto)) as H2.
  cbn in H0, H1, H2.
  destruct (decide (i = n)) as [->|]; [tauto|].
  destruct (decide (i = (n + 1)%nat)) as [->|]; [tauto|].
  destruct (decide (i = (n + 2)%nat)) as [->|]; [tauto|].
  right. right. right. repeat split; congruence.
Qed.

(** X14.  When the three reads of a [load] all succeed, then in whatever
    order they settle the run goes through, the dashboard shows each
    result under its own cell ([today], [history], [stats], by the
    position of the read in the array given to [Promise.all], not by
    arrival), [loading] is off and nothing is left pending. *)
Theorem dashboard_shows_by_position
    (s : sys) (o0 o1 o2 : fetch_outcome) (v0 v1 v2 : value)
    (evs : list (nat * fetch_outcome)) :
  pending s = ∅ ->
  req_result o0 = Return v0 ->
  req_result o1 = Return v1 ->
  req_result o2 = Return v2 ->
  Permutation evs
    [(length (sent (api s)), o0);
     (length (sent (api s)) + 1, o1)%nat;
     (length (sent (api s)) + 2, o2)%nat] ->
  exists s',
    run evs (load s) = Some s'
    /\ dash s' = DashboardState v0 v1 v2 false
    /\ pending s' = ∅.
Proof.
  intros He H0 H1 H2 Hperm.
  set (n := length (sent (api s))) in *.
  pose proof (reads_pending n (length (joins s))) as [HP _]. cbn zeta in HP.
  pose proof (HP 0%nat ltac:(lia)) as P0. rewrite Nat.add_0_r in P0.
  pose proof (HP 1%nat ltac:(lia)) as P1.
  pose proof (HP 2%nat ltac:(lia)) as P2. clear HP.
  assert (Hids : Permutation (map fst evs) [n; (n + 1)%nat; (n + 2)%nat])
    by (apply (Permutation_map fst) in Hperm; exact Hperm).
  unfold Dashboard.load. fold n. rewrite He.
  apply perm3 in Hperm. cbn [In] in Hperm.
  destruct Hperm as [<-|[<-|[<-|[<-|[<-|[<-|[]]]]]]]; cbn [run map fst] in *;
    (erewrite settle_slot;
       [|first [exact P0 | exact P1 | exact P2]|eassumption]);
    cbn [mbind option_bind];
    (erewrite settle_slot;
       [|rewrite lookup_delete_ne by lia;
         first [exact P0 | exact P1 | exact P2]|eassumption]);
    cbn [mbind option_bind];
    (erewrite settle_slot;
       [|rewrite !lookup_delete_ne by lia;
         first [exact P0 | exact P1 | exact P2]|eassumption]);
    cbn [mbind option_bind];
    (eexists; split; [reflexivity|]; split;
       [reflexivity | apply reads_settled; exact Hids]).
Qed.

End DashboardMore.

(** * Deleting a meal from the dashboard *)

Section DeletionMore.
Import Api Dashboard Deletion.

Variable VITE_API_URL : option string.
Variable engine_message : exn -> string.

Local Abbreviation handleDelete_call := (Deletion.handleDelete_call VITE_API_URL).
Local Abbreviation handleDelete_resume :=
  (Deletion.handleDelete_resume VITE_API_URL engine_message).

Lemma req_result_ok (out : fetch_outcome) (v : value) (st : state) :
  req_result out = Return v -> snd (req_resume out st) = st.
Proof.
  destruct out as [|r]; [discriminate|]. cbn. unfold req_line80, req_line79.
  destruct (status r =? 401)%Z eqn:E; [|reflexivity].
  apply Z.eqb_eq in E. unfold ok. rewrite E. discriminate.
Qed.

(** X15.  A delete that succeeds closes the dialogue, puts the dashboard
    back into its loading view and reads the three dashboard resources
    again: what went to [fetch] is the DELETE for [/meals/<id>] followed by
    the three GETs, and nothing else. *)
Theorem delete_then_refetch (s : screen) (out : fetch_outcome) (v : value) :
  truthy (deleting s) = true ->
  req_result out = Return v ->
  let s' := handleDelete_resume out (handleDelete_call s) in
  deleting s' = VNull
  /\ deleteLoading s' = false
  /\ alerts s' = alerts s
  /\ loading (dash (board s')) = true
  /\ map (fun rq => (method rq, url rq)) (sent (api (board s')))
     = map (fun rq => (method rq, url rq)) (sent (api (board s)))
       ++ [("DELETE", API VITE_API_URL +:+ "/meals/" +:+ to_string (deleting s));
           ("GET", API VITE_API_URL +:+ "/dashboard/today");
           ("GET", API VITE_API_URL +:+ "/dashboard/history?days=7");
           ("GET", API VITE_API_URL +:+ "/dashboard/stats")].
Proof.
  intros Ht Hv. cbn zeta. unfold Deletion.handleDelete_call. rewrite Ht.
  cbn [negb]. unfold Deletion.handleDelete_resume. rewrite Hv.
  cbn [deleting deleteLoading alerts board].
  repeat split.
  cbn [load api on_api fold_left dashboard_reads show_loading].
  rewrite (req_result_ok out v) by exact Hv.
  cbn [issue req_call sent]. rewrite !map_app. cbn [map].
  rewrite <- !app_assoc. reflexivity.
Qed.

(** X16.  When the delete succeeded but one of the three reads that
    follow fails, the dashboard leaves its loading view with the cells it
    had before the delete: the meal that was deleted is still shown. *)
Theorem stale_after_failed_refetch
    (s : screen) (out : fetch_outcome) (v : value)
    (evs : list (nat * fetch_outcome)) (b' : Dashboard.sys) :
  truthy (deleting s) = true ->
  req_result out = Return v ->
  pending (board s) = ∅ ->
  run evs (board (handleDelete_resume out (handleDelete_call s))) = Some b' ->
  Exists (fun e => is_throw (req_result e.2) = true) evs ->
  shown (dash b') = shown (dash (board s))
  /\ loading (dash b') = false.
Proof.
  intros Ht Hv He Hrun Hfail.
  unfold Deletion.handleDelete_call in Hrun. rewrite Ht in Hrun.
  cbn [negb] in Hrun. unfold Deletion.handleDelete_resume in Hrun.
  rewrite Hv in Hrun. cbn [board] in Hrun.
  match type of Hrun with
  | run _ (load _ ?b) = _ =>
      destruct (run_keeps (length (joins b)) (dash b) evs _ b'
                  (load_establishes VITE_API_URL b He) Hrun)
        as [(jn & Hj & _ & Hcase) Hrej]
  end.
  destruct (Hrej (or_introl Hfail)) as (jn' & e & Hj' & He').
  rewrite Hj in Hj'. injection Hj' as <-. rewrite He' in Hcase.
  exact Hcase.
Qed.

(** X17.  A delete that fails raises an alert with the failure's message
    and leaves the dialogue open on the same meal, with the dashboard's
    cells, joins and pending reads as they were and only the DELETE handed
    to [fetch]; and for a falsy id, such as the number 0, [handleDelete]
    does nothing at all. *)
Theorem failed_delete_keeps_dashboard (s : screen) (out : fetch_outcome) :
  (truthy (deleting s) = false -> handleDelete_call s = s)
  /\ (forall e,
        truthy (deleting s) = true ->
        req_result out = Throw e ->
        let s' := handleDelete_resume out (handleDelete_call s) in
        alerts s' = alerts s ++ [message engine_message e]
        /\ deleting s' = deleting s
        /\ deleteLoading s' = false
        /\ dash (board s') = dash (board s)
        /\ joins (board s') = joins (board s)
        /\ pending (board s') = pending (board s)
        /\ length (sent (api (board s'))) = S (length (sent (api (board s))))).
Proof.
  split.
  - intros Hf. unfold Deletion.handleDelete_call. rewrite Hf. reflexivity.
  - intros e Ht He. cbn zeta. unfold Deletion.handleDelete_call. rewrite Ht.
    cbn [negb]. unfold Deletion.handleDelete_resume. rewrite He.
    cbn [deleting deleteLoading alerts board on_api dash joins pending api].
    repeat split. rewrite sent_req_resume. cbn [issue req_call sent].
    rewrite length_app. cbn. lia.
Qed.

End DeletionMore.

(** * Further properties of the profile screen *)

Section ProfileMore.
Import Api Profile.

Variable VITE_API_URL : option string.
Variable engine_message : exn -> string.

Local Abbreviation mount := (Profile.mount VITE_API_URL).
Local Abbreviation save_call := (Profile.save_call VITE_API_URL).
Local Abbreviation save_resume := (Profile.save_resume engine_message).

(** X18.  After its two reads have settled, in either order, the profile
    screen has left its loading view exactly when the profile read
    succeeded with a truthy body; a failed profile read is not reported and
    the subscription read plays no part. *)
Theorem profile_shown_iff (st : state) (o1 o2 : fetch_outcome) :
  let s12 := sub_settled o2 (profile_settled o1 (mount st)) in
  let s21 := profile_settled o1 (sub_settled o2 (mount st)) in
  (render s12 = ProfileView
   <-> exists p, req_result o1 = Return p /\ truthy p = true)
  /\ render s21 = render s12
  /\ alerts s12 = [] /\ alerts s21 = [].
Proof.
  cbn zeta. unfold sub_settled, profile_settled, Profile.mount, render.
  destruct (req_result o1) as [p|e], (req_result o2) as [v|e2];
    cbn [profile alerts]; (split; [|repeat split]);
    try (destruct (truthy p) eqn:Hp; cbn [negb]; split;
         [eauto | intros (p' & [= <-] & Hp'); congruence
         | discriminate | intros (p' & [= <-] & Hp'); congruence]);
    cbn; split; try discriminate; intros (p' & Hp' & _); discriminate.
Qed.

(** X19.  [save] sends one PUT for [/profile] whose body is the JSON text
    of the form.  When it succeeds the profile shown becomes the form that
    was sent, whatever the server answered, and the editor closes; when it
    fails an alert with the failure's message is raised and the profile
    and the editor stay as they were. *)
Theorem save_outcomes (s : screen) (out : fetch_outcome) :
  let s1 := save_call s in
  let s' := save_resume (form s) out s1 in
  (exists h,
     sent (api s1)
     = sent (api s)
       ++ [Request (API VITE_API_URL +:+ "/profile") "PUT" h (stringify (form s))]
     /\ h !! "Content-Type" = Some "application/json")
  /\ match req_result out with
     | Return _ =>
         profile s' = form s /\ editing s' = false /\ alerts s' = alerts s
     | Throw e =>
         profile s' = profile s /\ editing s' = editing s
         /\ alerts s' = alerts s ++ [message engine_message e]
     end.
Proof.
  cbn zeta. split.
  - eexists. split; [reflexivity|]. unfold req_headers.
    cbn [call_options opt_body opt_headers].
    assert (Hf : is_form_data (stringify (form s)) = false)
      by (destruct (form s); reflexivity).
    rewrite Hf. cbn [negb]. apply lookup_insert_eq.
  - unfold Profile.save_resume. destruct (req_result out); repeat split.
Qed.

End ProfileMore.

(** * The install banner *)

Section ShellMore.
Import Api Shell.

Variable VITE_API_URL : option string.

Local Abbreviation step := (Shell.step VITE_API_URL).
Local Abbreviation run := (Shell.run VITE_API_URL).

Lemma dismissed_step (ev : event) (s s' : shell) :
  step ev s = Some s' ->
  localStorage (api s) !! "ns_install_dismissed" = Some "1" ->
  showInstall s = false ->
  localStorage (api s') !! "ns_install_dismissed" = Some "1"
  /\ showInstall s' = false.
Proof.
  intros Hs Hk Hb.
  destruct ev as [| |outcome| |o]; cbn in Hs.
  - injection Hs as <-. cbn. unfold getItem. rewrite Hk. cbn. auto.
  - rewrite Hb in Hs. discriminate.
  - destruct (choosing s); [discriminate|]. injection Hs as <-.
    cbn. rewrite Hb. destruct (String.eqb outcome "accepted"); auto.
  - rewrite Hb in Hs. discriminate.
  - assert (Hkeep : localStorage (Api.step VITE_API_URL o (api s))
                    !! "ns_install_dismissed" = Some "1")
      by (rewrite step_other_keys; [exact Hk | discriminate]).
    destruct o; cbn in Hs; injection Hs as <-;
      (split; [exact Hkeep | first [exact Hb | reflexivity]]).
Qed.

(** X20.  Once the banner has been dismissed it is never shown again:
    whatever follows (further install offers of the browser, answers to
    prompts still open, sign-ins, sign-outs, requests settling with any
    status, page loads), [showInstall] stays off and the mark in
    [localStorage] stays. *)
Theorem dismissed_banner_stays_hidden
    (evs : list event) (s s' : shell) :
  run evs (dismissInstall s) = Some s' ->
  showInstall s' = false
  /\ localStorage (api s') !! "ns_install_dismissed" = Some "1".
Proof.
  assert (Hgen : forall evs s0 s',
             run evs s0 = Some s' ->
             localStorage (api s0) !! "ns_install_dismissed" = Some "1" ->
             showInstall s0 = false ->
             localStorage (api s') !! "ns_install_dismissed" = Some "1"
             /\ showInstall s' = false).
  { clear. induction evs as [|ev evs IH]; intros s0 s' Hrun Hk Hb;
      cbn in Hrun.
    - injection Hrun as <-. auto.
    - destruct (step ev s0) as [s1|] eqn:E; cbn in Hrun; [|discriminate].
      destruct (dismissed_step ev s0 s1 E Hk Hb) as [Hk1 Hb1].
      exact (IH s1 s' Hrun Hk1 Hb1). }
  intros Hrun.
  destruct (Hgen evs (dismissInstall s) s' Hrun) as [Hk Hb].
  - cbn. apply lookup_insert_eq.
  - reflexivity.
  - auto.
Qed.

(** X21.  A prompt is used once.  When the banner is shown with a stored
    event and the user answers the prompt with anything but
    ["accepted"], the banner stays but the event is gone, so a further
    click on Install shows no prompt; with ["accepted"] the banner goes
    away. *)
Theorem prompt_is_used_once (s : shell) (outcome : string) :
  showInstall s = true ->
  installPrompt s = true ->
  choosing s = 0%nat ->
  exists s',
    run [ClickInstall; UserChoice outcome] s = Some s'
    /\ installPrompt s' = false
    /\ choosing s' = 0%nat
    /\ showInstall s' = negb (String.eqb outcome "accepted")
    /\ (showInstall s' = true -> step ClickInstall s' = Some s').
Proof.
  intros Hb Hp Hc.
  exists (Shell_ (api s) false
            (if String.eqb outcome "accepted" then false else true) 0).
  split; [|split; [|split; [|split]]].
  - cbn [Shell.run Shell.step]. rewrite Hb. cbn [mbind option_bind].
    unfold handleInstall_call. rewrite Hp. cbn [negb choosing Nat.ltb Nat.leb].
    unfold handleInstall_resume. cbn. rewrite Hb, Hc. reflexivity.
  - reflexivity.
  - reflexivity.
  - cbn. destruct (String.eqb outcome "accepted"); reflexivity.
  - cbn. destruct (String.eqb outcome "accepted"); intros Hs;
      [discriminate Hs | reflexivity].
Qed.

End ShellMore.

(** * Signing in *)

Section AuthMore.
Import Api Auth.

Variable VITE_API_URL : option string.
Variable engine_message : exn -> string.
Variable register_payload : list (name * value) -> value.

Local Abbreviation submit_call := (Auth.submit_call VITE_API_URL register_payload).
Local Abbreviation submit_resume := (Auth.submit_resume engine_message).

(** X22.  When the login or registration request succeeds with a body
    that has members, the user is signed in, the token of the body is kept
    in [api.token] and in [localStorage], no error is shown, and every
    later call of the wrappers carries that token as its bearer credential
    if it is truthy. *)
Theorem login_signs_in (s : screen) (out : fetch_outcome) (r t : value) :
  req_result out = Return r ->
  get r "token" = Return t ->
  let s' := submit_resume out (submit_call s) in
  authed s' = true
  /\ loading s' = false
  /\ error s' = ""
  /\ token (api s') = t
  /\ localStorage (api s') !! "ns_token" = Some (to_string t)
  /\ (truthy t = true ->
      forall c, headers (issued VITE_API_URL c (api s')) !! "Authorization"
                = Some ("Bearer " +:+ to_string t)).
Proof.
  intros Hr Ht. cbn zeta. unfold Auth.submit_resume. rewrite Hr. cbn [bind].
  rewrite Ht. cbn [authed loading error api Auth.submit_call].
  split; [reflexivity|]. split; [reflexivity|]. split; [reflexivity|].
  split; [reflexivity|]. split; [apply lookup_insert_eq|].
  intros Htr c. unfold issued, req_request, req_headers. cbn [headers].
  assert (Hh : opt_headers (call_options c) = None)
    by (destruct c as [|? []| |]; reflexivity).
  rewrite Hh. cbn [default setToken token with_storage with_token].
  rewrite Htr.
  destruct (negb (is_form_data _)); [rewrite lookup_insert_ne by discriminate|];
    apply lookup_insert_eq.
Qed.

(** X23.  When the request fails, or succeeds with the body [null], the
    user is not signed in by it: [authed] is as before, the message of the
    failure is shown, [loading] is off and no token is stored; a 401 answer
    to the login itself also empties the session and asks for a reload. *)
Theorem login_failure_is_reported (s : screen) (out : fetch_outcome) (e : exn) :
  bind (req_result out) (fun r => get r "token") = Throw e ->
  let s' := submit_resume out (submit_call s) in
  authed s' = authed s
  /\ loading s' = false
  /\ error s' = message engine_message e
  /\ (localStorage (api s') !! "ns_token" = localStorage (api s) !! "ns_token"
      \/ localStorage (api s') !! "ns_token" = None)
  /\ (forall r, out = Resp r -> status r = 401%Z ->
        token (api s') = VNull /\ reloads (api s') = S (reloads (api s))).
Proof.
  intros He. cbn zeta. unfold Auth.submit_resume. rewrite He.
  cbn [authed loading error api Auth.submit_call].
  split; [reflexivity|]. split; [reflexivity|]. split; [reflexivity|]. split.
  - destruct out as [|r]; cbn; [left; reflexivity|].
    unfold req_line79. destruct (status r =? 401)%Z; [right|left; reflexivity].
    cbn. apply lookup_delete_eq.
  - intros r -> H401. cbn. unfold req_line79. rewrite H401. cbn. auto.
Qed.

End AuthMore.

(** * Further properties of the service worker *)

Section WorkerMore.
Import Sw.

Lemma fold_delete (ks : list string) (cs : cache_storage) :
  fold_left (fun acc k => caches_delete k acc) ks cs
  = List.filter (fun c => forallb (fun k => negb (String.eqb (fst c) k)) ks) cs.
Proof.
  revert cs. induction ks as [|k ks IH]; intros cs; cbn.
  - induction cs as [|c cs IHc]; cbn; congruence.
  - rewrite IH. unfold caches_delete.
    induction cs as [|c cs IHc]; cbn; [reflexivity|].
    destruct (String.eqb (fst c) k); cbn; rewrite IHc;
      [reflexivity|].
    destruct (forallb _ ks); reflexivity.
Qed.

Lemma activate_filter (cs : cache_storage) :
  activate cs = List.filter is_current cs.
Proof.
  unfold activate. rewrite fold_delete. apply filter_ext_in.
  intros c Hin. unfold is_current.
  destruct (String.eqb (fst c) CACHE_NAME) eqn:E.
  - apply forallb_forall. intros k Hk. apply filter_In in Hk as [_ Hk].
    apply String.eqb_eq in E. rewrite E. rewrite String.eqb_sym. exact Hk.
  - apply not_true_is_false. intros Hall.
    rewrite forallb_forall in Hall.
    assert (Hk : In (fst c)
                   (List.filter (fun k => negb (String.eqb k CACHE_NAME))
                      (caches_keys cs))).
    { apply filter_In. split; [apply in_map, Hin | rewrite E; reflexivity]. }
    apply Hall in Hk. rewrite String.eqb_refl in Hk. discriminate.
Qed.

Lemma cache_match_filter (rq : request) (cs : cache_storage) :
  cache_match CACHE_NAME rq (List.filter is_current cs)
  = cache_match CACHE_NAME rq cs.
Proof.
  induction cs as [|[n c] cs IH]; [reflexivity|].
  cbn [List.filter cache_match]. unfold is_current at 1.
  cbn [fst]. destruct (String.eqb n CACHE_NAME) eqn:E; [|exact IH].
  cbn [cache_match]. rewrite E. reflexivity.
Qed.

Lemma caches_match_current (rq : request) (cs : cache_storage) :
  NoDup (caches_keys cs) ->
  caches_match rq (List.filter is_current cs) = cache_match CACHE_NAME rq cs.
Proof.
  induction cs as [|[n c] cs IH]; intros Hnd; [reflexivity|].
  cbn in Hnd. apply NoDup_cons in Hnd as [Hn Hnd].
  cbn [List.filter cache_match]. unfold is_current at 1. cbn [fst].
  destruct (String.eqb n CACHE_NAME) eqn:E; [|exact (IH Hnd)].
  cbn [caches_match].
  apply String.eqb_eq in E. subst n.
  assert (Hnil : List.filter is_current cs = []).
  { clear -Hn. induction cs as [|[n' c'] cs IH]; [reflexivity|].
    cbn [List.filter]. unfold is_current at 1. cbn [fst].
    destruct (String.eqb n' CACHE_NAME) eqn:E.
    - apply String.eqb_eq in E. subst n'. exfalso. apply Hn.
      cbn. apply list_elem_of_here.
    - apply IH. intros H. apply Hn. cbn. apply list_elem_of_further, H. }
  rewrite Hnil. cbn. destruct (query rq c); reflexivity.
Qed.

(** X24.  Activation keeps what the current cache holds and deletes every
    cache with another name; where the cache names are distinct, as they
    are in a browser, what the worker falls back on after activation is
    exactly the entry of the current cache, so nothing stored by an older
    version is served. *)
Theorem activate_keeps_only_current (cs : cache_storage) :
  (forall rq, cache_match CACHE_NAME rq (activate cs)
              = cache_match CACHE_NAME rq cs)
  /\ (forall name, name <> CACHE_NAME -> has_cache name (activate cs) = false)
  /\ (NoDup (caches_keys cs) ->
      forall rq, caches_match rq (activate cs) = cache_match CACHE_NAME rq cs).
Proof.
  split; [|split].
  - intros rq. rewrite activate_filter. apply cache_match_filter.
  - intros name Hne. unfold has_cache. apply not_true_is_false. intros H.
    apply existsb_exists in H as (c & Hin & E). apply String.eqb_eq in E.
    pose proof (activate_names cs) as Hall. rewrite Forall_forall in Hall.
    apply list_elem_of_In, Hall in Hin. congruence.
  - intros Hnd rq. rewrite activate_filter. apply caches_match_current, Hnd.
Qed.

Lemma find_kept {A : Type} (p q : A -> bool) (l : list A) (x : A) :
  (forall e, q e = true -> p e = false) ->
  p x = false ->
  List.find p (List.filter (fun e => negb (q e)) l ++ [x]) = List.find p l.
Proof.
  intros Hq Hx. induction l as [|a l IH]; cbn [List.filter app List.find].
  - rewrite Hx. reflexivity.
  - destruct (q a) eqn:E; cbn [negb].
    + rewrite (Hq a E). exact IH.
    + cbn [app List.find]. rewrite IH. reflexivity.
Qed.

Lemma matches_url (rq : request) (e : entry) :
  matches rq e = true ->
  strip_fragment (url rq) = strip_fragment (url (entry_request e)).
Proof.
  unfold matches. intros H. apply andb_true_iff in H as [H _].
  apply andb_true_iff in H as [_ H]. apply String.eqb_eq, H.
Qed.

Lemma query_put_other (rq rq' : request) (r : response) (c : list entry) :
  strip_fragment (url rq') <> strip_fragment (url rq) \/ is_get rq = false ->
  query rq' (put rq r c) = query rq' c.
Proof.
  intros Hd. unfold put. destruct (storable rq r) eqn:Hs; [|reflexivity].
  destruct Hd as [Hd|Hd];
    [|rewrite (storable_get _ _ Hs) in Hd; discriminate].
  unfold query. f_equal. apply find_kept.
  - intros e He. apply not_true_is_false. intros He'.
    apply matches_url in He, He'. congruence.
  - apply not_true_is_false. intros He'. apply matches_url in He'.
    exact (Hd He').
Qed.

Lemma caches_match_put_other (name : string) (rq rq' : request) (r : response)
    (cs : cache_storage) :
  strip_fragment (url rq') <> strip_fragment (url rq) \/ is_get rq = false ->
  caches_match rq' (cache_put name rq r cs) = caches_match rq' cs.
Proof.
  intros Hd. induction cs as [|[n c] cs IH]; [reflexivity|]. cbn.
  destruct (String.eqb n name); cbn; [|rewrite IH; reflexivity].
  rewrite query_put_other by exact Hd. reflexivity.
Qed.

(** X25.  Handling a request changes the cached answer of no request
    with another URL: whatever the network does, the fallback for a
    request whose URL differs from the handled one by more than the
    fragment is as before, and a request that is not a GET changes no
    fallback at all. *)
Theorem fetch_leaves_other_entries
    (rq rq' : request) (net : fetch_outcome) (cs : cache_storage) :
  strip_fragment (url rq') <> strip_fragment (url rq) \/ is_get rq = false ->
  caches_match rq' (snd (served rq net cs)) = caches_match rq' cs.
Proof.
  intros Hd. unfold served, on_fetch.
  destruct (includes "/api/" (url rq)); [reflexivity|].
  destruct net as [|r]; [reflexivity|].
  destruct (ok r); [|reflexivity].
  cbn [snd fold_left]. unfold complete. cbn [write_request write_response].
  rewrite caches_match_put_other by exact Hd. apply caches_match_open.
Qed.

End WorkerMore.

(** * Installation of the service worker *)

Section InstallMore.
Import Sw Install.

Variable origin : string.
Variable net : string -> fetch_outcome.

(** The origin has no fragment. *)
Hypothesis origin_plain : strip_fragment origin = origin.

Local Abbreviation fetched := (Install.fetched origin net).
Local Abbreviation install := (Install.install origin net).
Local Abbreviation asset_request :=
  (fun a : string => Request (origin +:+ a) "GET" ∅).

Lemma append_inj (p a b : string) : p +:+ a = p +:+ b -> a = b.
Proof.
  induction p as [|x p IH]; intros H; [exact H|].
  change (String x (p +:+ a) = String x (p +:+ b)) in H.
  injection H as H. exact (IH H).
Qed.

Lemma strip_append (p a : string) :
  strip_fragment p = p ->
  strip_fragment (p +:+ a) = p +:+ strip_fragment a.
Proof.
  induction p as [|x p IH]; intros H; [reflexivity|].
  change (String x p +:+ a) with (String x (p +:+ a)).
  cbn [strip_fragment] in H |- *.
  destruct (Ascii.eqb x "#"); [discriminate|].
  injection H as H. rewrite (IH H). reflexivity.
Qed.

Lemma has_cache_put (name : string) (rq : request) (r : response)
    (cs : cache_storage) :
  has_cache name (cache_put name rq r cs) = has_cache name cs.
Proof.
  unfold has_cache. induction cs as [|[n c] cs IH]; [reflexivity|]. cbn.
  destruct (String.eqb n name) eqn:E; cbn; rewrite E; [reflexivity|].
  cbn. exact IH.
Qed.

Lemma cache_match_put_other (name : string) (rq rq' : request) (r : response)
    (cs : cache_storage) :
  strip_fragment (url rq') <> strip_fragment (url rq) ->
  cache_match name rq' (cache_put name rq r cs) = cache_match name rq' cs.
Proof.
  intros Hd. induction cs as [|[n c] cs IH]; [reflexivity|]. cbn.
  destruct (String.eqb n name) eqn:E; cbn; rewrite E; [|exact IH].
  apply query_put_other. left. exact Hd.
Qed.

Lemma fetched_Some (a : string) (w : write) :
  fetched a = Some w ->
  exists r, net (origin +:+ a) = Resp r /\ ok r = true
            /\ storable (asset_request a) r = true
            /\ w = Write (asset_request a) r.
Proof.
  unfold Install.fetched. destruct (net (origin +:+ a)) as [|r]; [discriminate|].
  destruct (ok r) eqn:Hok; [|discriminate].
  destruct (storable _ r) eqn:Hs; [|discriminate].
  intros [= <-]. eauto.
Qed.

Lemma assets_apart :
  strip_fragment (origin +:+ "/") <> strip_fragment (origin +:+ "/index.html").
Proof.
  rewrite !strip_append by exact origin_plain. cbn [strip_fragment Ascii.eqb].
  intros H. apply append_inj in H. discriminate.
Qed.

Lemma install_unfold (cs : cache_storage) :
  install cs
  = match fetched "/", fetched "/index.html" with
    | Some w1, Some w2 =>
        (true,
         cache_put CACHE_NAME (write_request w2) (write_response w2)
           (cache_put CACHE_NAME (write_request w1) (write_response w1)
              (caches_open CACHE_NAME cs)))
    | _, _ => (false, caches_open CACHE_NAME cs)
    end.
Proof.
  unfold Install.install, STATIC_ASSETS.
  destruct (fetched "/") as [w1|] eqn:E1,
           (fetched "/index.html") as [w2|] eqn:E2;
    cbn; rewrite ?E1, ?E2; try reflexivity.
  apply fetched_Some in E1 as (r1 & _ & _ & _ & ->).
  apply fetched_Some in E2 as (r2 & _ & _ & _ & ->).
  cbn. unfold matches. cbn [entry_request url is_get method].
  assert (Hd : String.eqb (strip_fragment (origin +:+ "/index.html"))
                          (strip_fragment (origin +:+ "/")) = false).
  { apply String.eqb_neq. intros H. exact (assets_apart (eq_sym H)). }
  rewrite Hd. reflexivity.
Qed.

Lemma install_stores (cs : cache_storage) (a : string) (r : response) :
  fst (install cs) = true ->
  In a STATIC_ASSETS ->
  net (origin +:+ a) = Resp r ->
  cache_match CACHE_NAME (asset_request a) (snd (install cs)) = Some r.
Proof.
  rewrite install_unfold. unfold STATIC_ASSETS.
  destruct (fetched "/") as [w1|] eqn:E1; [|discriminate].
  destruct (fetched "/index.html") as [w2|] eqn:E2; [|discriminate].
  cbn [fst snd].
  apply fetched_Some in E1 as (r1 & N1 & _ & S1 & ->).
  apply fetched_Some in E2 as (r2 & N2 & _ & S2 & ->).
  cbn [write_request write_response].
  intros _ [<-|[<-|[]]] Hr.
  - rewrite N1 in Hr. injection Hr as <-.
    rewrite cache_match_put_other by exact assets_apart.
    apply cache_match_put; [exact S1 | apply has_cache_open].
  - rewrite N2 in Hr. injection Hr as <-.
    apply cache_match_put; [exact S2|].
    rewrite has_cache_put. apply has_cache_open.
Qed.

(** X26.  The installation is all or nothing.  It succeeds exactly when
    the network answers every entry of [STATIC_ASSETS] with a response
    that has a success status and that the Cache API accepts (not a 206,
    no star in its [Vary], an http or https URL); then each answer is in
    the current cache under the entry's URL.  When it does not succeed
    nothing is stored: every fallback is as it was. *)
Theorem install_all_or_nothing (cs : cache_storage) :
  (fst (install cs) = true
   <-> forall a, In a STATIC_ASSETS ->
         exists r, net (origin +:+ a) = Resp r /\ ok r = true
                   /\ storable (asset_request a) r = true)
  /\ (fst (install cs) = true ->
      forall a r, In a STATIC_ASSETS -> net (origin +:+ a) = Resp r ->
        cache_match CACHE_NAME (asset_request a) (snd (install cs)) = Some r)
  /\ (fst (install cs) = false ->
      forall rq, caches_match rq (snd (install cs)) = caches_match rq cs).
Proof.
  split; [|split].
  - rewrite install_unfold. unfold STATIC_ASSETS. split.
    + destruct (fetched "/") as [w1|] eqn:E1; [|discriminate].
      destruct (fetched "/index.html") as [w2|] eqn:E2; [|discriminate].
      apply fetched_Some in E1 as (r1 & N1 & O1 & S1 & _).
      apply fetched_Some in E2 as (r2 & N2 & O2 & S2 & _).
      intros _ a [<-|[<-|[]]]; eauto.
    + intros Hall.
      destruct (Hall "/" ltac:(cbn; auto)) as (r1 & N1 & O1 & S1).
      destruct (Hall "/index.html" ltac:(cbn; auto)) as (r2 & N2 & O2 & S2).
      unfold Install.fetched. rewrite N1, O1, S1, N2, O2, S2. reflexivity.
  - intros Hi a r. apply install_stores, Hi.
  - rewrite install_unfold.
    destruct (fetched "/") as [w1|], (fetched "/index.html") as [w2|];
      try discriminate; intros _ rq; cbn [snd]; apply caches_match_open.
Qed.



End InstallMore.

(** * The further properties at work on concrete runs *)

Import ScreenExamples.

Lemma dashboard_shows_by_position_witness :
  Dashboard.pending opened = ∅
  /\ exists s',
       Dashboard.run out_of_order (Dashboard.load None opened) = Some s'
       /\ Dashboard.dash s'
          = Dashboard.DashboardState
              (VObj [(key "calorie_target", num 2000)]) (VArr [])
              (VObj [(key "total_meals", num 3)]) false.
Proof.
  split; [reflexivity|].
  destruct (dashboard_shows_by_position None opened summary history stats
              (VObj [(key "calorie_target", num 2000)]) (VArr [])
              (VObj [(key "total_meals", num 3)]) out_of_order
              eq_refl eq_refl eq_refl eq_refl)
    as (s' & Hrun & Hd & _).
  - apply (perm_trans (perm_swap _ _ _)). apply perm_skip, perm_swap.
  - exists s'. split; [exact Hrun | exact Hd].
Defined.

Lemma delete_then_refetch_witness :
  truthy (Deletion.deleting confirming) = true
  /\ Api.req_result deleted = Return (VObj [(key "status", VStr "deleted")])
  /\ map (fun rq => (Api.method rq, Api.url rq))
         (Api.sent (Dashboard.api refetching))
     = [("DELETE", "http://localhost:8000/api/meals/7");
        ("GET", "http://localhost:8000/api/dashboard/today");
        ("GET", "http://localhost:8000/api/dashboard/history?days=7");
        ("GET", "http://localhost:8000/api/dashboard/stats")].
Proof.
  split; [reflexivity|]. split; [reflexivity|].
  exact (proj2 (proj2 (proj2 (proj2
           (delete_then_refetch None GateExamples.engine_message confirming
              deleted _ eq_refl eq_refl))))).
Defined.

Lemma stale_after_failed_refetch_witness :
  Dashboard.pending (Deletion.board confirming) = ∅
  /\ Dashboard.run refetch_settlements refetching = Some stale_board
  /\ Dashboard.shown (Dashboard.dash stale_board)
     = Dashboard.shown (Dashboard.dash (Deletion.board confirming))
  /\ Dashboard.loading (Dashboard.dash stale_board) = false.
Proof.
  assert (Hrun : Dashboard.run refetch_settlements refetching = Some stale_board)
    by (vm_compute; reflexivity).
  split; [reflexivity|]. split; [exact Hrun|].
  apply (stale_after_failed_refetch None GateExamples.engine_message
           confirming deleted (VObj [(key "status", VStr "deleted")])
           refetch_settlements stale_board eq_refl eq_refl eq_refl Hrun).
  apply Exists_cons_tl, Exists_cons_hd. reflexivity.
Defined.

Lemma failed_delete_keeps_dashboard_witness :
  truthy (Deletion.deleting confirming) = true
  /\ Api.req_result gone = Throw (Error "Meal not found")
  /\ Deletion.alerts
       (Deletion.handleDelete_resume None GateExamples.engine_message gone
          (Deletion.handleDelete_call None confirming))
     = ["Meal not found"]
  /\ Deletion.handleDelete_call None
       (Deletion.Screen opened (num 0) false [])
     = Deletion.Screen opened (num 0) false [].
Proof.
  split; [reflexivity|]. split; [reflexivity|]. split.
  - exact (proj1 (proj2 (failed_delete_keeps_dashboard None
                           GateExamples.engine_message confirming gone)
                   (Error "Meal not found") eq_refl eq_refl)).
  - exact (proj1 (failed_delete_keeps_dashboard None
                    GateExamples.engine_message
                    (Deletion.Screen opened (num 0) false []) gone)
             eq_refl).
Defined.

Lemma dismissed_banner_stays_hidden_witness :
  exists s',
    Shell.run None
      [Shell.Gateway (Api.OSettle (Api.Resp expired));
       Shell.Gateway Api.OPageLoad;
       Shell.Gateway (Api.OSetToken (VStr "tok-2"));
       Shell.BeforeInstallPrompt]
      (Shell.dismissInstall banner) = Some s'
    /\ Shell.showInstall s' = false
    /\ Shell.installPrompt s' = true.
Proof.
  eexists. split; [vm_compute; reflexivity|]. split; [|reflexivity].
  refine (proj1 (dismissed_banner_stays_hidden None
                   [Shell.Gateway (Api.OSettle (Api.Resp expired));
                    Shell.Gateway Api.OPageLoad;
                    Shell.Gateway (Api.OSetToken (VStr "tok-2"));
                    Shell.BeforeInstallPrompt] banner _ _)).
  vm_compute; reflexivity.
Defined.

Lemma prompt_is_used_once_witness :
  Shell.showInstall banner = true
  /\ exists s',
       Shell.run None [Shell.ClickInstall; Shell.UserChoice "dismissed"] banner
       = Some s'
       /\ Shell.showInstall s' = true
       /\ Shell.step None Shell.ClickInstall s' = Some s'.
Proof.
  split; [reflexivity|].
  destruct (prompt_is_used_once None banner "dismissed" eq_refl eq_refl eq_refl)
    as (s' & Hrun & _ & _ & Hb & Hdead).
  exists s'. split; [exact Hrun|]. split; [exact Hb | exact (Hdead Hb)].
Defined.

Lemma login_signs_in_witness :
  Api.req_result welcome = Return (VObj [(key "token", VStr "tok-2")])
  /\ Auth.authed
       (Auth.submit_resume GateExamples.engine_message welcome
          (Auth.submit_call None VObj signing_in)) = true
  /\ Api.headers
       (Api.issued None (Api.Get "/profile")
          (Auth.api
             (Auth.submit_resume GateExamples.engine_message welcome
                (Auth.submit_call None VObj signing_in))))
     !! "Authorization" = Some "Bearer tok-2".
Proof.
  split; [reflexivity|].
  destruct (login_signs_in None GateExamples.engine_message VObj signing_in
              welcome (VObj [(key "token", VStr "tok-2")]) (VStr "tok-2")
              eq_refl eq_refl) as (Ha & _ & _ & _ & _ & Hh).
  split; [exact Ha|]. exact (Hh eq_refl (Api.Get "/profile")).
Defined.

Lemma login_failure_is_reported_witness :
  bind (Api.req_result wrong_password) (fun r => get r "token")
  = Throw (Error "Invalid credentials")
  /\ Auth.error
       (Auth.submit_resume GateExamples.engine_message wrong_password
          (Auth.submit_call None VObj signing_in))
     = "Invalid credentials"
  /\ Api.reloads
       (Auth.api
          (Auth.submit_resume GateExamples.engine_message wrong_password
             (Auth.submit_call None VObj signing_in)))
     = 1%nat.
Proof.
  split; [reflexivity|].
  destruct (login_failure_is_reported None GateExamples.engine_message VObj
              signing_in wrong_password (Error "Invalid credentials") eq_refl)
    as (_ & _ & He & _ & Hr).
  split; [exact He|]. exact (proj2 (Hr _ eq_refl eq_refl)).
Defined.

Lemma fetch_leaves_other_entries_witness :
  Sw.strip_fragment (Sw.url logo) <> Sw.strip_fragment (Sw.url page)
  /\ Sw.caches_match logo (snd (Sw.served page (Sw.Resp fresh) storage))
     = Sw.caches_match logo storage.
Proof.
  assert (Hd : Sw.strip_fragment (Sw.url logo) <> Sw.strip_fragment (Sw.url page))
    by discriminate.
  split; [exact Hd|].
  exact (fetch_leaves_other_entries page logo (Sw.Resp fresh) storage
           (or_introl Hd)).
Defined.

Lemma install_all_or_nothing_witness :
  Sw.strip_fragment origin = origin
  /\ fst (Install.install origin online storage) = true
  /\ Sw.cache_match Sw.CACHE_NAME
       (Sw.Request "https://nutriscan.example/" "GET" ∅)
       (snd (Install.install origin online storage))
     = Some fresh.
Proof.
  assert (Ho : Sw.strip_fragment origin = origin) by reflexivity.
  destruct (install_all_or_nothing origin online Ho storage)
    as ([_ Hiff] & Hstored & _).
  assert (Hi : fst (Install.install origin online storage) = true).
  { apply Hiff. intros a _. exists fresh. repeat split. }
  split; [exact Ho|]. split; [exact Hi|].
  exact (Hstored Hi "/" fresh (or_introl eq_refl) eq_refl).
Defined.

